(** * Legal document search engine: segmentation, catalogue and query

    A shallow embedding of [legal_search.py] and [enhanced_legal_search.py].
    Python strings are sequences of Unicode code points, exceptions are an
    error result, the SQLite connection is an explicit store with a committed
    and a working copy, and the parts of the interpreter and of the storage
    engine whose tables are not part of the program (Unicode digit and case
    tables, the full-text engine) are interfaces. *)

From Stdlib Require Import ZArith NArith Lia List Bool String Ascii.
From stdpp Require Import base option list gmap sorting.

Local Open Scope Z_scope.

(* ===================================================================== *)
(** ** Python values *)
(* ===================================================================== *)

(** A code point of a Python [str]. *)
Definition codepoint := N.

(** A Python [str]. *)
Definition pystr := list N.

(** The exceptions the engine can raise. *)
Inductive exn :=
| FileNotFoundError     (* raised by the explicit existence check *)
| OSError               (* open() of a path that exists but cannot be read *)
| UnicodeDecodeError    (* read() of a file that is not valid UTF-8 *)
| ValueError            (* int() *)
| IndexError            (* list index out of range *)
| ReError               (* re.error, raised when a replacement template is rejected *)
| IntegrityError        (* sqlite3.IntegrityError: constraint violation *)
| OverflowError         (* an int parameter that does not fit SQLite's INTEGER *)
| OperationalError.     (* sqlite3.OperationalError: the engine rejects a statement *)

(** The outcome of a call: a value or a raised exception. *)
Inductive result (A : Type) :=
| Ok (a : A)
| Raise (e : exn).
Arguments Ok {A} a.
Arguments Raise {A} e.

#[global] Instance result_ret : MRet result := fun A a => Ok a.
#[global] Instance result_bind : MBind result := fun A B f m =>
  match m with
  | Ok a => f a
  | Raise e => Raise e
  end.

(** An ASCII literal of the source as a [str]. *)
Definition lit (s : string) : pystr :=
  map N_of_ascii (list_ascii_of_string s).

Module Str.

(** [str.isspace] of one code point: the interpreter's whitespace set
    (bidirectional type WS, B or S, or category Zs). *)
Definition isspace (c : codepoint) : bool :=
  ((0x09 <=? c) && (c <=? 0x0D) || (0x1C <=? c) && (c <=? 0x20)
   || (c =? 0x85) || (c =? 0xA0) || (c =? 0x1680)
   || (0x2000 <=? c) && (c <=? 0x200A)
   || (c =? 0x2028) || (c =? 0x2029) || (c =? 0x202F) || (c =? 0x205F)
   || (c =? 0x3000))%N.

Definition newline : codepoint := 0x0A%N.

Definition is_newline (c : codepoint) : bool := (c =? newline)%N.

Fixpoint lstrip (s : pystr) : pystr :=
  match s with
  | c :: s' => if isspace c then lstrip s' else s
  | [] => []
  end.

Definition rstrip (s : pystr) : pystr := rev (lstrip (rev s)).

(** [s.strip()] *)
Definition strip (s : pystr) : pystr := rstrip (lstrip s).

(** [s.startswith(p)] *)
Fixpoint startswith (p s : pystr) : bool :=
  match p, s with
  | [], _ => true
  | a :: p', b :: s' => (a =? b)%N && startswith p' s'
  | _ :: _, [] => false
  end.

(** Prepend a code point to the first piece of a split. *)
Definition cons_head (c : codepoint) (parts : list pystr) : list pystr :=
  match parts with
  | h :: t => (c :: h) :: t
  | [] => [[c]]
  end.

(** [s.split('\n')]: never empty, pieces may be. *)
Fixpoint split_lines (s : pystr) : list pystr :=
  match s with
  | [] => [[]]
  | c :: s' =>
      if is_newline c then [] :: split_lines s'
      else cons_head c (split_lines s')
  end.

(** [s.split()]: the maximal runs of non-whitespace code points. *)
Fixpoint split_ws_from (cur : pystr) (s : pystr) : list pystr :=
  match s with
  | [] => match cur with [] => [] | _ => [rev cur] end
  | c :: s' =>
      if isspace c
      then match cur with
           | [] => split_ws_from [] s'
           | _ => rev cur :: split_ws_from [] s'
           end
      else split_ws_from (c :: cur) s'
  end.

Definition split (s : pystr) : list pystr := split_ws_from [] s.

(** ['\n'.join(parts)] *)
Fixpoint join_lines (parts : list pystr) : pystr :=
  match parts with
  | [] => []
  | [p] => p
  | p :: rest => p ++ newline :: join_lines rest
  end.

(** [len(s)] *)
Definition len (s : pystr) : Z := Z.of_nat (length s).

(** The longest prefix whose code points satisfy [f], and the rest. *)
Fixpoint span (f : codepoint -> bool) (s : pystr) : pystr * pystr :=
  match s with
  | c :: s' =>
      if f c then let '(a, b) := span f s' in (c :: a, b) else ([], s)
  | [] => ([], [])
  end.

End Str.

(* ===================================================================== *)
(** ** The interpreter's tables *)
(* ===================================================================== *)

(** What the program takes from the interpreter and its [re] module and
    that depends on tables outside the program. *)
Class Interpreter := {
  (** [\d] of a [str] pattern: the code point is a decimal digit. *)
  re_isdecimal : codepoint -> bool;
  (** [int(s)]; raises [ValueError] when it rejects the text. *)
  int_str : pystr -> result Z;
  (** A literal of a pattern compiled with [re.IGNORECASE] (first argument)
      matches a code point of the subject (second argument). *)
  re_ignorecase_eq : codepoint -> codepoint -> bool;
  (** The replacement template of [Pattern.sub] when it holds a backslash:
      rejected with [re.error], or a function of the matched text. *)
  re_template_escapes : pystr -> result (pystr -> pystr)
}.

(* ===================================================================== *)
(** ** Segmenter *)
(* ===================================================================== *)

(** [PageContent] *)
Record PageContent := {
  pc_page_number : Z;
  pc_content : pystr;
  pc_document_name : pystr
}.

(** The two values of the ['article_type'] key. *)
Inductive article_type := article | general.

(** The dictionary appended to [articles] for each unit. *)
Record unit_dict := {
  u_id : Z;
  u_document_name : pystr;
  u_page_number : Z;
  u_chapter : pystr;
  u_section : pystr;
  u_article_number : pystr;
  u_title : pystr;
  u_content : pystr;
  u_article_type : article_type;
  u_position_in_page : Z
}.

Module Segmenter.

(** ['الباب'] *)
Definition chapter_keyword : pystr := [0x627; 0x644; 0x628; 0x627; 0x628]%N.
(** ['الفصل'] *)
Definition section_keyword : pystr := [0x627; 0x644; 0x641; 0x635; 0x644]%N.
(** ['المادة ('], the literal part of the article pattern *)
Definition article_keyword : pystr :=
  [0x627; 0x644; 0x645; 0x627; 0x62F; 0x629; 0x20; 0x28]%N.
Definition close_paren : codepoint := 0x29%N.
(** ['## Page '] *)
Definition page_keyword : pystr := lit "## Page ".

(** [re.match] of the article pattern on [line], giving group 1 of the
    match if any. The pattern is: an optional pair of asterisks, the
    literal above, a label of one or more code points other than a closing
    parenthesis (group 1), a closing parenthesis, an optional pair of
    asterisks. The label is the longest such run, so it must be non-empty
    and be followed by the closing parenthesis. *)
Definition article_match (line : pystr) : option pystr :=
  let body := if Str.startswith (lit "**") line then drop 2 line else line in
  if Str.startswith article_keyword body then
    let '(label, rest) :=
      Str.span (fun c => negb (c =? close_paren)%N) (drop (length article_keyword) body) in
    match label, rest with
    | _ :: _, c :: _ => if (c =? close_paren)%N then Some label else None
    | _, _ => None
    end
  else None.

(** The variables of [parse_markdown_document_enhanced] that live across
    pages. *)
Record doc_state := {
  current_chapter : pystr;
  current_section : pystr;
  article_id : Z;
  pages_content : list PageContent;
  articles : list unit_dict
}.

(** The variables that are set afresh for each page. *)
Record page_state := {
  current_article_content : list pystr;
  current_article_number : pystr;
  current_article_title : pystr;
  in_article : bool;
  position_in_page : Z
}.

Definition doc_init : doc_state :=
  {| current_chapter := []; current_section := []; article_id := 0;
     pages_content := []; articles := [] |}.

Definition page_init : page_state :=
  {| current_article_content := []; current_article_number := [];
     current_article_title := []; in_article := false;
     position_in_page := 0 |}.

Definition set_chapter (line : pystr) (d : doc_state) : doc_state :=
  {| current_chapter := line; current_section := current_section d;
     article_id := article_id d; pages_content := pages_content d;
     articles := articles d |}.

Definition set_section (line : pystr) (d : doc_state) : doc_state :=
  {| current_chapter := current_chapter d; current_section := line;
     article_id := article_id d; pages_content := pages_content d;
     articles := articles d |}.

Definition add_page (pc : PageContent) (d : doc_state) : doc_state :=
  {| current_chapter := current_chapter d;
     current_section := current_section d;
     article_id := article_id d;
     pages_content := pages_content d ++ [pc];
     articles := articles d |}.

(** [article_id += 1; articles.append({...})] *)
Definition emit (document_name : pystr) (page_num : Z)
    (number title content : pystr) (kind : article_type) (pos : Z)
    (d : doc_state) : doc_state :=
  let id := article_id d + 1 in
  {| current_chapter := current_chapter d;
     current_section := current_section d;
     article_id := id;
     pages_content := pages_content d;
     articles := articles d ++
       [{| u_id := id; u_document_name := document_name;
           u_page_number := page_num;
           u_chapter := current_chapter d;
           u_section := current_section d;
           u_article_number := number; u_title := title;
           u_content := content; u_article_type := kind;
           u_position_in_page := pos |}] |}.

(** [if in_article and current_article_content: ...]: the open article
    is appended when its list of body lines is not empty. *)
Definition close_article (document_name : pystr) (page_num : Z)
    (d : doc_state) (p : page_state) : doc_state :=
  match in_article p, current_article_content p with
  | true, _ :: _ =>
      emit document_name page_num (current_article_number p)
        (current_article_title p)
        (Str.join_lines (current_article_content p)) article
        (position_in_page p) d
  | _, _ => d
  end.

Definition open_article (number : pystr) (line_idx : Z) : page_state :=
  {| current_article_content := []; current_article_number := number;
     current_article_title := []; in_article := true;
     position_in_page := line_idx |}.

Definition append_line (line : pystr) (p : page_state) : page_state :=
  {| current_article_content := current_article_content p ++ [line];
     current_article_number := current_article_number p;
     current_article_title := current_article_title p;
     in_article := in_article p;
     position_in_page := position_in_page p |}.

(** One iteration of [for line_idx, line in enumerate(lines)]. *)
Definition scan_line (document_name : pystr) (page_num line_idx : Z)
    (raw : pystr) (st : doc_state * page_state) : doc_state * page_state :=
  let '(d, p) := st in
  let line := Str.strip raw in
  match line with
  | [] => st
  | _ :: _ =>
      if Str.startswith chapter_keyword line then (set_chapter line d, p)
      else if Str.startswith section_keyword line then (set_section line d, p)
      else
        match article_match line with
        | Some number =>
            (close_article document_name page_num d p,
             open_article number line_idx)
        | None =>
            if in_article p then (d, append_line line p)
            else if 10 <? Str.len line
                 then (emit document_name page_num [] [] line general line_idx d, p)
                 else st
        end
  end.

Fixpoint scan_lines (document_name : pystr) (page_num line_idx : Z)
    (lines : list pystr) (st : doc_state * page_state)
    : doc_state * page_state :=
  match lines with
  | [] => st
  | raw :: rest =>
      scan_lines document_name page_num (line_idx + 1) rest
        (scan_line document_name page_num line_idx raw st)
  end.

(** The body of [for i in range(1, len(page_sections), 2)], once the
    page number is known. *)
Definition scan_page (document_name : pystr) (page_num : Z)
    (text : pystr) (d : doc_state) : doc_state :=
  let page_content := Str.strip text in
  let d1 := add_page {| pc_page_number := page_num;
                        pc_content := page_content;
                        pc_document_name := document_name |} d in
  let '(d2, p2) :=
    scan_lines document_name page_num 0 (Str.split_lines page_content)
      (d1, page_init) in
  close_article document_name page_num d2 p2.

Section WithInterpreter.
Context {interp : Interpreter}.

(** [## Page (\d+)] matched at the head of [s]: group 1. *)
Definition page_marker_at (s : pystr) : option pystr :=
  if Str.startswith page_keyword s then
    match fst (Str.span re_isdecimal (drop (length page_keyword) s)) with
    | [] => None
    | digits => Some digits
    end
  else None.

(** [re.split(r'^## Page (\d+)', s, flags=re.MULTILINE)], scanning from a
    position where [bol] tells whether [^] holds; [skip] code points of a
    marker matched earlier are still to be passed over. *)
Fixpoint re_split_from (bol : bool) (skip : nat) (s : pystr) : list pystr :=
  match s with
  | [] => [[]]
  | c :: s' =>
      match skip with
      | S k => re_split_from (Str.is_newline c) k s'
      | O =>
          match (if bol then page_marker_at s else None) with
          | Some digits =>
              [] :: digits ::
                re_split_from (Str.is_newline c)
                  (length page_keyword + length digits - 1)%nat s'
          | None => Str.cons_head c (re_split_from (Str.is_newline c) 0 s')
          end
      end
  end.

Definition re_split_pages (content : pystr) : list pystr :=
  re_split_from true 0 content.

(** The loop over [page_sections[1:]], two items at a time. *)
Fixpoint page_loop (document_name : pystr) (sections : list pystr)
    (d : doc_state) : result doc_state :=
  match sections with
  | [] => Ok d
  | num :: [] => _ ← int_str num; Raise IndexError
  | num :: text :: rest =>
      page_num ← int_str num;
      page_loop document_name rest (scan_page document_name page_num text d)
  end.

(** The function on the text [f.read()] returned. *)
Definition parse_content (content document_name : pystr)
    : result (list PageContent * list unit_dict) :=
  d ← page_loop document_name (tail (re_split_pages content)) doc_init;
  mret (pages_content d, articles d).

End WithInterpreter.

End Segmenter.

(* ===================================================================== *)
(** ** Files *)
(* ===================================================================== *)

(** What [open(path, 'r', encoding='utf-8')] followed by [read()] finds at a
    path that exists. *)
Inductive file :=
| Text (content : pystr)  (* the text [read()] returns *)
| Undecodable             (* bytes that are not valid UTF-8 *)
| Unreadable.             (* [open] fails: a directory, no permission *)

Abbreviation filesystem := (gmap pystr file).

(** [os.path.exists(path)] *)
Definition path_exists (fs : filesystem) (path : pystr) : bool :=
  match fs !! path with Some _ => true | None => false end.

(** [with open(path, 'r', encoding='utf-8') as f: content = f.read()] *)
Definition read_text (fs : filesystem) (path : pystr) : result pystr :=
  match fs !! path with
  | None => Raise FileNotFoundError
  | Some (Text content) => Ok content
  | Some Undecodable => Raise UnicodeDecodeError
  | Some Unreadable => Raise OSError
  end.

(** [parse_markdown_document_enhanced] *)
Definition parse_markdown_document_enhanced {interp : Interpreter}
    (fs : filesystem) (file_path document_name : pystr)
    : result (list PageContent * list unit_dict) :=
  content ← read_text fs file_path;
  Segmenter.parse_content content document_name.

(* ===================================================================== *)
(** ** An interpreter for closed examples *)
(* ===================================================================== *)

(** The tables restricted to Basic Latin: ASCII digits, ASCII letters
    compared without case, no template with a backslash accepted. On text
    made of ASCII and Arabic letters, with page numbers of a few ASCII
    digits, this is what the interpreter does. *)
Module Basic.

Definition isdigit (c : codepoint) : bool := ((0x30 <=? c) && (c <=? 0x39))%N.

Fixpoint int_from (acc : Z) (s : pystr) : result Z :=
  match s with
  | [] => Ok acc
  | c :: s' =>
      if isdigit c then int_from (10 * acc + Z.of_N (c - 0x30)) s'
      else Raise ValueError
  end.

Definition int (s : pystr) : result Z :=
  match s with
  | [] => Raise ValueError
  | _ => int_from 0 s
  end.

Definition lower (c : codepoint) : codepoint :=
  if ((0x41 <=? c) && (c <=? 0x5A))%N then (c + 0x20)%N else c.

#[export] Instance interpreter : Interpreter := {|
  re_isdecimal := isdigit;
  int_str := int;
  re_ignorecase_eq := fun a b => (lower a =? lower b)%N;
  re_template_escapes := fun _ => Raise ReError
|}.

End Basic.

(** An interpreter whose [int] refuses a text of more than 4300 digits, as
    CPython does from version 3.11 on. *)
Module Limited.

Definition max_str_digits : nat := 4300.

Definition int (s : pystr) : result Z :=
  if (max_str_digits <? length s)%nat then Raise ValueError else Basic.int s.

Definition interpreter : Interpreter := {|
  re_isdecimal := Basic.isdigit;
  int_str := int;
  re_ignorecase_eq := fun a b => (Basic.lower a =? Basic.lower b)%N;
  re_template_escapes := fun _ => Raise ReError
|}.

(** A page marker whose number has one digit too many. *)
Definition long_marker : pystr :=
  Segmenter.page_keyword ++ repeat 0x31%N (S max_str_digits).

End Limited.

(* ===================================================================== *)
(** ** The database *)
(* ===================================================================== *)

(** A value bound to a column of a full-text table. *)
Inductive sql_value :=
| SqlNull
| SqlInt (n : Z)
| SqlText (s : pystr).

(** A row of [documents] ([created_at], filled by the clock, is left out). *)
Record document_row := {
  d_id : Z;
  d_name : pystr;
  d_title : pystr;
  d_file_path : pystr;
  d_pages_count : Z
}.

(** A row of [pages]. *)
Record page_row := {
  p_id : Z;
  p_document_id : Z;
  p_page_number : Z;
  p_content : pystr
}.

(** A row of [articles]; [page_id] is NULL when [page_ids.get] found none. *)
Record article_row := {
  a_id : Z;
  a_document_id : Z;
  a_page_id : option Z;
  a_page_number : Z;
  a_chapter : pystr;
  a_section : pystr;
  a_article_number : pystr;
  a_title : pystr;
  a_content : pystr;
  a_article_type : article_type;
  a_position_in_page : Z
}.

(** What was handed to a full-text table by one INSERT: the rowid the table
    gave it and the column values. *)
Record fts_row := {
  fts_rowid : Z;
  fts_values : list sql_value
}.

(** The integers that [sqlite3] binds to a [?] of a statement: those of
    SQLite's INTEGER, 64 bits with a sign. *)
Definition int64_min : Z := -9223372036854775808.
Definition int64_max : Z := 9223372036854775807.

Definition fits_int64 (n : Z) : bool := (int64_min <=? n) && (n <=? int64_max).

(** Binding a Python [int] as a parameter: [OverflowError] when it does
    not fit, raised by [execute] before the statement runs. *)
Definition bind_int (n : Z) : result Z :=
  if fits_int64 n then Ok n else Raise OverflowError.

(** The storage engine's full-text module. *)
Class Fts5 := {
  (** The rowids of the rows that [MATCH] the query, as [ORDER BY rank]
      lists them; [OperationalError] when the engine rejects the query. *)
  fts5_match : list fts_row -> pystr -> result (list Z);
  (** [DELETE FROM t WHERE c = ?] on the first column [c] of a full-text
      table whose content is kept in another table. *)
  fts5_delete : list fts_row -> Z -> result (list fts_row)
}.

(** The tables, with the AUTOINCREMENT counter of each: a new row takes the
    counter plus one, so an id is never given twice, also after the row
    that had it is deleted. The connection does not switch foreign keys on:
    a row may refer to a document id that no row of [documents] has. *)
Record tables := {
  t_documents : list document_row;
  seq_documents : Z;
  t_pages : list page_row;
  seq_pages : Z;
  t_articles : list article_row;
  seq_articles : Z;
  t_articles_fts : list fts_row;
  t_pages_fts : list fts_row
}.

(** The connection to a database whose tables are a [T]: what is committed,
    and what the connection sees, which includes the statements of a
    transaction not yet committed. *)
Record connection_of (T : Type) := {
  committed : T;
  working : T
}.
Arguments committed {T} c.
Arguments working {T} c.

(** The connection of [EnhancedLegalSearchEngine]. *)
Abbreviation connection := (connection_of tables).

Module Sql.

Definition empty : tables :=
  {| t_documents := []; seq_documents := 0; t_pages := []; seq_pages := 0;
     t_articles := []; seq_articles := 0; t_articles_fts := [];
     t_pages_fts := [] |}.

(** The rowid a full-text table gives to a row inserted without one: one
    more than the largest it holds. *)
Definition next_rowid (rows : list fts_row) : Z :=
  foldr Z.max 0 (map fts_rowid rows) + 1.

Definition fts_insert (values : list sql_value) (rows : list fts_row)
    : list fts_row :=
  rows ++ [{| fts_rowid := next_rowid rows; fts_values := values |}].

(** [(SELECT name FROM documents WHERE id = ?)] *)
Definition document_name_of (t : tables) (document_id : Z) : sql_value :=
  match filter (λ d, d_id d = document_id) (t_documents t) with
  | d :: _ => SqlText (d_name d)
  | [] => SqlNull
  end.

Definition set_documents (ds : list document_row) (seq : Z) (t : tables) : tables :=
  {| t_documents := ds; seq_documents := seq;
     t_pages := t_pages t; seq_pages := seq_pages t;
     t_articles := t_articles t; seq_articles := seq_articles t;
     t_articles_fts := t_articles_fts t; t_pages_fts := t_pages_fts t |}.

Definition set_pages (ps : list page_row) (seq : Z) (fts : list fts_row)
    (t : tables) : tables :=
  {| t_documents := t_documents t; seq_documents := seq_documents t;
     t_pages := ps; seq_pages := seq;
     t_articles := t_articles t; seq_articles := seq_articles t;
     t_articles_fts := t_articles_fts t; t_pages_fts := fts |}.

Definition set_articles (rows : list article_row) (seq : Z)
    (fts : list fts_row) (t : tables) : tables :=
  {| t_documents := t_documents t; seq_documents := seq_documents t;
     t_pages := t_pages t; seq_pages := seq_pages t;
     t_articles := rows; seq_articles := seq;
     t_articles_fts := fts; t_pages_fts := t_pages_fts t |}.

(** [INSERT OR REPLACE INTO documents (name, title, file_path, pages_count)
    VALUES (?, ?, ?, ?)]: the row that holds the name is deleted, the new
    row takes the next id; the result is [lastrowid]. *)
Definition insert_or_replace_document (name title file_path : pystr)
    (pages_count : Z) (t : tables) : Z * tables :=
  let id := seq_documents t + 1 in
  (id,
   set_documents
     (filter (λ d, d_name d ≠ name) (t_documents t) ++
      [{| d_id := id; d_name := name; d_title := title;
          d_file_path := file_path; d_pages_count := pages_count |}])
     id t).

(** [UPDATE documents SET pages_count = ? WHERE id = ?] *)
Definition update_pages_count (pages_count document_id : Z) (t : tables)
    : tables :=
  set_documents
    (map (λ d, if decide (d_id d = document_id)
               then {| d_id := d_id d; d_name := d_name d;
                       d_title := d_title d; d_file_path := d_file_path d;
                       d_pages_count := pages_count |}
               else d) (t_documents t))
    (seq_documents t) t.

Section WithEngine.
Context {engine : Fts5}.

(** The AFTER DELETE trigger, once for each deleted row. *)
Fixpoint fts_delete_all (ids : list Z) (rows : list fts_row)
    : result (list fts_row) :=
  match ids with
  | [] => Ok rows
  | id :: rest => rows' ← fts5_delete rows id; fts_delete_all rest rows'
  end.

(** [DELETE FROM articles WHERE document_id = ?] with trigger
    [articles_ad]. *)
Definition delete_articles (document_id : Z) (t : tables)
    : result () * tables :=
  let old := filter (λ a, a_document_id a = document_id) (t_articles t) in
  match fts_delete_all (map a_id old) (t_articles_fts t) with
  | Ok fts =>
      (Ok (),
       set_articles
         (filter (λ a, a_document_id a ≠ document_id) (t_articles t))
         (seq_articles t) fts t)
  | Raise e => (Raise e, t)
  end.

(** [DELETE FROM pages WHERE document_id = ?] with trigger [pages_ad]. *)
Definition delete_pages (document_id : Z) (t : tables)
    : result () * tables :=
  let old := filter (λ p, p_document_id p = document_id) (t_pages t) in
  match fts_delete_all (map p_id old) (t_pages_fts t) with
  | Ok fts =>
      (Ok (),
       set_pages
         (filter (λ p, p_document_id p ≠ document_id) (t_pages t))
         (seq_pages t) fts t)
  | Raise e => (Raise e, t)
  end.

End WithEngine.

(** [INSERT INTO pages (document_id, page_number, content) VALUES (?, ?, ?)]
    under [UNIQUE(document_id, page_number)], with trigger [pages_ai];
    the result is [lastrowid]. The page number is what [int] read in the
    file: it is bound first, and the statement does not run when it does
    not fit. The document id is a [lastrowid]. *)
Definition insert_page (document_id page_number : Z) (content : pystr)
    (t : tables) : result Z * tables :=
  if negb (fits_int64 page_number) then (Raise OverflowError, t)
  else if decide (Exists (λ p, p_document_id p = document_id
                               ∧ p_page_number p = page_number) (t_pages t))
  then (Raise IntegrityError, t)
  else
    let id := seq_pages t + 1 in
    (Ok id,
     set_pages
       (t_pages t ++ [{| p_id := id; p_document_id := document_id;
                         p_page_number := page_number;
                         p_content := content |}])
       id
       (fts_insert [SqlInt id; document_name_of t document_id;
                    SqlInt page_number; SqlText content] (t_pages_fts t))
       t).

(** [INSERT INTO articles (document_id, page_id, page_number, chapter,
    section, article_number, title, content, article_type,
    position_in_page) VALUES (...)] with trigger [articles_ai]. The
    integers bound here are ids the tables gave, the number of a page that
    [insert_page] bound before, and the index of a line of that page. *)
Definition insert_article (document_id : Z) (page_id : option Z)
    (u : unit_dict) (t : tables) : tables :=
  let id := seq_articles t + 1 in
  set_articles
    (t_articles t ++
     [{| a_id := id; a_document_id := document_id; a_page_id := page_id;
         a_page_number := u_page_number u; a_chapter := u_chapter u;
         a_section := u_section u;
         a_article_number := u_article_number u; a_title := u_title u;
         a_content := u_content u; a_article_type := u_article_type u;
         a_position_in_page := u_position_in_page u |}])
    id
    (fts_insert [SqlInt id; document_name_of t document_id;
                 SqlInt (u_page_number u); SqlText (u_chapter u);
                 SqlText (u_section u); SqlText (u_article_number u);
                 SqlText (u_title u); SqlText (u_content u)]
       (t_articles_fts t))
    t.

End Sql.

(* ===================================================================== *)
(** ** Highlighting *)
(* ===================================================================== *)

Module Re.

Definition backslash : codepoint := 0x5C%N.

Section WithInterpreter.
Context {interp : Interpreter}.

(** [re.compile(re.escape(word), re.IGNORECASE)] matches at the head of
    [text]: the code points of [word], one by one, without case. *)
Fixpoint literal_at (word text : pystr) : bool :=
  match word, text with
  | [], _ => true
  | w :: word', c :: text' => re_ignorecase_eq w c && literal_at word' text'
  | _ :: _, [] => false
  end.

(** The replacement of [pattern.sub(template, text)] as a function of
    the matched text. A template without a backslash is taken as it is;
    it is compiled before the text is scanned. *)
Definition compile_template (template : pystr) : result (pystr -> pystr) :=
  if existsb (λ c, (c =? backslash)%N) template
  then re_template_escapes template
  else Ok (λ _, template).

(** [pattern.sub] for a word that is not empty: the leftmost matches
    that do not overlap are replaced; [skip] code points of the last
    match are still to be passed over. *)
Fixpoint sub_from (word : pystr) (repl : pystr -> pystr) (skip : nat)
    (text : pystr) : pystr :=
  match text with
  | [] => []
  | c :: text' =>
      match skip with
      | S k => sub_from word repl k text'
      | O =>
          if literal_at word text
          then repl (take (length word) text) ++
               sub_from word repl (length word - 1) text'
          else c :: sub_from word repl 0 text'
      end
  end.

(** One turn of [for word in words], with the marker that is put before
    and after the word. *)
Definition highlight_word (before after word text : pystr) : result pystr :=
  if 2 <? Str.len word then
    repl ← compile_template (before ++ word ++ after);
    mret (sub_from word repl 0 text)
  else mret text.

Fixpoint highlight_words (before after : pystr) (words : list pystr)
    (highlighted_text : pystr) : result pystr :=
  match words with
  | [] => Ok highlighted_text
  | word :: rest =>
      t ← highlight_word before after word highlighted_text;
      highlight_words before after rest t
  end.

End WithInterpreter.

End Re.

(* ===================================================================== *)
(** ** [EnhancedLegalSearchEngine] *)
(* ===================================================================== *)

(** A computation on the connection that may raise; the connection is kept
    as the exception found it. *)
Definition M (T A : Type) : Type := connection_of T -> result A * connection_of T.

#[global] Instance M_ret {T} : MRet (M T) := λ A a c, (Ok a, c).
#[global] Instance M_bind {T} : MBind (M T) := λ A B f m c,
  match m c with
  | (Ok a, c') => f a c'
  | (Raise e, c') => (Raise e, c')
  end.

(** [raise e] *)
Definition raise {T A} (e : exn) : M T A := λ c, (Raise e, c).

(** The outcome of a call that does not touch the connection. *)
Definition lift {T A} (r : result A) : M T A := λ c, (r, c).

(** [self.conn.execute(...)]: the statement acts on what the connection
    sees. *)
Definition exec {T A} (stmt : T -> result A * T) : M T A := λ c,
  let '(r, t) := stmt (working c) in
  (r, {| committed := committed c; working := t |}).

Definition exec_ok {T A} (stmt : T -> A * T) : M T A :=
  exec (λ t, let '(a, t') := stmt t in (Ok a, t')).

(** [self.conn.commit()] *)
Definition commit {T} : M T () := λ c,
  (Ok (), {| committed := working c; working := working c |}).

(** The connection [_init_database] leaves on a new database file. *)
Definition connect : connection :=
  {| committed := Sql.empty; working := Sql.empty |}.

(** A row of the result of [search_enhanced] ([rank], a float, is left out). *)
Record search_row := {
  r_id : Z;
  r_document_id : Z;
  r_page_id : option Z;
  r_document_name : pystr;
  r_document_title : pystr;
  r_page_number : Z;
  r_chapter : pystr;
  r_section : pystr;
  r_article_number : pystr;
  r_title : pystr;
  r_content : pystr;
  r_article_type : article_type;
  r_position_in_page : Z;
  r_highlighted_content : pystr
}.

Section Engine.
Context {interp : Interpreter} {engine : Fts5}.

(** [for page in pages_content: ... page_ids[page.page_number] = cursor.lastrowid] *)
Fixpoint insert_pages (document_id : Z) (pages_content : list PageContent)
    (page_ids : gmap Z Z) : M tables (gmap Z Z) :=
  match pages_content with
  | [] => mret page_ids
  | page :: rest =>
      id ← exec (Sql.insert_page document_id (pc_page_number page)
                   (pc_content page));
      insert_pages document_id rest (<[pc_page_number page := id]> page_ids)
  end.

(** [for article in articles: page_id = page_ids.get(...); INSERT ...] *)
Fixpoint insert_articles (document_id : Z) (page_ids : gmap Z Z)
    (articles : list unit_dict) : M tables () :=
  match articles with
  | [] => mret ()
  | u :: rest =>
      _ ← exec_ok (λ t, ((), Sql.insert_article document_id
                               (page_ids !! u_page_number u) u t));
      insert_articles document_id page_ids rest
  end.

(** [max([p.page_number for p in pages_content]) if pages_content else 0] *)
Definition max_page (pages_content : list PageContent) : Z :=
  match map pc_page_number pages_content with
  | [] => 0
  | n :: ns => foldl Z.max n ns
  end.

Definition index_document_enhanced (fs : filesystem)
    (file_path document_name title : pystr) : M tables Z :=
  if negb (path_exists fs file_path) then raise FileNotFoundError
  else
    document_id ← exec_ok (Sql.insert_or_replace_document document_name
                             title file_path 0);
    _ ← exec (Sql.delete_articles document_id);
    _ ← exec (Sql.delete_pages document_id);
    parsed ← lift (parse_markdown_document_enhanced fs file_path document_name);
    let '(pages_content, articles) := parsed in
    page_ids ← insert_pages document_id pages_content ∅;
    _ ← insert_articles document_id page_ids articles;
    _ ← exec_ok (λ t, ((), Sql.update_pages_count (max_page pages_content)
                             document_id t));
    _ ← commit;
    mret (Z.of_nat (length articles)).

(** ['<mark class="highlight">'] and ['</mark>'] *)
Definition mark_before : pystr :=
  lit "<mark class=" ++ [0x22%N] ++ lit "highlight" ++ [0x22%N] ++ lit ">".
Definition mark_after : pystr := lit "</mark>".

Definition _highlight_matches (text query : pystr) : result pystr :=
  Re.highlight_words mark_before mark_after (Str.split query) text.

(** [LIMIT ?], for a limit that was bound: a negative limit is no limit. *)
Definition sql_limit {A} (limit : Z) (rows : list A) : list A :=
  if limit <? 0 then rows else take (Z.to_nat limit) rows.

(** The SELECT of [search_enhanced]: the limit is bound, then the
    statement runs: the matching rowids in rank order, each joined to the
    article with that id and to the document of the article. *)
Definition select_matches (t : tables) (query : pystr) (limit : Z)
    : result (list (article_row * document_row)) :=
  limit ← bind_int limit;
  rowids ← fts5_match (t_articles_fts t) query;
  mret (sql_limit limit
          (rowid ← rowids;
           a ← filter (λ a, a_id a = rowid) (t_articles t);
           d ← filter (λ d, d_id d = a_document_id a) (t_documents t);
           [(a, d)])).

Definition result_row (a : article_row) (d : document_row)
    (highlighted : pystr) : search_row :=
  {| r_id := a_id a; r_document_id := a_document_id a;
     r_page_id := a_page_id a; r_document_name := d_name d;
     r_document_title := d_title d; r_page_number := a_page_number a;
     r_chapter := a_chapter a; r_section := a_section a;
     r_article_number := a_article_number a; r_title := a_title a;
     r_content := a_content a; r_article_type := a_article_type a;
     r_position_in_page := a_position_in_page a;
     r_highlighted_content := highlighted |}.

(** [for row in cursor.fetchall(): ...] *)
Fixpoint highlight_rows (query : pystr)
    (rows : list (article_row * document_row)) : result (list search_row) :=
  match rows with
  | [] => Ok []
  | (a, d) :: rest =>
      h ← _highlight_matches (a_content a) query;
      results ← highlight_rows query rest;
      mret (result_row a d h :: results)
  end.

Definition search_enhanced (c : connection) (query : pystr) (limit : Z)
    : result (list search_row) :=
  rows ← select_matches (working c) query limit;
  highlight_rows query rows.

End Engine.

(* ===================================================================== *)
(** ** [LegalSearchEngine] of [legal_search.py] *)
(* ===================================================================== *)

Module Legacy.

(** [LegalArticle] *)
Record LegalArticle := {
  la_id : Z;
  la_document_name : pystr;
  la_page_number : Z;
  la_chapter : pystr;
  la_section : pystr;
  la_article_number : pystr;
  la_title : pystr;
  la_content : pystr;
  la_article_type : article_type
}.

(** The variables of [parse_markdown_document] that live across pages. *)
Record doc_state := {
  current_chapter : pystr;
  current_section : pystr;
  article_id : Z;
  articles : list LegalArticle
}.

(** The variables that are set afresh for each page. *)
Record page_state := {
  current_article_content : list pystr;
  current_article_number : pystr;
  current_article_title : pystr;
  in_article : bool
}.

Definition doc_init : doc_state :=
  {| current_chapter := []; current_section := []; article_id := 0;
     articles := [] |}.

Definition page_init : page_state :=
  {| current_article_content := []; current_article_number := [];
     current_article_title := []; in_article := false |}.

(** [article_id += 1; articles.append(LegalArticle(...))] *)
Definition emit (document_name : pystr) (page_num : Z)
    (number title content : pystr) (kind : article_type)
    (d : doc_state) : doc_state :=
  let id := article_id d + 1 in
  {| current_chapter := current_chapter d;
     current_section := current_section d;
     article_id := id;
     articles := articles d ++
       [{| la_id := id; la_document_name := document_name;
           la_page_number := page_num;
           la_chapter := current_chapter d;
           la_section := current_section d;
           la_article_number := number; la_title := title;
           la_content := content; la_article_type := kind |}] |}.

Definition close_article (document_name : pystr) (page_num : Z)
    (d : doc_state) (p : page_state) : doc_state :=
  match in_article p, current_article_content p with
  | true, _ :: _ =>
      emit document_name page_num (current_article_number p)
        (current_article_title p)
        (Str.join_lines (current_article_content p)) article d
  | _, _ => d
  end.

(** One iteration of [for line in lines]. *)
Definition scan_line (document_name : pystr) (page_num : Z)
    (raw : pystr) (st : doc_state * page_state) : doc_state * page_state :=
  let '(d, p) := st in
  let line := Str.strip raw in
  match line with
  | [] => st
  | _ :: _ =>
      if Str.startswith Segmenter.chapter_keyword line then
        ({| current_chapter := line; current_section := current_section d;
            article_id := article_id d; articles := articles d |}, p)
      else if Str.startswith Segmenter.section_keyword line then
        ({| current_chapter := current_chapter d; current_section := line;
            article_id := article_id d; articles := articles d |}, p)
      else
        match Segmenter.article_match line with
        | Some number =>
            (close_article document_name page_num d p,
             {| current_article_content := [];
                current_article_number := number;
                current_article_title := []; in_article := true |})
        | None =>
            if in_article p then
              (d, {| current_article_content :=
                       current_article_content p ++ [line];
                     current_article_number := current_article_number p;
                     current_article_title := current_article_title p;
                     in_article := in_article p |})
            else if 10 <? Str.len line
                 then (emit document_name page_num [] [] line general d, p)
                 else st
        end
  end.

Definition scan_page (document_name : pystr) (page_num : Z)
    (text : pystr) (d : doc_state) : doc_state :=
  let '(d2, p2) :=
    foldl (λ st raw, scan_line document_name page_num raw st)
      (d, page_init) (Str.split_lines (Str.strip text)) in
  close_article document_name page_num d2 p2.

(** A row of its [articles] table, which has no page id and no position. *)
Record article_row := {
  a_id : Z;
  a_document_id : Z;
  a_page_number : Z;
  a_chapter : pystr;
  a_section : pystr;
  a_article_number : pystr;
  a_title : pystr;
  a_content : pystr;
  a_article_type : article_type
}.

Record tables := {
  t_documents : list document_row;
  seq_documents : Z;
  t_articles : list article_row;
  seq_articles : Z;
  t_articles_fts : list fts_row
}.

Definition empty : tables :=
  {| t_documents := []; seq_documents := 0; t_articles := [];
     seq_articles := 0; t_articles_fts := [] |}.

(** A row of the result of [search] ([rank] is left out). *)
Record search_row := {
  r_id : Z;
  r_document_id : Z;
  r_document_name : pystr;
  r_document_title : pystr;
  r_page_number : Z;
  r_chapter : pystr;
  r_section : pystr;
  r_article_number : pystr;
  r_title : pystr;
  r_content : pystr;
  r_article_type : article_type;
  r_highlighted_content : pystr
}.

Definition document_name_of (t : tables) (document_id : Z) : sql_value :=
  match filter (λ d, d_id d = document_id) (t_documents t) with
  | d :: _ => SqlText (d_name d)
  | [] => SqlNull
  end.

(** [INSERT OR REPLACE INTO documents ...] *)
Definition insert_or_replace_document (name title file_path : pystr)
    (pages_count : Z) (t : tables) : Z * tables :=
  let id := seq_documents t + 1 in
  (id,
   {| t_documents :=
        filter (λ d, d_name d ≠ name) (t_documents t) ++
        [{| d_id := id; d_name := name; d_title := title;
            d_file_path := file_path; d_pages_count := pages_count |}];
      seq_documents := id;
      t_articles := t_articles t; seq_articles := seq_articles t;
      t_articles_fts := t_articles_fts t |}).

(** [INSERT INTO articles (document_id, page_number, chapter, section,
    article_number, title, content, article_type) VALUES (...)] with
    trigger [articles_ai]. *)
Definition insert_article (document_id : Z) (la : LegalArticle) (t : tables)
    : tables :=
  let id := seq_articles t + 1 in
  {| t_documents := t_documents t; seq_documents := seq_documents t;
     t_articles :=
       t_articles t ++
       [{| a_id := id; a_document_id := document_id;
           a_page_number := la_page_number la; a_chapter := la_chapter la;
           a_section := la_section la;
           a_article_number := la_article_number la; a_title := la_title la;
           a_content := la_content la;
           a_article_type := la_article_type la |}];
     seq_articles := id;
     t_articles_fts :=
       Sql.fts_insert
         [SqlInt id; document_name_of t document_id; SqlText (la_chapter la);
          SqlText (la_section la); SqlText (la_article_number la);
          SqlText (la_title la); SqlText (la_content la)]
         (t_articles_fts t) |}.

(** [UPDATE documents SET pages_count = ? WHERE id = ?] *)
Definition update_pages_count (pages_count document_id : Z) (t : tables)
    : tables :=
  {| t_documents :=
       map (λ d, if decide (d_id d = document_id)
                 then {| d_id := d_id d; d_name := d_name d;
                         d_title := d_title d; d_file_path := d_file_path d;
                         d_pages_count := pages_count |}
                 else d) (t_documents t);
     seq_documents := seq_documents t;
     t_articles := t_articles t; seq_articles := seq_articles t;
     t_articles_fts := t_articles_fts t |}.

Section Engine.
Context {interp : Interpreter} {engine : Fts5}.

(** The loop over [pages[1:]], two items at a time. *)
Fixpoint page_loop (document_name : pystr) (pages : list pystr)
    (d : doc_state) : result doc_state :=
  match pages with
  | [] => Ok d
  | num :: [] => _ ← int_str num; Raise IndexError
  | num :: text :: rest =>
      page_num ← int_str num;
      page_loop document_name rest (scan_page document_name page_num text d)
  end.

(** [parse_markdown_document] *)
Definition parse_markdown_document (fs : filesystem)
    (file_path document_name : pystr) : result (list LegalArticle) :=
  content ← read_text fs file_path;
  d ← page_loop document_name (tail (Segmenter.re_split_pages content)) doc_init;
  mret (articles d).

(** [DELETE FROM articles WHERE document_id = ?] with trigger
    [articles_ad]. *)
Definition delete_articles (document_id : Z) (t : tables)
    : result () * tables :=
  let old := filter (λ a, a_document_id a = document_id) (t_articles t) in
  match Sql.fts_delete_all (map a_id old) (t_articles_fts t) with
  | Ok fts =>
      (Ok (),
       {| t_documents := t_documents t; seq_documents := seq_documents t;
          t_articles :=
            filter (λ a, a_document_id a ≠ document_id) (t_articles t);
          seq_articles := seq_articles t;
          t_articles_fts := fts |})
  | Raise e => (Raise e, t)
  end.

(** [max([a.page_number for a in articles]) if articles else 0] *)
Definition max_page (articles : list LegalArticle) : Z :=
  match map la_page_number articles with
  | [] => 0
  | n :: ns => foldl Z.max n ns
  end.

(** [for article in articles: self.conn.execute(INSERT ...)]: the page
    number of the article is bound to the statement, which does not run
    when the number does not fit. *)
Fixpoint insert_articles (document_id : Z) (articles : list LegalArticle)
    : M tables () :=
  match articles with
  | [] => mret ()
  | la :: rest =>
      _ ← lift (bind_int (la_page_number la));
      _ ← exec_ok (λ t, ((), insert_article document_id la t));
      insert_articles document_id rest
  end.

Definition index_document (fs : filesystem)
    (file_path document_name title : pystr) : M tables Z :=
  if negb (path_exists fs file_path) then raise FileNotFoundError
  else
    document_id ← exec_ok (insert_or_replace_document document_name title
                             file_path 0);
    _ ← exec (delete_articles document_id);
    articles ← lift (parse_markdown_document fs file_path document_name);
    _ ← insert_articles document_id articles;
    _ ← exec_ok (λ t, ((), update_pages_count (max_page articles)
                             document_id t));
    _ ← commit;
    mret (Z.of_nat (length articles)).

(** Here the marker is a pair of asterisks on each side. *)
Definition _highlight_matches (text query : pystr) : result pystr :=
  Re.highlight_words (lit "**") (lit "**") (Str.split query) text.

Definition select_matches (t : tables) (query : pystr) (limit : Z)
    : result (list (article_row * document_row)) :=
  limit ← bind_int limit;
  rowids ← fts5_match (t_articles_fts t) query;
  mret (sql_limit limit
          (rowid ← rowids;
           a ← filter (λ a, a_id a = rowid) (t_articles t);
           d ← filter (λ d, d_id d = a_document_id a) (t_documents t);
           [(a, d)])).

Definition result_row (a : article_row) (d : document_row)
    (highlighted : pystr) : search_row :=
  {| r_id := a_id a; r_document_id := a_document_id a;
     r_document_name := d_name d; r_document_title := d_title d;
     r_page_number := a_page_number a; r_chapter := a_chapter a;
     r_section := a_section a; r_article_number := a_article_number a;
     r_title := a_title a; r_content := a_content a;
     r_article_type := a_article_type a;
     r_highlighted_content := highlighted |}.

Fixpoint highlight_rows (clean_query : pystr)
    (rows : list (article_row * document_row)) : result (list search_row) :=
  match rows with
  | [] => Ok []
  | (a, d) :: rest =>
      h ← _highlight_matches (a_content a) clean_query;
      results ← highlight_rows clean_query rest;
      mret (result_row a d h :: results)
  end.

(** [search]: a query that is empty once stripped gives the empty list
    before the index is consulted. *)
Definition search (c : connection_of tables) (query : pystr) (limit : Z)
    : result (list search_row) :=
  let clean_query := Str.strip query in
  match clean_query with
  | [] => Ok []
  | _ :: _ =>
      rows ← select_matches (working c) clean_query limit;
      highlight_rows clean_query rows
  end.

End Engine.

(** The connection [_init_database] leaves on a new database file. *)
Definition connect : connection_of tables :=
  {| committed := empty; working := empty |}.

End Legacy.

(* ===================================================================== *)
(** ** Lookups and statistics *)
(* ===================================================================== *)

#[global] Instance article_type_eq_dec : EqDecision article_type.
Proof. solve_decision. Defined.

#[global] Instance article_type_countable : Countable article_type.
Proof.
  refine (inj_countable' (λ k, match k with article => true | general => false end)
            (λ b : bool, if b then article else general) _).
  by intros [].
Defined.

(** The dictionary [get_page_content] makes of a row. *)
Record page_dict := {
  pd_id : Z;
  pd_page_number : Z;
  pd_content : pystr;
  pd_document_name : pystr;
  pd_document_title : pystr
}.

(** The rows of the SELECT of [get_page_content], for a page number that
    was bound: each page joined to its document, where the name and the
    page number are the ones asked for. *)
Definition select_page (t : tables) (document_name : pystr) (page_number : Z)
    : list page_dict :=
  p ← t_pages t;
  d ← filter (λ d, d_id d = p_document_id p) (t_documents t);
  if decide (d_name d = document_name ∧ p_page_number p = page_number)
  then [{| pd_id := p_id p; pd_page_number := p_page_number p;
           pd_content := p_content p; pd_document_name := d_name d;
           pd_document_title := d_title d |}]
  else [].

(** [get_page_content]: the page number is bound, then
    [row = cursor.fetchone(); return dict(row) if row else None]. *)
Definition get_page_content (c : connection) (document_name : pystr)
    (page_number : Z) : result (option page_dict) :=
  page_number ← bind_int page_number;
  mret (head (select_page (working c) document_name page_number)).


(** [SELECT article_type, COUNT( * ) FROM articles GROUP BY article_type]
    as [dict(cursor.fetchall())]: one key for each type that some row has,
    with the number of the rows that have it. *)
Definition group_count (kinds : list article_type) : gmap article_type Z :=
  list_to_map
    (map (λ k, (k, Z.of_nat (length (filter (λ k', k' = k) kinds))))
       (remove_dups kinds)).

(** The dictionary [get_statistics] returns. *)
Record statistics := {
  documents_count : Z;
  pages_count : Z;
  articles_count : Z;
  articles_by_type : gmap article_type Z
}.

Definition get_statistics (c : connection) : statistics :=
  let t := working c in
  {| documents_count := Z.of_nat (length (t_documents t));
     pages_count := Z.of_nat (length (t_pages t));
     articles_count := Z.of_nat (length (t_articles t));
     articles_by_type := group_count (map a_article_type (t_articles t)) |}.

(** A row of the result of [get_sample_articles]. *)
Record sample_row := {
  s_id : Z;
  s_article_number : pystr;
  s_title : pystr;
  s_content : pystr;
  s_article_type : article_type;
  s_page_number : Z;
  s_document_name : pystr
}.

Definition sample_row_of (row : article_row * document_row) : sample_row :=
  {| s_id := a_id row.1; s_article_number := a_article_number row.1;
     s_title := a_title row.1; s_content := a_content row.1;
     s_article_type := a_article_type row.1;
     s_page_number := a_page_number row.1;
     s_document_name := d_name row.2 |}.

(** [FROM articles a JOIN documents d ON a.document_id = d.id] *)
Definition articles_with_document (t : tables)
    : list (article_row * document_row) :=
  a ← t_articles t;
  d ← filter (λ d, d_id d = a_document_id a) (t_documents t);
  [(a, d)].

(** [ORDER BY a.id DESC]: the row with the larger id comes first. *)
Definition id_desc (x y : article_row * document_row) : Prop :=
  a_id y.1 ≤ a_id x.1.

#[global] Instance id_desc_dec x y : Decision (id_desc x y).
Proof. unfold id_desc. apply _. Defined.

(** [get_sample_articles]: the limit is bound, then the join,
    [ORDER BY a.id DESC LIMIT ?]. *)
Definition get_sample_articles (c : connection) (limit : Z)
    : result (list sample_row) :=
  limit ← bind_int limit;
  mret (map sample_row_of
          (sql_limit limit
             (merge_sort id_desc
                (articles_with_document (working c))))).

(** [get_statistics] of [LegalSearchEngine], which has no pages. *)
Module LegacyLookup.

Record statistics := {
  documents_count : Z;
  articles_count : Z;
  articles_by_type : gmap article_type Z
}.

Definition get_statistics (c : connection_of Legacy.tables) : statistics :=
  let t := working c in
  {| documents_count := Z.of_nat (length (Legacy.t_documents t));
     articles_count := Z.of_nat (length (Legacy.t_articles t));
     articles_by_type :=
       group_count (map Legacy.a_article_type (Legacy.t_articles t)) |}.

End LegacyLookup.

(** The route [/article/{article_id}] of [enhanced_web_app.py]. *)
Module Web.

(** What a route hands back: a body, or [raise HTTPException(status_code)]. *)
Inductive response (A : Type) :=
| Respond (body : A)
| HTTPException (status_code : Z).
Arguments Respond {A} body.
Arguments HTTPException {A} status_code.

Record article_dict := {
  j_id : Z;
  j_document_name : pystr;
  j_document_title : pystr;
  j_page_number : Z;
  j_chapter : pystr;
  j_section : pystr;
  j_article_number : pystr;
  j_title : pystr;
  j_content : pystr;
  j_article_type : article_type
}.

Definition article_dict_of (row : article_row * document_row) : article_dict :=
  {| j_id := a_id row.1; j_document_name := d_name row.2;
     j_document_title := d_title row.2; j_page_number := a_page_number row.1;
     j_chapter := a_chapter row.1; j_section := a_section row.1;
     j_article_number := a_article_number row.1; j_title := a_title row.1;
     j_content := a_content row.1; j_article_type := a_article_type row.1 |}.

(** [get_article], for an id that was bound, as the ids of the rows are. *)
Definition get_article (c : connection) (article_id : Z)
    : response article_dict :=
  match head (filter (λ row, a_id row.1 = article_id)
                (articles_with_document (working c))) with
  | Some row => Respond (article_dict_of row)
  | None => HTTPException 404
  end.

End Web.

(* ===================================================================== *)
(** ** A full-text engine for closed examples *)
(* ===================================================================== *)

(** An engine that stands for the storage engine where an example needs
    one; the theorems hold for every engine. Like the storage engine it
    rejects a query in which a double quote opens a string that is never
    closed, and it finds a row for a query made of one word of its text.
    It matches a row when the query occurs in one of its text columns, lists
    the rows in rowid order and deletes by the first column. *)
Module Substring.

Fixpoint occurs (q s : pystr) : bool :=
  Str.startswith q s ||
  match s with
  | [] => false
  | _ :: s' => occurs q s'
  end.

Definition value_matches (q : pystr) (v : sql_value) : bool :=
  match v with
  | SqlText s => occurs q s
  | _ => false
  end.

Definition double_quote : codepoint := 0x22%N.

(** A string is left open: the double quotes are odd in number. *)
Definition unterminated (q : pystr) : bool :=
  Nat.odd (length (List.filter (λ c, (c =? double_quote)%N) q)).

Definition matches (rows : list fts_row) (q : pystr) : result (list Z) :=
  if unterminated q then Raise OperationalError
  else
    Ok (map fts_rowid
          (List.filter (λ r, existsb (value_matches q) (fts_values r)) rows)).

Definition delete (rows : list fts_row) (id : Z) : result (list fts_row) :=
  Ok (List.filter (λ r, match fts_values r with
                        | SqlInt n :: _ => negb (n =? id)
                        | _ => true
                        end) rows).

#[export] Instance engine : Fts5 := {|
  fts5_match := matches;
  fts5_delete := delete
|}.

End Substring.

(* ===================================================================== *)
(** * The vocabulary of the properties *)
(* ===================================================================== *)

Module SegmenterSpec.
Import Segmenter.

(** Page text of scenario A: a chapter heading, a section heading, the
    marker of article 1 and one body line. *)
Definition chapter_one : pystr :=
  [0x627; 0x644; 0x628; 0x627; 0x628; 0x20; 0x627; 0x644; 0x623; 0x648; 0x644]%N.
Definition section_one : pystr :=
  [0x627; 0x644; 0x641; 0x635; 0x644; 0x20; 0x627; 0x644; 0x623; 0x648; 0x644]%N.
Definition article_one_marker : pystr :=
  [0x627; 0x644; 0x645; 0x627; 0x62F; 0x629; 0x20; 0x28; 0x31; 0x29]%N.
Definition article_one_body : pystr :=
  [0x646; 0x635; 0x20; 0x627; 0x644; 0x645; 0x627; 0x62F; 0x629; 0x20;
   0x627; 0x644; 0x623; 0x648; 0x644]%N.
Definition scenario_a_text : pystr :=
  chapter_one ++ [Str.newline] ++ section_one ++ [Str.newline] ++
  article_one_marker ++ [Str.newline] ++ article_one_body.

(** The units a step appended: what [articles] gained. *)
Definition emitted (before after : doc_state) (us : list unit_dict) : Prop :=
  articles after = articles before ++ us.

(** The text of the last line of [lines] that, once stripped, begins with
    [keyword]; [init] when there is none. *)
Definition last_marker_from (init keyword : pystr) (lines : list pystr) : pystr :=
  default init (last (List.filter (Str.startswith keyword) (map Str.strip lines))).

Definition last_marker (keyword : pystr) (lines : list pystr) : pystr :=
  last_marker_from [] keyword lines.

(** The texts of the pages among [page_sections[1:]]. *)
Fixpoint page_texts (sections : list pystr) : list pystr :=
  match sections with
  | _ :: text :: rest => text :: page_texts rest
  | _ => []
  end.

(** The lines the inner loop goes through for one page text. *)
Definition page_lines (text : pystr) : list pystr :=
  Str.split_lines (Str.strip text).

(** All the lines scanned for the pages of [sections], in order. *)
Definition lines_of (sections : list pystr) : list pystr :=
  concat (map page_lines (page_texts sections)).

End SegmenterSpec.

Module DbSpec.

(** What holds of the tables of a connection that was opened on a new
    database and has only run [index_document_enhanced]: ids were given
    by the counters, no id is used twice, and the full-text table of the
    articles has given out as many rowids as the article counter. *)
Record consistent (t : tables) : Prop := {
  cons_doc_ids : Forall (λ d, d_id d ≤ seq_documents t) (t_documents t);
  cons_doc_nodup : NoDup (map d_id (t_documents t));
  cons_art_ids :
    Forall (λ a, a_id a ≤ seq_articles t ∧ a_document_id a ≤ seq_documents t)
      (t_articles t);
  cons_art_nodup : NoDup (map a_id (t_articles t));
  cons_page_docs : Forall (λ p, p_document_id p ≤ seq_documents t) (t_pages t);
  cons_fts : Sql.next_rowid (t_articles_fts t) = seq_articles t + 1
}.

(** The article row and the full-text row that [INSERT INTO articles]
    makes of a unit when the counter stands at [seq]. *)
Definition article_row_of (document_id : Z) (page_ids : gmap Z Z) (seq : Z)
    (u : unit_dict) : article_row :=
  {| a_id := seq + 1; a_document_id := document_id;
     a_page_id := page_ids !! u_page_number u;
     a_page_number := u_page_number u; a_chapter := u_chapter u;
     a_section := u_section u; a_article_number := u_article_number u;
     a_title := u_title u; a_content := u_content u;
     a_article_type := u_article_type u;
     a_position_in_page := u_position_in_page u |}.

Definition article_fts_of (name : sql_value) (rowid id : Z) (u : unit_dict)
    : fts_row :=
  {| fts_rowid := rowid;
     fts_values := [SqlInt id; name; SqlInt (u_page_number u);
                    SqlText (u_chapter u); SqlText (u_section u);
                    SqlText (u_article_number u); SqlText (u_title u);
                    SqlText (u_content u)] |}.

Fixpoint article_rows (document_id : Z) (page_ids : gmap Z Z) (seq : Z)
    (units : list unit_dict) : list article_row :=
  match units with
  | [] => []
  | u :: rest =>
      article_row_of document_id page_ids seq u
        :: article_rows document_id page_ids (seq + 1) rest
  end.

(** The full-text rows of the units when the article counter stands at
    [seq] and the next rowid of the full-text table is [next]. *)
Fixpoint article_fts_rows (name : sql_value) (seq next : Z)
    (units : list unit_dict) : list fts_row :=
  match units with
  | [] => []
  | u :: rest =>
      article_fts_of name next (seq + 1) u
        :: article_fts_rows name (seq + 1) (next + 1) rest
  end.

(** The loop of [insert_articles] on the tables. *)
Definition insert_articles_t (document_id : Z) (page_ids : gmap Z Z)
    (units : list unit_dict) (t : tables) : tables :=
  foldl (λ t u, Sql.insert_article document_id (page_ids !! u_page_number u) u t)
    t units.

(** The loop of [insert_pages] on the tables. *)
Fixpoint insert_pages_t (document_id : Z) (pages_content : list PageContent)
    (page_ids : gmap Z Z) (t : tables) : result (gmap Z Z) * tables :=
  match pages_content with
  | [] => (Ok page_ids, t)
  | page :: rest =>
      match Sql.insert_page document_id (pc_page_number page)
              (pc_content page) t with
      | (Ok id, t') =>
          insert_pages_t document_id rest
            (<[pc_page_number page := id]> page_ids) t'
      | (Raise e, t') => (Raise e, t')
      end
  end.

(** A row of [pages] already holds this (document, page number). *)
Definition page_taken (t : tables) (id n : Z) : Prop :=
  Exists (λ p, p_document_id p = id ∧ p_page_number p = n) (t_pages t).

(** The rows can all be inserted: no page number twice, none taken. *)
Definition insertable (t : tables) (id : Z) (pages : list PageContent) : Prop :=
  NoDup (map pc_page_number pages)
  ∧ Forall (λ page, ¬ page_taken t id (pc_page_number page)) pages.

(** The page numbers can all be bound. *)
Definition bindable (pages : list PageContent) : Prop :=
  Forall (λ page, fits_int64 (pc_page_number page) = true) pages.

(** What the INSERT of the last of [pages] raises when those before it
    were inserted and it is not: [OverflowError] when its number cannot be
    bound, [IntegrityError] when its number is taken. *)
Definition page_error (pages : list PageContent) : exn :=
  if forallb (λ page, fits_int64 (pc_page_number page)) pages
  then IntegrityError else OverflowError.

Definition page_row_of (id seq : Z) (page : PageContent) : page_row :=
  {| p_id := seq + 1; p_document_id := id;
     p_page_number := pc_page_number page; p_content := pc_content page |}.

Fixpoint page_rows (id seq : Z) (pages : list PageContent) : list page_row :=
  match pages with
  | [] => []
  | page :: rest => page_row_of id seq page :: page_rows id (seq + 1) rest
  end.

(** What [index_document_enhanced] comes to on consistent tables, where
    the two DELETE statements find no row: it stops at the first
    exception and leaves what the statements before it did. *)
Definition index_outcome {interp : Interpreter} (fs : filesystem)
    (file_path document_name title : pystr) (c : connection)
    : result Z * connection :=
  if negb (path_exists fs file_path) then (Raise FileNotFoundError, c)
  else
    let id := seq_documents (working c) + 1 in
    let t1 := snd (Sql.insert_or_replace_document document_name title
                     file_path 0 (working c)) in
    match parse_markdown_document_enhanced fs file_path document_name with
    | Raise e => (Raise e, {| committed := committed c; working := t1 |})
    | Ok (pages_content, articles) =>
        match insert_pages_t id pages_content ∅ t1 with
        | (Raise e, t2) =>
            (Raise e, {| committed := committed c; working := t2 |})
        | (Ok page_ids, t2) =>
            let t4 := Sql.update_pages_count (max_page pages_content) id
                        (insert_articles_t id page_ids articles t2) in
            (Ok (Z.of_nat (length articles)),
             {| committed := t4; working := t4 |})
        end
    end.

(** The join before LIMIT. *)
Definition joined (t : tables) (rowids : list Z)
    : list (article_row * document_row) :=
  rowid ← rowids;
  a ← filter (λ a, a_id a = rowid) (t_articles t);
  d ← filter (λ d, d_id d = a_document_id a) (t_documents t);
  [(a, d)].

(** Files and connections of the closed examples below. *)
Module Example.

Definition first_text : pystr :=
  lit "## Page 1" ++ [Str.newline] ++ lit "hello world, this is long".
Definition second_text : pystr :=
  lit "## Page 7" ++ [Str.newline] ++ lit "another text entirely here".

Definition fs : filesystem :=
  {[ lit "a.md" := Text first_text;
     lit "b.md" := Text second_text;
     lit "bad.md" := Undecodable ]}.

Definition index (path name : pystr) (c : connection) : result Z * connection :=
  index_document_enhanced (interp := Basic.interpreter)
    (engine := Substring.engine) fs path name [] c.

Definition search (c : connection) (query : pystr) : result (list search_row) :=
  search_enhanced (interp := Basic.interpreter) (engine := Substring.engine)
    c query 10.

(** "law" indexed from [a.md]. *)
Definition c1 : connection := snd (index (lit "a.md") (lit "law") connect).
(** Then "law" indexed again, from [b.md]. *)
Definition c2 : connection := snd (index (lit "b.md") (lit "law") c1).
(** Or else "law" indexed again from a file that is not UTF-8 ... *)
Definition c2_failed : connection := snd (index (lit "bad.md") (lit "law") c1).
(** ... and then another document indexed with success. *)
Definition c3 : connection := snd (index (lit "b.md") (lit "other") c2_failed).
End Example.


End DbSpec.

Module QuerySpec.
Import DbSpec.




End QuerySpec.

(** The parts and the page numbers of a text. *)

Module SplitSpec.
Import Segmenter.

(** What [re.split] was given, from what it returned: the first piece, then
    for each page the marker, its digits and the text after it. *)
Fixpoint rebuild_pages (sections : list pystr) : pystr :=
  match sections with
  | num :: text :: rest => page_keyword ++ num ++ text ++ rebuild_pages rest
  | _ => []
  end.

Definition rebuild (parts : list pystr) : pystr :=
  match parts with
  | [] => []
  | first :: sections => first ++ rebuild_pages sections
  end.

(** The page numbers, as text, among [page_sections[1:]]. *)
Fixpoint page_numbers (sections : list pystr) : list pystr :=
  match sections with
  | num :: _ :: rest => num :: page_numbers rest
  | _ => []
  end.

(** Some line of the text begins with a page marker: scanning from a
    position where [bol] tells whether a line begins there. *)
Fixpoint has_marker_from {interp : Interpreter} (bol : bool) (s : pystr) : bool :=
  match s with
  | [] => false
  | c :: s' =>
      (bol && match page_marker_at s with Some _ => true | None => false end)
      || has_marker_from (Str.is_newline c) s'
  end.

Definition has_page_marker {interp : Interpreter} (content : pystr) : bool :=
  has_marker_from true content.

End SplitSpec.

Module UnitSpec.
Import Segmenter.

(** A line that the loop takes as text: it is not blank, holds no newline
    and is neither a chapter heading, a section heading nor an article
    marker. *)
Definition text_line (l : pystr) : Prop :=
  l ≠ [] ∧ (Str.newline ∉ l)
  ∧ Str.startswith chapter_keyword l = false
  ∧ Str.startswith section_keyword l = false
  ∧ article_match l = None.

(** What every unit of [document_name] looks like. *)
Definition unit_shape (document_name : pystr) (u : unit_dict) : Prop :=
  u_document_name u = document_name
  ∧ u_title u = []
  ∧ u_content u ≠ []
  ∧ match u_article_type u with
    | general =>
        u_article_number u = [] ∧ 10 < Str.len (u_content u)
        ∧ text_line (u_content u)
    | article =>
        u_article_number u ≠ [] ∧ (close_paren ∉ u_article_number u)
        ∧ Forall text_line (Str.split_lines (u_content u))
    end.

Definition is_general (u : unit_dict) : Prop := u_article_type u = general.
Definition is_article (u : unit_dict) : Prop := u_article_type u = article.

(** The page numbers of [page_sections[1:]] as [int] reads them. *)
Definition numbers_read {interp : Interpreter} (sections : list pystr)
    (ns : list Z) : Prop :=
  Forall2 (λ num n, int_str num = Ok n) (SplitSpec.page_numbers sections) ns.

(** The line a unit starts at: [position_in_page] is the index of the line
    whose stripped text is the content of a general unit, or the marker
    that carries the number of an article. *)
Definition starts_at (lines : list pystr) (u : unit_dict) : Prop :=
  ∃ raw, lines !! Z.to_nat (u_position_in_page u) = Some raw
    ∧ match u_article_type u with
      | general => Str.strip raw = u_content u
      | article => article_match (Str.strip raw) = Some (u_article_number u)
      end.

(** The units of the page [n] whose lines are [lines]: [gs], all general,
    followed by [arts], all articles, in the order of the lines they start
    at. *)
Record page_units (name : pystr) (n : Z) (lines : list pystr)
    (gs arts : list unit_dict) : Prop := {
  pu_general :
    Forall (λ u, unit_shape name u ∧ u_page_number u = n ∧ is_general u) gs;
  pu_article :
    Forall (λ u, unit_shape name u ∧ u_page_number u = n ∧ is_article u) arts;
  pu_sorted : StronglySorted Z.lt (map u_position_in_page (gs ++ arts));
  pu_starts :
    Forall (λ u, 0 ≤ u_position_in_page u ∧ starts_at lines u) (gs ++ arts)
}.

(** What holds when the lines [seen] of page [n] have been scanned from
    [d1], [idx] being their number. *)
Record page_inv (name : pystr) (n : Z) (d1 : doc_state) (seen : list pystr)
    (idx : Z) (d : doc_state) (p : page_state) (gs arts : list unit_dict)
    : Prop := {
  pi_idx : idx = Z.of_nat (length seen);
  pi_articles : articles d = articles d1 ++ gs ++ arts;
  pi_counter : article_id d = article_id d1 + Z.of_nat (length (gs ++ arts));
  pi_ids :
    map u_id (gs ++ arts)
    = seqZ (article_id d1 + 1) (Z.of_nat (length (gs ++ arts)));
  pi_pages : pages_content d = pages_content d1;
  pi_units : page_units name n seen gs arts;
  pi_closed : in_article p = false → arts = [] ∧ current_article_content p = [];
  pi_bound :
    Forall (λ u, u_position_in_page u
                 < (if in_article p then position_in_page p else idx))
      (gs ++ arts);
  pi_open :
    in_article p = true →
    0 ≤ position_in_page p < idx ∧ current_article_number p ≠ []
    ∧ (close_paren ∉ current_article_number p)
    ∧ ∃ raw, seen !! Z.to_nat (position_in_page p) = Some raw
        ∧ article_match (Str.strip raw) = Some (current_article_number p);
  pi_body : Forall text_line (current_article_content p);
  pi_title : current_article_title p = []
}.

(** The page a marker with number [n] and text [text] gives. *)
Definition page_of (name : pystr) (n : Z) (text : pystr) : PageContent :=
  {| pc_page_number := n; pc_content := Str.strip text;
     pc_document_name := name |}.

(** The units cut from one page, with all that is known of them. *)
Definition page_cut (name : pystr) (pc : PageContent)
    (us : list unit_dict) : Prop :=
  ∃ gs arts, us = gs ++ arts
    ∧ page_units name (pc_page_number pc) (Str.split_lines (pc_content pc))
        gs arts.

(** The units of the page [pc]: they carry its number, the general ones
    come first, and they follow the order of the lines they start at. *)
Definition page_group (pc : PageContent) (us : list unit_dict) : Prop :=
  ∃ gs arts, us = gs ++ arts
    ∧ Forall is_general gs ∧ Forall is_article arts
    ∧ Forall (λ u, u_page_number u = pc_page_number pc) us
    ∧ StronglySorted Z.lt (map u_position_in_page us)
    ∧ Forall (λ u, 0 ≤ u_position_in_page u
                   ∧ starts_at (Str.split_lines (pc_content pc)) u) us.

(** A text of two pages: a line of text, an article and its body on the
    first, a line of text on the second. *)
Definition sample : pystr :=
  lit "## Page 1" ++ [Str.newline] ++ lit "hello world, this is long"
  ++ [Str.newline] ++ SegmenterSpec.article_one_marker
  ++ [Str.newline] ++ SegmenterSpec.article_one_body
  ++ [Str.newline] ++ lit "## Page 7" ++ [Str.newline]
  ++ lit "another text entirely here".

(** What the parser makes of it under the name [law]. *)
Definition sample_parsed : list PageContent * list unit_dict :=
  match parse_content (interp := Basic.interpreter) sample (lit "law") with
  | Ok r => r
  | Raise _ => ([], [])
  end.

(** What [LegalArticle] keeps of a unit. *)
Definition to_legacy (u : unit_dict) : Legacy.LegalArticle :=
  {| Legacy.la_id := u_id u;
     Legacy.la_document_name := u_document_name u;
     Legacy.la_page_number := u_page_number u;
     Legacy.la_chapter := u_chapter u;
     Legacy.la_section := u_section u;
     Legacy.la_article_number := u_article_number u;
     Legacy.la_title := u_title u;
     Legacy.la_content := u_content u;
     Legacy.la_article_type := u_article_type u |}.

(** The states of the two segmenters at the same point of a text. *)
Definition same_doc (d : doc_state) (ld : Legacy.doc_state) : Prop :=
  Legacy.current_chapter ld = current_chapter d
  ∧ Legacy.current_section ld = current_section d
  ∧ Legacy.article_id ld = article_id d
  ∧ Legacy.articles ld = map to_legacy (articles d).

Definition same_page (p : page_state) (lp : Legacy.page_state) : Prop :=
  Legacy.current_article_content lp = current_article_content p
  ∧ Legacy.current_article_number lp = current_article_number p
  ∧ Legacy.current_article_title lp = current_article_title p
  ∧ Legacy.in_article lp = in_article p.

End UnitSpec.

Module StoreSpec.
Import DbSpec.


(** The values the trigger [articles_ai] hands to the full-text table for
    an article, [name] being what the subquery on [documents] gave. *)
Definition article_values (name : sql_value) (a : article_row)
    : list sql_value :=
  [SqlInt (a_id a); name; SqlInt (a_page_number a); SqlText (a_chapter a);
   SqlText (a_section a); SqlText (a_article_number a);
   SqlText (a_title a); SqlText (a_content a)].

(** The full-text row [f] is that of the article [a]. *)
Definition indexed_as (f : fts_row) (a : article_row) : Prop :=
  fts_rowid f = a_id a ∧ ∃ name, fts_values f = article_values name a.

(** [p] is the page the article [a] refers to, and it is the page of its
    document that has its page number. *)
Definition page_of_article (t : tables) (a : article_row) (p : page_row)
    : Prop :=
  p ∈ t_pages t ∧ a_page_id a = Some (p_id p)
  ∧ p_document_id p = a_document_id a ∧ p_page_number p = a_page_number a.

Definition page_key (p : page_row) : Z * Z := (p_document_id p, p_page_number p).

(** What the statements of [index_document_enhanced] keep true of the
    tables. *)
Record store_inv (t : tables) : Prop := {
  si_consistent : consistent t;
  si_fts : Forall2 indexed_as (t_articles_fts t) (t_articles t);
  si_links : Forall (λ a, ∃ p, page_of_article t a p) (t_articles t);
  si_page_ids : Forall (λ p, p_id p ≤ seq_pages t) (t_pages t);
  si_page_nodup : NoDup (map p_id (t_pages t));
  si_names : NoDup (map d_name (t_documents t));
  si_page_keys : NoDup (map page_key (t_pages t))
}.

(** The connections the engine can be in: that of a new database, and
    what a call of [index_document_enhanced] leaves, whether it returned
    or raised. *)
Inductive reachable {interp : Interpreter} {engine : Fts5}
    : connection → Prop :=
| reachable_connect : reachable connect
| reachable_index fs file_path document_name title c :
    reachable c →
    reachable (index_document_enhanced fs file_path document_name title c).2.

(** The row of [documents] a call that returns leaves for its document. *)
Definition document_row_of (id : Z) (name title file_path : pystr)
    (pages : list PageContent) : document_row :=
  {| d_id := id; d_name := name; d_title := title; d_file_path := file_path;
     d_pages_count := max_page pages |}.

(** What [get_page_content] returns for a page of a document. *)
Definition page_dict_of (pid : Z) (name title : pystr) (page : PageContent)
    : page_dict :=
  {| pd_id := pid; pd_page_number := pc_page_number page;
     pd_content := pc_content page; pd_document_name := name;
     pd_document_title := title |}.

(** What the route of an article answers for a unit stored under [id]. *)
Definition article_dict_of_unit (id : Z) (name title : pystr) (u : unit_dict)
    : Web.article_dict :=
  {| Web.j_id := id; Web.j_document_name := name;
     Web.j_document_title := title;
     Web.j_page_number := u_page_number u; Web.j_chapter := u_chapter u;
     Web.j_section := u_section u;
     Web.j_article_number := u_article_number u;
     Web.j_title := u_title u; Web.j_content := u_content u;
     Web.j_article_type := u_article_type u |}.

(** What the parser makes of the second file of the examples. *)
Definition second_parsed : list PageContent * list unit_dict :=
  match parse_markdown_document_enhanced (interp := Basic.interpreter)
          Example.fs (lit "b.md") (lit "law") with
  | Ok r => r
  | Raise _ => ([], [])
  end.

(** Its one unit. *)
Definition second_unit : unit_dict :=
  {| u_id := 1; u_document_name := lit "law"; u_page_number := 7;
     u_chapter := []; u_section := []; u_article_number := [];
     u_title := []; u_content := lit "another text entirely here";
     u_article_type := general; u_position_in_page := 0 |}.

(** The one unit of the first file, as the table of the articles holds it
    once the file is indexed under the name [law], and the row of
    [documents] it is joined to. *)
Definition first_article : article_row :=
  {| a_id := 1; a_document_id := 1; a_page_id := Some 1; a_page_number := 1;
     a_chapter := []; a_section := []; a_article_number := [];
     a_title := []; a_content := lit "hello world, this is long";
     a_article_type := general; a_position_in_page := 0 |}.

Definition first_document : document_row :=
  {| d_id := 1; d_name := lit "law"; d_title := [];
     d_file_path := lit "a.md"; d_pages_count := 1 |}.

(** The connection after the first file is indexed as [law] and the
    second one as [other]. *)
Definition c_two : connection :=
  (Example.index (lit "b.md") (lit "other") Example.c1).2.

(** The word matches somewhere in the text, as the pattern that
    [_highlight_matches] compiles of it does. *)
Fixpoint occurs {interp : Interpreter} (word text : pystr) : bool :=
  Re.literal_at word text
  || match text with
     | [] => false
     | _ :: text' => occurs word text'
     end.

(** What the table of the articles of [LegalSearchEngine] keeps of a row
    of the other engine. *)
Definition to_legacy_row (a : article_row) : Legacy.article_row :=
  {| Legacy.a_id := a_id a; Legacy.a_document_id := a_document_id a;
     Legacy.a_page_number := a_page_number a;
     Legacy.a_chapter := a_chapter a; Legacy.a_section := a_section a;
     Legacy.a_article_number := a_article_number a;
     Legacy.a_title := a_title a; Legacy.a_content := a_content a;
     Legacy.a_article_type := a_article_type a |}.

(** Its full-text table has the columns of the other one but for the
    page number, which is the third. *)
Definition to_legacy_fts (f : fts_row) : fts_row :=
  {| fts_rowid := fts_rowid f;
     fts_values := match fts_values f with
                   | id :: name :: _ :: rest => id :: name :: rest
                   | values => values
                   end |}.

(** Two rows of [documents] that differ in [pages_count] at most. *)
Definition same_document (ld d : document_row) : Prop :=
  d_id ld = d_id d ∧ d_name ld = d_name d ∧ d_title ld = d_title d
  ∧ d_file_path ld = d_file_path d.

(** The two engines hold the same documents and the same articles. *)
Record same_store (t : tables) (lt : Legacy.tables) : Prop := {
  ss_documents : Forall2 same_document (Legacy.t_documents lt) (t_documents t);
  ss_seq_documents : Legacy.seq_documents lt = seq_documents t;
  ss_articles : Legacy.t_articles lt = map to_legacy_row (t_articles t);
  ss_seq_articles : Legacy.seq_articles lt = seq_articles t;
  ss_fts : Legacy.t_articles_fts lt = map to_legacy_fts (t_articles_fts t)
}.

(** The example calls on [LegalSearchEngine]. *)
Definition legacy_index (path name : pystr) (lc : connection_of Legacy.tables)
    : result Z * connection_of Legacy.tables :=
  Legacy.index_document (interp := Basic.interpreter)
    (engine := Substring.engine) Example.fs path name [] lc.

Definition legacy_c1 : connection_of Legacy.tables :=
  (legacy_index (lit "a.md") (lit "law") Legacy.connect).2.

Definition legacy_c2 : connection_of Legacy.tables :=
  (legacy_index (lit "b.md") (lit "law") legacy_c1).2.

End StoreSpec.

(* ===================================================================== *)
(** * Properties *)
(* ===================================================================== *)

(** ** The segmenter *)

Module SegmenterFacts.
Import Segmenter SegmenterSpec.

Lemma scan_lines_app name pn idx l1 l2 st :
  scan_lines name pn idx (l1 ++ l2) st =
  scan_lines name pn (idx + Z.of_nat (length l1)) l2 (scan_lines name pn idx l1 st).
Proof.
  revert idx st. induction l1 as [|raw l1 IH]; intros idx st; simpl.
  - by rewrite Z.add_0_r.
  - rewrite IH. f_equal. lia.
Qed.

Lemma scan_lines_snoc name pn l raw st :
  scan_lines name pn 0 (l ++ [raw]) st =
  scan_line name pn (Z.of_nat (length l)) raw (scan_lines name pn 0 l st).
Proof. by rewrite scan_lines_app. Qed.

Lemma last_marker_from_app init kw l1 l2 :
  last_marker_from init kw (l1 ++ l2) =
  last_marker_from (last_marker_from init kw l1) kw l2.
Proof.
  unfold last_marker_from. rewrite map_app, List.filter_app, last_app.
  by destruct (last (List.filter _ (map Str.strip l2))).
Qed.

Lemma chapter_not_section line :
  Str.startswith chapter_keyword line = true →
  Str.startswith section_keyword line = false.
Proof.
  unfold chapter_keyword, section_keyword.
  destruct line as [|c1 [|c2 [|c3 line]]]; cbn [Str.startswith];
    rewrite ?andb_false_r; try done.
  intros Hc. apply andb_true_iff in Hc as [_ Hc].
  apply andb_true_iff in Hc as [_ Hc]. apply andb_true_iff in Hc as [E3 _].
  apply N.eqb_eq in E3. subst c3.
  replace (0x641 =? 0x628)%N with false by done.
  by rewrite andb_false_l, !andb_false_r.
Qed.

(** [last_marker] line by line: a line with the keyword becomes the
    marker, any other line leaves it. *)
Lemma last_marker_snoc kw lines raw :
  last_marker kw (lines ++ [raw]) =
  if Str.startswith kw (Str.strip raw) then Str.strip raw
  else last_marker kw lines.
Proof.
  unfold last_marker. rewrite last_marker_from_app.
  unfold last_marker_from at 1. cbn [map List.filter].
  by destruct (Str.startswith kw (Str.strip raw)).
Qed.

Lemma last_marker_nil kw : last_marker kw [] = [].
Proof. done. Qed.

Lemma last_marker_from_one init kw raw :
  last_marker_from init kw [raw] =
  if Str.startswith kw (Str.strip raw) then Str.strip raw else init.
Proof.
  unfold last_marker_from. cbn [map List.filter].
  by destruct (Str.startswith kw (Str.strip raw)).
Qed.

(** What one line does to the carried headings. *)
Lemma scan_line_carried name pn idx raw d p :
  let d' := fst (scan_line name pn idx raw (d, p)) in
  current_chapter d' = last_marker_from (current_chapter d) chapter_keyword [raw]
  ∧ current_section d' = last_marker_from (current_section d) section_keyword [raw].
Proof.
  cbv zeta. rewrite !last_marker_from_one. unfold scan_line.
  destruct (Str.strip raw) as [|c line] eqn:Hs; [done|].
  destruct (Str.startswith chapter_keyword (c :: line)) eqn:Hc.
  { by rewrite (chapter_not_section _ Hc). }
  destruct (Str.startswith section_keyword (c :: line)) eqn:Hsec; [done|].
  destruct (article_match (c :: line)).
  { unfold close_article. by destruct (in_article p), (current_article_content p). }
  destruct (in_article p); [done|].
  by destruct (10 <? Str.len (c :: line)).
Qed.

Lemma scan_lines_carried name pn idx lines d p :
  let d' := fst (scan_lines name pn idx lines (d, p)) in
  current_chapter d' = last_marker_from (current_chapter d) chapter_keyword lines
  ∧ current_section d' = last_marker_from (current_section d) section_keyword lines.
Proof.
  revert idx d p. induction lines as [|raw lines IH]; intros idx d p; [done|].
  cbn [scan_lines].
  pose proof (scan_line_carried name pn idx raw d p) as [H1 H2].
  destruct (scan_line name pn idx raw (d, p)) as [d1 p1]. simpl in H1, H2.
  specialize (IH (idx + 1) d1 p1). simpl in IH. destruct IH as [IH1 IH2].
  simpl. rewrite IH1, IH2, H1, H2.
  change (raw :: lines) with ([raw] ++ lines).
  by rewrite !last_marker_from_app.
Qed.

Lemma close_article_carried name pn d p :
  current_chapter (close_article name pn d p) = current_chapter d
  ∧ current_section (close_article name pn d p) = current_section d.
Proof. unfold close_article. by destruct (in_article p), (current_article_content p). Qed.

Lemma scan_page_carried name pn text d :
  current_chapter (scan_page name pn text d)
    = last_marker_from (current_chapter d) chapter_keyword (page_lines text)
  ∧ current_section (scan_page name pn text d)
    = last_marker_from (current_section d) section_keyword (page_lines text).
Proof.
  unfold scan_page, page_lines.
  set (d1 := add_page _ d).
  pose proof (scan_lines_carried name pn 0 (Str.split_lines (Str.strip text)) d1 page_init) as H.
  destruct (scan_lines _ _ _ _ _) as [d2 p2]. simpl in H.
  destruct (close_article_carried name pn d2 p2) as [-> ->]. done.
Qed.

(** Induction over a list taken two items at a time. *)
Lemma pairs_ind {A} (P : list A → Prop) :
  P [] → (∀ x, P [x]) → (∀ x y l, P l → P (x :: y :: l)) → ∀ l, P l.
Proof.
  intros H0 H1 H2 l.
  assert (P l ∧ ∀ x, P (x :: l)) as [? _]; [|done].
  induction l as [|y l [IH1 IH2]]; split; auto.
Qed.

Lemma page_loop_carried {interp : Interpreter} name sections d d' :
  page_loop name sections d = Ok d' →
  current_chapter d' = last_marker_from (current_chapter d) chapter_keyword (lines_of sections)
  ∧ current_section d' = last_marker_from (current_section d) section_keyword (lines_of sections).
Proof.
  revert d. induction sections as [|num|num text rest IH] using pairs_ind;
    intros d Hloop.
  - simpl in Hloop. by inversion Hloop.
  - simpl in Hloop. unfold mbind, result_bind in Hloop. by destruct (int_str num).
  - simpl in Hloop. unfold mbind, result_bind in Hloop.
    destruct (int_str num) as [n|] eqn:Hn; [|done].
    apply IH in Hloop. destruct Hloop as [-> ->].
    destruct (scan_page_carried name n text d) as [-> ->].
    unfold lines_of. cbn [page_texts map concat].
    by rewrite !last_marker_from_app.
Qed.

Lemma article_match_not_heading line number :
  article_match line = Some number →
  Str.startswith chapter_keyword line = false
  ∧ Str.startswith section_keyword line = false.
Proof.
  unfold article_match, chapter_keyword, section_keyword, article_keyword.
  intros Hm.
  destruct (Str.startswith (lit "**") line) eqn:Hstar.
  - destruct line as [|c1 line]; [done|].
    cbn in Hstar. apply andb_true_iff in Hstar as [E _].
    apply N.eqb_eq in E. subst c1.
    cbn [Str.startswith].
    replace (0x627 =? 42)%N with false by done. done.
  - destruct line as [|c1 [|c2 [|c3 line]]]; cbn [Str.startswith];
      rewrite ?andb_false_r; try done.
    destruct (Str.startswith _ _) eqn:Hk in Hm; [|done].
    cbn [Str.startswith] in Hk.
    apply andb_true_iff in Hk as [_ Hk]. apply andb_true_iff in Hk as [_ Hk].
    apply andb_true_iff in Hk as [E3 _]. apply N.eqb_eq in E3. subst c3.
    replace (0x628 =? 0x645)%N with false by done.
    replace (0x641 =? 0x645)%N with false by done.
    by rewrite !andb_false_l, !andb_false_r.
Qed.

(** The units one line appends carry the headings as they stand once the
    line is scanned. *)
Lemma scan_line_emits name pn idx raw d p :
  let d' := fst (scan_line name pn idx raw (d, p)) in
  ∃ us, emitted d d' us
        ∧ Forall (λ u, u_chapter u = current_chapter d'
                       ∧ u_section u = current_section d') us.
Proof.
  cbv zeta. unfold scan_line, emitted.
  destruct (Str.strip raw) as [|c line] eqn:Hs.
  { exists []. by rewrite app_nil_r. }
  destruct (Str.startswith chapter_keyword (c :: line)).
  { exists []. by rewrite app_nil_r. }
  destruct (Str.startswith section_keyword (c :: line)).
  { exists []. by rewrite app_nil_r. }
  destruct (article_match (c :: line)).
  { unfold close_article.
    destruct (in_article p), (current_article_content p);
      try (exists []; by rewrite app_nil_r).
    eexists [_]. split; [done|]. by repeat constructor. }
  destruct (in_article p).
  { exists []. by rewrite app_nil_r. }
  destruct (10 <? Str.len (c :: line)).
  - eexists [_]. split; [done|]. by repeat constructor.
  - exists []. by rewrite app_nil_r.
Qed.

Lemma close_article_emits name pn d p :
  ∃ us, emitted d (close_article name pn d p) us
        ∧ Forall (λ u, u_chapter u = current_chapter d
                       ∧ u_section u = current_section d) us.
Proof.
  unfold close_article, emitted.
  destruct (in_article p), (current_article_content p);
    try (exists []; by rewrite app_nil_r).
  eexists [_]. split; [done|]. by repeat constructor.
Qed.

(** C5. Scenario A: a document of one page whose text is the chapter
    heading, the section heading, the marker of article 1 and one body
    line yields one unit, an article numbered 1 that carries the two
    headings and has the body line as its content. *)
Theorem scenario_a_single_article {interp : Interpreter}
    (content document_name before num text : pystr) (n : Z) :
  Segmenter.re_split_pages content = [before; num; text] →
  int_str num = Ok n →
  Str.strip text = scenario_a_text →
  Segmenter.parse_content content document_name =
    Ok ([{| pc_page_number := n; pc_content := scenario_a_text;
            pc_document_name := document_name |}],
        [{| u_id := 1; u_document_name := document_name;
            u_page_number := n; u_chapter := chapter_one;
            u_section := section_one; u_article_number := [0x31%N];
            u_title := []; u_content := article_one_body;
            u_article_type := article; u_position_in_page := 2 |}]).
Proof.
  intros Hsplit Hint Hstrip. unfold parse_content. rewrite Hsplit.
  cbn [tail page_loop]. rewrite Hint. cbn [mbind result_bind].
  unfold scan_page. rewrite Hstrip. by vm_compute.
Qed.

Lemma scenario_a_single_article_witness :
  Segmenter.parse_content (interp := Basic.interpreter)
    (lit "## Page 1" ++ [Str.newline] ++ scenario_a_text) (lit "law") =
    Ok ([{| pc_page_number := 1; pc_content := scenario_a_text;
            pc_document_name := lit "law" |}],
        [{| u_id := 1; u_document_name := lit "law";
            u_page_number := 1; u_chapter := chapter_one;
            u_section := section_one; u_article_number := [0x31%N];
            u_title := []; u_content := article_one_body;
            u_article_type := article; u_position_in_page := 2 |}]).
Proof.
  apply (scenario_a_single_article (interp := Basic.interpreter) _ _ []
           [0x31%N] (Str.newline :: scenario_a_text) 1);
    reflexivity.
Defined.

(** C6. The carried headings. Segmentation starts from [doc_init], whose
    headings are empty. After whole pages [done] and the first lines [pre]
    of the next page, [current_chapter] (respectively [current_section])
    is the last line seen so far, in [done] and [pre] together, that
    begins with the chapter (section) keyword once stripped, and the empty
    string if there is none: nothing is reset between pages and a later
    marker replaces an earlier one. The units appended by the next line,
    and those appended when the page ends, record the headings current at
    that moment. *)
Theorem carried_headings {interp : Interpreter}
    (document_name : pystr) (done : list pystr) (d : doc_state)
    (page_num : Z) (text : pystr) (pre post : list pystr) :
  page_loop document_name done doc_init = Ok d →
  page_lines text = pre ++ post →
  let seen := lines_of done ++ pre in
  let start := add_page {| pc_page_number := page_num;
                           pc_content := Str.strip text;
                           pc_document_name := document_name |} d in
  let st := scan_lines document_name page_num 0 pre (start, page_init) in
  current_chapter doc_init = [] ∧ current_section doc_init = []
  ∧ current_chapter (fst st) = last_marker chapter_keyword seen
  ∧ current_section (fst st) = last_marker section_keyword seen
  ∧ (∀ raw post', post = raw :: post' →
       ∃ us,
         emitted (fst st)
           (fst (scan_line document_name page_num (Z.of_nat (length pre)) raw st)) us
         ∧ Forall (λ u, u_chapter u = last_marker chapter_keyword (seen ++ [raw])
                        ∧ u_section u = last_marker section_keyword (seen ++ [raw])) us)
  ∧ (post = [] →
       ∃ us,
         emitted (fst st) (close_article document_name page_num (fst st) (snd st)) us
         ∧ scan_page document_name page_num text d
           = close_article document_name page_num (fst st) (snd st)
         ∧ Forall (λ u, u_chapter u = last_marker chapter_keyword seen
                        ∧ u_section u = last_marker section_keyword seen) us).
Proof.
  intros Hdone Hlines seen start st.
  apply page_loop_carried in Hdone as [Hc Hs]. simpl in Hc, Hs.
  pose proof (scan_lines_carried document_name page_num 0 pre start page_init)
    as [Hc1 Hs1].
  fold st in Hc1, Hs1. simpl in Hc1, Hs1.
  assert (current_chapter (fst st) = last_marker chapter_keyword seen) as Hchap.
  { unfold last_marker, seen. by rewrite last_marker_from_app, <- Hc. }
  assert (current_section (fst st) = last_marker section_keyword seen) as Hsect.
  { unfold last_marker, seen. by rewrite last_marker_from_app, <- Hs. }
  repeat split; try done.
  - intros raw post' _.
    destruct st as [d1 p1] eqn:Hst. simpl in Hchap, Hsect.
    destruct (scan_line_emits document_name page_num (Z.of_nat (length pre)) raw d1 p1)
      as (us & Hem & Hall).
    destruct (scan_line_carried document_name page_num (Z.of_nat (length pre)) raw d1 p1)
      as [Hc2 Hs2].
    exists us. split; [done|].
    eapply Forall_impl; [exact Hall|]. intros u [Hu1 Hu2].
    rewrite Hu1, Hu2, Hc2, Hs2, Hchap, Hsect.
    unfold last_marker. by rewrite !last_marker_from_app.
  - intros ->. rewrite app_nil_r in Hlines.
    destruct (close_article_emits document_name page_num (fst st) (snd st))
      as (us & Hem & Hall).
    exists us. split; [done|]. split.
    + unfold scan_page. fold (page_lines text). rewrite Hlines.
      fold start. fold st. by destruct st.
    + by rewrite <- Hchap, <- Hsect.
Qed.

Lemma carried_headings_witness :
  let st := scan_lines (lit "law") 1 0 [chapter_one; section_one]
              (add_page {| pc_page_number := 1;
                           pc_content := Str.strip scenario_a_text;
                           pc_document_name := lit "law" |} doc_init,
               page_init) in
  current_chapter (fst st) = chapter_one ∧ current_section (fst st) = section_one.
Proof.
  pose proof (carried_headings (interp := Basic.interpreter) (lit "law") [] doc_init 1
                scenario_a_text [chapter_one; section_one]
                [article_one_marker; article_one_body]
                eq_refl eq_refl) as (_ & _ & Hc & Hs & _).
  split; [exact Hc | exact Hs].
Defined.

(** C7. A line scanned outside any article that, once stripped, is not
    blank and is neither a chapter, a section nor an article marker:
    when it is longer than 10 code points exactly one unit is appended,
    of kind general, whose content is the stripped line, with empty
    article number and title and the index of the line in the page as
    position; otherwise nothing is appended. The page state is left as it
    was. *)
Theorem general_line_outside_article
    (document_name : pystr) (page_num : Z) (pre : list pystr) (raw : pystr)
    (st0 : doc_state * page_state) :
  let st := scan_lines document_name page_num 0 pre st0 in
  let line := Str.strip raw in
  line ≠ [] →
  in_article (snd st) = false →
  Str.startswith chapter_keyword line = false →
  Str.startswith section_keyword line = false →
  article_match line = None →
  let st' := scan_lines document_name page_num 0 (pre ++ [raw]) st0 in
  snd st' = snd st
  ∧ emitted (fst st) (fst st')
      (if 10 <? Str.len line
       then [{| u_id := article_id (fst st) + 1;
                u_document_name := document_name;
                u_page_number := page_num;
                u_chapter := current_chapter (fst st);
                u_section := current_section (fst st);
                u_article_number := []; u_title := [];
                u_content := line; u_article_type := general;
                u_position_in_page := Z.of_nat (length pre) |}]
       else []).
Proof.
  intros st line Hne Hin Hc Hs Hm st'. subst st'.
  rewrite scan_lines_snoc. fold st. destruct st as [d p]. simpl in Hin.
  unfold scan_line, emitted. fold line.
  destruct line as [|c l] eqn:Hl; [done|].
  rewrite Hc, Hs, Hm, Hin.
  destruct (10 <? Str.len (c :: l)); [done|].
  by rewrite app_nil_r.
Qed.

Lemma general_line_outside_article_witness :
  articles (fst (scan_lines (lit "law") 1 0 [lit "  a general line of text "]
                   (doc_init, page_init))) =
  [{| u_id := 1; u_document_name := lit "law"; u_page_number := 1;
      u_chapter := []; u_section := []; u_article_number := [];
      u_title := []; u_content := lit "a general line of text";
      u_article_type := general; u_position_in_page := 0 |}].
Proof.
  pose proof (general_line_outside_article (lit "law") 1 []
                (lit "  a general line of text ") (doc_init, page_init)) as Hw.
  cbv zeta in Hw.
  destruct Hw as [_ Hw]; [by vm_compute | reflexivity | reflexivity | reflexivity
                         | reflexivity |].
  exact Hw.
Defined.

(** C8 as stated fails: an article marker scanned while an article is
    open does not always append the open article. With two markers on
    consecutive lines the first article is open and has no body when the
    second marker is scanned, and nothing is appended. *)
Lemma open_article_without_body_not_emitted :
  ¬ (∀ (document_name : pystr) (page_num line_idx : Z) (raw number : pystr)
       (d : doc_state) (p : page_state),
       in_article p = true →
       article_match (Str.strip raw) = Some number →
       ∃ u, emitted d (fst (scan_line document_name page_num line_idx raw (d, p))) [u]).
Proof.
  intros Hclaim.
  destruct (Hclaim (lit "law") 1 1 article_one_marker [0x31%N]
              (fst (scan_line (lit "law") 1 0 article_one_marker (doc_init, page_init)))
              (snd (scan_line (lit "law") 1 0 article_one_marker (doc_init, page_init)))
              eq_refl eq_refl) as [u Hu].
  vm_compute in Hu. discriminate Hu.
Qed.

(** C8, amended. When a line matching the article pattern is scanned
    while an article is open, the open article is appended as one unit of
    kind article (its number, title, body lines joined by newlines,
    position, and the current headings) if it has at least one body line,
    and nothing is appended if it has none; then the new article is
    opened with the captured label, an empty title, no body line and the
    index of the marker line as position. *)
Theorem article_marker_closes_open_article
    (document_name : pystr) (page_num line_idx : Z) (raw number : pystr)
    (d : doc_state) (p : page_state) :
  in_article p = true →
  article_match (Str.strip raw) = Some number →
  let st' := scan_line document_name page_num line_idx raw (d, p) in
  snd st' = open_article number line_idx
  ∧ emitted d (fst st')
      (match current_article_content p with
       | [] => []
       | _ :: _ =>
           [{| u_id := article_id d + 1;
               u_document_name := document_name;
               u_page_number := page_num;
               u_chapter := current_chapter d;
               u_section := current_section d;
               u_article_number := current_article_number p;
               u_title := current_article_title p;
               u_content := Str.join_lines (current_article_content p);
               u_article_type := article;
               u_position_in_page := position_in_page p |}]
       end).
Proof.
  intros Hin Hm. cbv zeta. unfold scan_line, emitted.
  destruct (article_match_not_heading _ _ Hm) as [Hc Hs].
  destruct (Str.strip raw) as [|c l] eqn:Hl; [done|].
  rewrite Hc, Hs, Hm. unfold close_article. rewrite Hin. simpl.
  destruct (current_article_content p); [|done].
  by rewrite app_nil_r.
Qed.

Lemma article_marker_closes_open_article_witness :
  let p := append_line article_one_body (open_article [0x31%N] 0) in
  articles (fst (scan_line (lit "law") 1 2 article_one_marker (doc_init, p))) =
  [{| u_id := 1; u_document_name := lit "law"; u_page_number := 1;
      u_chapter := []; u_section := []; u_article_number := [0x31%N];
      u_title := []; u_content := article_one_body;
      u_article_type := article; u_position_in_page := 0 |}].
Proof.
  pose proof (article_marker_closes_open_article (lit "law") 1 2
                article_one_marker [0x31%N] doc_init
                (append_line article_one_body (open_article [0x31%N] 0))
                eq_refl eq_refl) as [_ Hw].
  exact Hw.
Defined.

End SegmenterFacts.

(** ** The database *)

Module DbFacts.
Import DbSpec.

Lemma consistent_empty : consistent Sql.empty.
Proof. split; simpl; try done; constructor. Qed.

Lemma next_rowid_insert values rows :
  Sql.next_rowid (Sql.fts_insert values rows) = Sql.next_rowid rows + 1.
Proof.
  unfold Sql.fts_insert, Sql.next_rowid.
  rewrite map_app, foldr_app. cbn [map foldr fts_rowid].
  assert (∀ (l : list Z) (m : Z), 0 ≤ m →
            foldr Z.max m l = Z.max m (foldr Z.max 0 l)) as Hm.
  { intros l m Hm. induction l as [|x l IH]; cbn [foldr]; lia. }
  assert (∀ l : list Z, 0 ≤ foldr Z.max 0 l) as Hpos.
  { intros l. induction l; cbn [foldr]; lia. }
  set (rs := map fts_rowid rows).
  specialize (Hpos rs). rewrite Hm; lia.
Qed.

Lemma insert_articles_exec {engine : Fts5} {interp : Interpreter} document_id page_ids units c :
  insert_articles document_id page_ids units c =
  (Ok (), {| committed := committed c;
             working := insert_articles_t document_id page_ids units (working c) |}).
Proof.
  revert c. induction units as [|u units IH]; intros c.
  - by destruct c.
  - cbn [insert_articles]. unfold mbind, M_bind, exec_ok, exec.
    cbn [working committed]. rewrite IH. done.
Qed.

Lemma insert_pages_exec {engine : Fts5} {interp : Interpreter} document_id pages page_ids c :
  insert_pages document_id pages page_ids c =
  (fst (insert_pages_t document_id pages page_ids (working c)),
   {| committed := committed c;
      working := snd (insert_pages_t document_id pages page_ids (working c)) |}).
Proof.
  revert page_ids c. induction pages as [|page pages IH]; intros page_ids c.
  - by destruct c.
  - cbn [insert_pages insert_pages_t]. unfold mbind, M_bind, exec.
    destruct (Sql.insert_page _ _ _ _) as [[id|e] t']; [|done].
    rewrite IH. done.
Qed.

Lemma filter_all {A} (P : A → Prop) `{∀ x, Decision (P x)} (l : list A) :
  Forall P l → filter P l = l.
Proof.
  induction 1 as [|x l HP _ IH]; [done|].
  by rewrite filter_cons_True, IH.
Qed.

Lemma filter_none {A} (P : A → Prop) `{∀ x, Decision (P x)} (l : list A) :
  Forall (λ x, ¬ P x) l → filter P l = [].
Proof.
  induction 1 as [|x l HP _ IH]; [done|].
  by rewrite filter_cons_False.
Qed.

(** *** [INSERT OR REPLACE INTO documents] *)

Lemma insert_or_replace_fresh name title path n t :
  consistent t →
  let '(id, t1) := Sql.insert_or_replace_document name title path n t in
  id = seq_documents t + 1
  ∧ consistent t1
  ∧ Forall (λ a, a_document_id a ≠ id) (t_articles t1)
  ∧ Forall (λ p, p_document_id p ≠ id) (t_pages t1).
Proof.
  intros [Hd Hdn Ha Han Hp Hf]. unfold Sql.insert_or_replace_document.
  split; [done|]. split; [split; simpl|split; simpl].
  - apply Forall_app. split.
    + apply Forall_forall. intros d Hin%list_elem_of_filter.
      destruct Hin as [_ Hin]. rewrite Forall_forall in Hd.
      specialize (Hd d Hin). lia.
    + repeat constructor. simpl. lia.
  - rewrite map_app. apply NoDup_app. split; [|split].
    + clear -Hdn. induction (t_documents t) as [|d l IH]; [constructor|].
      simpl in Hdn. apply NoDup_cons in Hdn as [Hnin Hdn].
      rewrite filter_cons. destruct (decide _); [|by apply IH].
      simpl. apply NoDup_cons. split; [|by apply IH].
      intros Hin. apply Hnin. apply list_elem_of_In in Hin.
      apply list_elem_of_In. apply in_map_iff in Hin as (d' & Hd' & Hin).
      apply in_map_iff. exists d'. split; [done|].
      apply list_elem_of_In in Hin. apply list_elem_of_filter in Hin as [_ Hin].
      by apply list_elem_of_In.
    + intros x Hin Hin2. simpl in Hin2. apply list_elem_of_singleton in Hin2.
      subst x. apply list_elem_of_In, in_map_iff in Hin as (d & Hid & Hin).
      apply list_elem_of_In, list_elem_of_filter in Hin as [_ Hin].
      rewrite Forall_forall in Hd. specialize (Hd d Hin). lia.
    + simpl. apply NoDup_singleton.
  - eapply Forall_impl; [exact Ha|]. simpl. intros a [? ?]. lia.
  - done.
  - eapply Forall_impl; [exact Hp|]. simpl. intros p ?. lia.
  - done.
  - eapply Forall_impl; [exact Ha|]. simpl. intros a [? ?]. lia.
  - eapply Forall_impl; [exact Hp|]. simpl. intros p ?. lia.
Qed.

(** *** The two DELETE statements find nothing under a fresh id *)

Lemma delete_articles_fresh {engine : Fts5} id t :
  Forall (λ a, a_document_id a ≠ id) (t_articles t) →
  Sql.delete_articles id t = (Ok (), t).
Proof.
  intros Hf. unfold Sql.delete_articles.
  rewrite (filter_none (λ a, a_document_id a = id)) by done.
  rewrite (filter_all (λ a, a_document_id a ≠ id)) by done.
  by destruct t.
Qed.

Lemma delete_pages_fresh {engine : Fts5} id t :
  Forall (λ p, p_document_id p ≠ id) (t_pages t) →
  Sql.delete_pages id t = (Ok (), t).
Proof.
  intros Hf. unfold Sql.delete_pages.
  rewrite (filter_none (λ p, p_document_id p = id)) by done.
  rewrite (filter_all (λ p, p_document_id p ≠ id)) by done.
  by destruct t.
Qed.

(** *** The loop over the units *)

Lemma insert_articles_t_spec id ids units t :
  insert_articles_t id ids units t =
  Sql.set_articles
    (t_articles t ++ article_rows id ids (seq_articles t) units)
    (seq_articles t + Z.of_nat (length units))
    (t_articles_fts t ++
     article_fts_rows (Sql.document_name_of t id) (seq_articles t)
       (Sql.next_rowid (t_articles_fts t)) units)
    t.
Proof.
  revert t. induction units as [|u units IH]; intros t.
  - destruct t. unfold insert_articles_t, Sql.set_articles. simpl.
    by rewrite !app_nil_r, Z.add_0_r.
  - unfold insert_articles_t in *. cbn [foldl]. rewrite IH.
    unfold Sql.insert_article, Sql.set_articles. cbn -[Sql.next_rowid Z.of_nat].
    rewrite next_rowid_insert. unfold Sql.fts_insert.
    rewrite <- !app_assoc. cbn [app].
    f_equal. lia.
Qed.

(** *** The loop over the pages *)

Lemma page_taken_after_insert t id ps seq fts page n :
  page_taken (Sql.set_pages (t_pages t ++ [page_row_of id ps page]) seq fts t) id n
  ↔ page_taken t id n ∨ n = pc_page_number page.
Proof.
  unfold page_taken. cbn [t_pages Sql.set_pages].
  rewrite Exists_app, Exists_cons, Exists_nil. simpl.
  split; [intros [?|[[_ ?]|[]]]|intros [?|?]]; auto.
Qed.

(** Either every page is inserted, or the first [k] are and the next one
    breaks the unique key. *)
Lemma insert_pages_t_spec id pages ids t :
  (∃ ids' fts',
      (insertable t id pages ∧ bindable pages)
      ∧ insert_pages_t id pages ids t =
        (Ok ids',
         Sql.set_pages (t_pages t ++ page_rows id (seq_pages t) pages)
           (seq_pages t + Z.of_nat (length pages)) fts' t))
  ∨ (∃ k fts',
      (¬ (insertable t id pages ∧ bindable pages)
       ∧ (page_error (take (S k) pages) = IntegrityError →
          bindable (take (S k) pages) ∧ ¬ insertable t id pages)
       ∧ (page_error (take (S k) pages) = OverflowError → ¬ bindable pages))
      ∧ (k < length pages)%nat
      ∧ insert_pages_t id pages ids t =
        (Raise (page_error (take (S k) pages)),
         Sql.set_pages (t_pages t ++ page_rows id (seq_pages t) (take k pages))
           (seq_pages t + Z.of_nat k) fts' t)).
Proof.
  revert ids t. induction pages as [|page pages IH]; intros ids t.
  - left. exists ids, (t_pages_fts t).
    split; [split; [split; constructor|constructor]|].
    destruct t. unfold Sql.set_pages. simpl. by rewrite app_nil_r, Z.add_0_r.
  - cbn [insert_pages_t]. unfold Sql.insert_page.
    destruct (fits_int64 (pc_page_number page)) eqn:Hfits; cbn [negb].
    2:{ right. exists 0%nat, (t_pages_fts t).
        assert (page_error (take 1 (page :: pages)) = OverflowError) as ->.
        { unfold page_error. cbn [take forallb]. by rewrite Hfits. }
        split; [|split; [simpl; lia|]].
        - assert (¬ bindable (page :: pages)) as Hnb.
          { intros [Hb _]%Forall_cons. congruence. }
          split; [by intros [_ ?]|]. split; [done|]. done.
        - destruct t. unfold Sql.set_pages. simpl.
          by rewrite app_nil_r, Z.add_0_r. }
    destruct (decide (Exists _ (t_pages t))) as [Htaken|Hfree].
    { right. exists 0%nat, (t_pages_fts t).
      assert (page_error (take 1 (page :: pages)) = IntegrityError) as ->.
      { unfold page_error. cbn [take forallb]. by rewrite Hfits. }
      assert (¬ insertable t id (page :: pages)) as Hni.
      { intros [_ Hall]. apply Forall_cons in Hall as [Hn _]. by apply Hn. }
      split; [|split; [simpl; lia|]].
      - split; [by intros [? _]|]. split; [|done]. intros _.
        split; [|done]. cbn [take]. by repeat constructor.
      - destruct t. unfold Sql.set_pages. simpl. by rewrite app_nil_r, Z.add_0_r. }
    set (fts1 := Sql.fts_insert _ (t_pages_fts t)).
    set (t1 := Sql.set_pages _ _ _ t).
    assert (∀ n, page_taken t1 id n ↔ page_taken t id n ∨ n = pc_page_number page)
      as Htk by (intros n; apply page_taken_after_insert).
    assert (insertable t1 id pages ↔ insertable t id (page :: pages)) as Hins.
    { unfold insertable. cbn [map]. rewrite NoDup_cons, Forall_cons.
      split.
      - intros [Hnd Hall]. split; [split; [|done]|split; [done|]].
        + intros Hin. apply list_elem_of_In, in_map_iff in Hin as (q & Hq & Hin).
          rewrite Forall_forall in Hall. apply list_elem_of_In in Hin.
          apply (Hall q Hin). apply Htk. by right.
        + eapply Forall_impl; [exact Hall|]. intros q Hq Ht. apply Hq, Htk. by left.
      - intros [[Hnin Hnd] [_ Hall]]. split; [done|].
        apply Forall_forall. intros q Hin Ht. apply Htk in Ht as [Ht|Heq].
        + rewrite Forall_forall in Hall. by apply (Hall q Hin).
        + apply Hnin. rewrite <- Heq. apply list_elem_of_In, in_map.
          by apply list_elem_of_In. }
    assert (∀ l, bindable l ↔ bindable (page :: l)) as Hbind.
    { intros l. unfold bindable. rewrite Forall_cons.
      split; [by intros ?|by intros [_ ?]]. }
    assert (∀ l, page_error (page :: l) = page_error l) as Herr.
    { intros l. unfold page_error. cbn [forallb]. by rewrite Hfits, andb_true_l. }
    destruct (IH (<[pc_page_number page := seq_pages t + 1]> ids) t1)
      as [(ids' & fts' & [Hok Hb] & ->)
         |(k & fts' & (Hbad & Hint & Hover) & Hk & ->)].
    + left. exists ids', fts'. split; [split; [by apply Hins|by apply (proj1 (Hbind pages))]|].
      f_equal. unfold t1, Sql.set_pages. cbn -[Z.of_nat].
      rewrite <- app_assoc. cbn [app length]. f_equal. lia.
    + right. exists (S k), fts'.
      replace (take (S (S k)) (page :: pages)) with (page :: take (S k) pages)
        by done.
      rewrite Herr. split; [|split; [simpl; lia|]].
      * split; [|split].
        -- intros [Hi Hb]. apply Hbad. split; [by apply Hins|by apply (proj2 (Hbind pages))].
        -- intros He. destruct (Hint He) as [Hb Hni].
           split; [by apply (proj1 (Hbind _))|]. by rewrite <- Hins.
        -- intros He Hb. by apply (Hover He), (proj2 (Hbind pages)).
      * f_equal. unfold t1, Sql.set_pages. cbn -[Z.of_nat].
        rewrite <- app_assoc. cbn [app]. f_equal. lia.
Qed.

(** *** Consistency is kept *)


(** *** The call as a whole *)

Lemma index_unfold {interp : Interpreter} {engine : Fts5} fs file_path document_name title c :
  consistent (working c) →
  index_document_enhanced fs file_path document_name title c =
  index_outcome fs file_path document_name title c.
Proof.
  intros Hc. unfold index_document_enhanced, index_outcome.
  destruct (negb (path_exists fs file_path)); [done|].
  pose proof (insert_or_replace_fresh document_name title file_path 0 _ Hc) as Hf.
  unfold mbind at 1. unfold M_bind at 1. unfold exec_ok at 1. unfold exec at 1.
  destruct (Sql.insert_or_replace_document _ _ _ _ _) as [id t1] eqn:Hins.
  destruct Hf as (-> & Hc1 & Ha & Hp). cbn [snd].
  unfold mbind at 1. unfold M_bind at 1. unfold exec at 1. cbn [working committed].
  rewrite (delete_articles_fresh _ _ Ha).
  unfold mbind at 1. unfold M_bind at 1. unfold exec at 1. cbn [working committed].
  rewrite (delete_pages_fresh _ _ Hp).
  unfold mbind at 1. unfold M_bind at 1. unfold lift at 1.
  destruct (parse_markdown_document_enhanced fs file_path document_name)
    as [[pages units]|e]; [|done].
  unfold mbind at 1. unfold M_bind at 1. rewrite insert_pages_exec.
  cbn [working committed].
  destruct (insert_pages_t _ pages ∅ t1) as [[ids|e] t2]; [|done].
  cbn [fst snd].
  unfold mbind at 1. unfold M_bind at 1. rewrite insert_articles_exec.
  cbn [working committed]. done.
Qed.

(** *** Consistency is kept by every statement *)

Lemma consistent_insert_page id n content t :
  consistent t → id ≤ seq_documents t →
  consistent (snd (Sql.insert_page id n content t)).
Proof.
  intros Hc Hid. unfold Sql.insert_page.
  destruct (negb _); [done|].
  destruct (decide _); [done|]. destruct Hc as [Hd Hdn Ha Han Hp Hf].
  split; cbn [snd Sql.set_pages t_documents seq_documents t_articles
              seq_articles t_pages t_articles_fts]; try done.
  apply Forall_app. split; [done|]. by repeat constructor.
Qed.

Lemma consistent_insert_pages id pages ids t :
  consistent t → id ≤ seq_documents t →
  consistent (snd (insert_pages_t id pages ids t)).
Proof.
  revert ids t. induction pages as [|page pages IH]; intros ids t Hc Hid; [done|].
  cbn [insert_pages_t].
  pose proof (consistent_insert_page id (pc_page_number page) (pc_content page)
                t Hc Hid) as Hc1.
  assert (seq_documents (snd (Sql.insert_page id (pc_page_number page)
                                (pc_content page) t)) = seq_documents t) as Hs.
  { unfold Sql.insert_page. destruct (negb _); [done|]. by destruct (decide _). }
  destruct (Sql.insert_page _ _ _ _) as [[pid|e] t1]; [|done].
  cbn [snd] in *. apply IH; [done|lia].
Qed.

Lemma consistent_insert_article id pid u t :
  consistent t → id ≤ seq_documents t →
  consistent (Sql.insert_article id pid u t).
Proof.
  intros [Hd Hdn Ha Han Hp Hf] Hid. unfold Sql.insert_article.
  split; cbn [Sql.set_articles t_documents seq_documents t_articles
              seq_articles t_pages t_articles_fts]; try done.
  - apply Forall_app. split.
    + eapply Forall_impl; [exact Ha|]. simpl. intros a ?. lia.
    + repeat constructor; simpl; lia.
  - rewrite map_app. apply NoDup_app. split; [done|]. split.
    + intros x Hin Hx. simpl in Hx. apply list_elem_of_singleton in Hx. subst x.
      apply list_elem_of_In, in_map_iff in Hin as (a & Hid' & Hin).
      rewrite Forall_forall in Ha. apply list_elem_of_In in Hin.
      specialize (Ha a Hin). lia.
    + simpl. apply NoDup_singleton.
  - rewrite next_rowid_insert. lia.
Qed.

Lemma consistent_insert_articles id ids units t :
  consistent t → id ≤ seq_documents t →
  consistent (insert_articles_t id ids units t).
Proof.
  revert t. unfold insert_articles_t.
  induction units as [|u units IH]; intros t Hc Hid; [done|].
  cbn [foldl]. apply IH; [by apply consistent_insert_article|done].
Qed.

Lemma update_pages_count_ids n id (ds : list document_row) :
  map d_id (map (λ d, if decide (d_id d = id)
                      then {| d_id := d_id d; d_name := d_name d;
                              d_title := d_title d;
                              d_file_path := d_file_path d;
                              d_pages_count := n |}
                      else d) ds) = map d_id ds.
Proof.
  rewrite map_map. apply map_ext. intros d. by destruct (decide _).
Qed.

Lemma consistent_update_pages_count n id t :
  consistent t → consistent (Sql.update_pages_count n id t).
Proof.
  intros [Hd Hdn Ha Han Hp Hf]. unfold Sql.update_pages_count.
  split; cbn [Sql.set_documents t_documents seq_documents t_articles
              seq_articles t_pages t_articles_fts]; try done.
  - apply Forall_forall. intros d Hin.
    apply list_elem_of_In, in_map_iff in Hin as (d0 & <- & Hin).
    rewrite Forall_forall in Hd. apply list_elem_of_In in Hin.
    specialize (Hd d0 Hin). by destruct (decide _).
  - by rewrite update_pages_count_ids.
Qed.

Lemma insert_or_replace_snd name title path n t :
  Sql.insert_or_replace_document name title path n t =
  (seq_documents t + 1,
   snd (Sql.insert_or_replace_document name title path n t)).
Proof. done. Qed.

(** Whatever its outcome, a call leaves consistent tables consistent. *)
Lemma consistent_index {interp : Interpreter} {engine : Fts5} fs file_path document_name title c :
  consistent (working c) →
  consistent (working (snd (index_document_enhanced fs file_path
                              document_name title c))).
Proof.
  intros Hc. rewrite index_unfold by done. unfold index_outcome.
  destruct (negb _); [done|].
  pose proof (insert_or_replace_fresh document_name title file_path 0 _ Hc) as Hf.
  rewrite insert_or_replace_snd in Hf. destruct Hf as (_ & Hc1 & _ & _).
  set (t1 := snd _) in *.
  assert (seq_documents t1 = seq_documents (working c) + 1) as Hseq by done.
  destruct (parse_markdown_document_enhanced _ _ _) as [[pages units]|e]; [|done].
  pose proof (consistent_insert_pages (seq_documents (working c) + 1) pages ∅ t1 Hc1)
    as Hc2.
  assert (seq_documents (snd (insert_pages_t (seq_documents (working c) + 1)
                                pages ∅ t1)) = seq_documents t1) as Hs2.
  { by destruct (insert_pages_t_spec (seq_documents (working c) + 1) pages ∅ t1)
      as [(? & ? & _ & ->)|(? & ? & _ & _ & ->)]. }
  destruct (insert_pages_t _ pages ∅ t1) as [[ids|e] t2]; cbn [snd] in *.
  - apply consistent_update_pages_count, consistent_insert_articles; [|lia].
    apply Hc2. lia.
  - apply Hc2. lia.
Qed.

Lemma parse_ok_path_exists {interp : Interpreter} fs file_path document_name parsed :
  parse_markdown_document_enhanced fs file_path document_name = Ok parsed →
  path_exists fs file_path = true.
Proof.
  unfold parse_markdown_document_enhanced, read_text, path_exists.
  by destruct (fs !! file_path) as [[]|].
Qed.





(** *** The SELECT of [search_enhanced] *)

Lemma select_matches_joined {engine : Fts5} t query limit :
  select_matches t query limit =
  limit ← bind_int limit;
  rowids ← fts5_match (t_articles_fts t) query;
  mret (sql_limit limit (joined t rowids)).
Proof. done. Qed.

(** A limit that is bound is the limit. *)
Lemma bind_int_ok n m : bind_int n = Ok m → m = n ∧ fits_int64 n = true.
Proof. unfold bind_int. destruct (fits_int64 n); [|done]. by intros [= <-]. Qed.

Lemma bind_int_fits n : fits_int64 n = true → bind_int n = Ok n.
Proof. unfold bind_int. by intros ->. Qed.

Lemma bind_int_overflow n : fits_int64 n = false → bind_int n = Raise OverflowError.
Proof. unfold bind_int. by intros ->. Qed.


Lemma sql_limit_elem {A} limit (l : list A) x : x ∈ sql_limit limit l → x ∈ l.
Proof.
  unfold sql_limit. destruct (limit <? 0); [done|].
  intros (i & Hi & _)%elem_of_take. by eapply list_elem_of_lookup_2.
Qed.

Lemma filter_key_unique {A} (f : A → Z) (k : Z) (l : list A) :
  NoDup (map f l) → (length (filter (λ x, f x = k) l) ≤ 1)%nat.
Proof.
  induction l as [|x l IH]; [simpl; lia|].
  cbn [map]. intros [Hnin Hnd]%NoDup_cons. rewrite filter_cons.
  destruct (decide (f x = k)) as [Hk|Hk]; [|by apply IH].
  rewrite (filter_none (λ y, f y = k)); [simpl; lia|].
  apply Forall_forall. intros y Hy Hfy. apply Hnin.
  apply list_elem_of_In, in_map_iff. exists y.
  split; [congruence|by apply list_elem_of_In].
Qed.





(** *** A call that succeeds *)



Lemma article_rows_elem id ids seq units a :
  a ∈ article_rows id ids seq units ↔
  ∃ (k : nat) u, units !! k = Some u
                 ∧ a = article_row_of id ids (seq + Z.of_nat k) u.
Proof.
  revert seq. induction units as [|u0 units IH]; intros seq; cbn [article_rows].
  - split; [by intros ?%elem_of_nil|by intros (k & u & ? & _)].
  - rewrite elem_of_cons, IH. split.
    + intros [->|(k & u & Hk & ->)].
      * exists 0%nat, u0. split; [done|]. by rewrite Z.add_0_r.
      * exists (S k), u. split; [done|]. f_equal. lia.
    + intros ([|k] & u & Hk & ->).
      * left. injection Hk as ->. by rewrite Z.add_0_r.
      * right. exists k, u. split; [done|]. f_equal. lia.
Qed.


Lemma nodup_key_inj {A} (f : A → Z) (l : list A) x y :
  NoDup (map f l) → x ∈ l → y ∈ l → f x = f y → x = y.
Proof.
  induction l as [|z l IH]; [by intros _ ?%elem_of_nil|].
  cbn [map]. intros [Hnin Hnd]%NoDup_cons [->|Hx]%elem_of_cons [->|Hy]%elem_of_cons Hf;
    [done| | |by apply IH].
  - exfalso. apply Hnin. rewrite Hf. apply list_elem_of_In, in_map.
    by apply list_elem_of_In.
  - exfalso. apply Hnin. rewrite <- Hf. apply list_elem_of_In, in_map.
    by apply list_elem_of_In.
Qed.







End DbFacts.

(** ** The query side *)

Module QueryFacts.
Import DbSpec DbFacts QuerySpec.

Lemma lstrip_nil s : Str.lstrip s = [] ↔ forallb Str.isspace s = true.
Proof.
  induction s as [|c s IH]; [done|]. cbn [Str.lstrip forallb].
  destruct (Str.isspace c); [by rewrite IH|]. done.
Qed.

Lemma lstrip_head s c r : Str.lstrip s = c :: r → Str.isspace c = false.
Proof.
  induction s as [|c0 s IH]; [done|]. cbn [Str.lstrip].
  destruct (Str.isspace c0) eqn:Hc; [done|]. by intros [= <- _].
Qed.

(** A query that is empty once stripped is made of whitespace only. *)
Lemma strip_nil s : Str.strip s = [] → forallb Str.isspace s = true.
Proof.
  unfold Str.strip, Str.rstrip. intros Hs.
  apply (f_equal (@rev _)) in Hs. rewrite rev_involutive in Hs. cbn in Hs.
  apply lstrip_nil in Hs. apply lstrip_nil.
  destruct (Str.lstrip s) as [|c r] eqn:Hl; [done|].
  apply lstrip_head in Hl. rewrite forallb_forall in Hs.
  rewrite (Hs c) in Hl; [done|]. apply in_rev. rewrite rev_involutive. by left.
Qed.

(** It has no words. *)
Lemma split_blank s : forallb Str.isspace s = true → Str.split s = [].
Proof.
  unfold Str.split. induction s as [|c s IH]; [done|].
  cbn [forallb Str.split_ws_from]. intros [Hc Hs]%andb_true_iff.
  rewrite Hc. by apply IH.
Qed.

Lemma highlight_rows_blank {interp : Interpreter} query sel :
  Str.split query = [] →
  highlight_rows query sel =
  Ok (map (λ '(a, d), result_row a d (a_content a)) sel).
Proof.
  intros Hq. induction sel as [|[a d] sel IH]; [done|].
  cbn [highlight_rows map]. unfold _highlight_matches at 1. rewrite Hq, IH. done.
Qed.





(** C3 as stated fails: on a query of three spaces [search] signals
    nothing, it returns the empty list. *)
Lemma blank_query_returns_normally :
  Legacy.search (interp := Basic.interpreter) (engine := Substring.engine)
    Legacy.connect (lit "   ") 10 = Ok [].
Proof. reflexivity. Qed.

(** C3, amended. For a query that is empty or made of whitespace only,
    [search] returns the empty list as its normal result, whatever the
    limit, and does not consult the index. [search_enhanced] makes no such
    check: it binds the limit, which raises [OverflowError] when the limit
    does not fit the 64 bits of an INTEGER; with a limit that fits it hands
    the query to the engine, raises what the engine raises, and returns
    the rows the engine lists, joined and limited, with their content
    unmarked. *)
Theorem blank_query_gives_empty_list {interp : Interpreter} {engine : Fts5}
    (lc : connection_of Legacy.tables) (c : connection) (query : pystr)
    (limit : Z) :
  Str.strip query = [] →
  Legacy.search lc query limit = Ok []
  ∧ search_enhanced c query limit =
    if fits_int64 limit then
      match fts5_match (t_articles_fts (working c)) query with
      | Raise e => Raise e
      | Ok rowids =>
          Ok (map (λ '(a, d), result_row a d (a_content a))
                (sql_limit limit (joined (working c) rowids)))
      end
    else Raise OverflowError.
Proof.
  intros Hblank. split.
  - unfold Legacy.search. by rewrite Hblank.
  - unfold search_enhanced. rewrite select_matches_joined. unfold bind_int.
    destruct (fits_int64 limit); [|done]. cbn [mbind result_bind].
    destruct (fts5_match _ query) as [rowids|e]; [|done].
    cbn [mbind result_bind mret result_ret].
    by apply highlight_rows_blank, split_blank, strip_nil.
Qed.

Lemma blank_query_gives_empty_list_witness :
  Legacy.search (interp := Basic.interpreter) (engine := Substring.engine)
    Legacy.connect (lit "  ") 10 = Ok [].
Proof.
  apply (blank_query_gives_empty_list (interp := Basic.interpreter)
           (engine := Substring.engine) Legacy.connect connect (lit "  ") 10).
  reflexivity.
Defined.




(** Words of at most two code points leave the text as it is. *)
Lemma highlight_short_words {interp : Interpreter} before after words text :
  Forall (λ word, Str.len word ≤ 2) words →
  Re.highlight_words before after words text = Ok text.
Proof.
  induction 1 as [|word words Hw _ IH]; [done|].
  cbn [Re.highlight_words]. unfold Re.highlight_word.
  destruct (2 <? Str.len word) eqn:Hlen; [apply Z.ltb_lt in Hlen; lia|].
  exact IH.
Qed.

(** C10 fails on the code where an occurrence differs from the word by
    case. The text "Hello World" highlighted for the query "hello": the
    occurrence "Hello" matches without case, and what is put in its place
    is the marker around the word of the query, "hello"; the text of the
    occurrence is not kept. Both engines do so, each with its marker. *)
Theorem highlight_puts_query_word_in_marker :
  _highlight_matches (interp := Basic.interpreter) (lit "Hello World") (lit "hello")
    = Ok (mark_before ++ lit "hello" ++ mark_after ++ lit " World")
  ∧ Legacy._highlight_matches (interp := Basic.interpreter)
      (lit "Hello World") (lit "hello")
    = Ok (lit "**hello** World").
Proof. by vm_compute. Qed.

End QueryFacts.

(** ** The parser as a whole *)

Module SplitFacts.
Import Segmenter SegmenterSpec SplitSpec.

Lemma startswith_app p s : Str.startswith p s = true → s = p ++ drop (length p) s.
Proof.
  revert s. induction p as [|a p IH]; intros s; [done|].
  destruct s as [|b s]; [done|]. cbn [Str.startswith length drop].
  intros [Hab Hp]%andb_true_iff. apply N.eqb_eq in Hab. subst b.
  cbn [app]. f_equal. by apply IH.
Qed.

Lemma span_app f s :
  s = fst (Str.span f s) ++ snd (Str.span f s)
  ∧ forallb f (fst (Str.span f s)) = true.
Proof.
  induction s as [|c s [IH1 IH2]]; [done|]. cbn [Str.span].
  destruct (f c) eqn:Hc; [|done].
  destruct (Str.span f s) as [a b]. cbn [fst snd app forallb] in *.
  split; [by rewrite <- IH1|]. by rewrite Hc, IH2.
Qed.

Lemma span_length f s : (length (fst (Str.span f s)) ≤ length s)%nat.
Proof.
  destruct (span_app f s) as [H _]. rewrite H at 2. rewrite length_app. lia.
Qed.

(** What a match of the page marker says of the text. *)
Lemma page_marker_at_spec {interp : Interpreter} s digits :
  page_marker_at s = Some digits →
  s = page_keyword ++ digits ++ drop (length page_keyword + length digits) s
  ∧ digits ≠ [] ∧ forallb re_isdecimal digits = true.
Proof.
  unfold page_marker_at. destruct (Str.startswith page_keyword s) eqn:Hk; [|done].
  apply startswith_app in Hk.
  destruct (span_app re_isdecimal (drop (length page_keyword) s)) as [Hs Hd].
  destruct (fst (Str.span re_isdecimal (drop (length page_keyword) s)))
    as [|d ds] eqn:Hdig; [done|].
  intros [= <-]. split; [|done].
  rewrite Hk at 1. f_equal. rewrite Hs at 1. f_equal.
  rewrite <- drop_drop. rewrite Hs at 2.
  by rewrite drop_app_length.
Qed.

Lemma re_split_from_nonempty {interp : Interpreter} bol skip s :
  re_split_from bol skip s ≠ [].
Proof.
  revert bol skip. induction s as [|c s IH]; intros bol skip; [done|].
  cbn [re_split_from]. destruct skip; [|apply IH].
  destruct (if bol then page_marker_at (c :: s) else None); [done|].
  unfold Str.cons_head. by destruct (re_split_from _ 0 s).
Qed.

Lemma rebuild_cons_head c parts :
  parts ≠ [] → rebuild (Str.cons_head c parts) = c :: rebuild parts.
Proof. by destruct parts. Qed.

Lemma rebuild_marker digits parts :
  parts ≠ [] →
  rebuild ([] :: digits :: parts) = page_keyword ++ digits ++ rebuild parts.
Proof. by destruct parts. Qed.

Lemma re_split_from_rebuild {interp : Interpreter} bol skip s :
  (skip ≤ length s)%nat →
  rebuild (re_split_from bol skip s) = drop skip s.
Proof.
  revert bol skip. induction s as [|c s IH]; intros bol skip Hskip.
  { by destruct skip. }
  cbn [re_split_from]. destruct skip as [|k].
  2:{ cbn [drop]. apply IH. simpl in Hskip. lia. }
  cbn [drop].
  destruct (if bol then page_marker_at (c :: s) else None) as [digits|] eqn:Hm.
  - destruct bol; [|done]. apply page_marker_at_spec in Hm as (Hs & Hne & _).
    rewrite rebuild_marker by apply re_split_from_nonempty.
    assert (length (c :: s) =
            length page_keyword + length digits
            + length (drop (length page_keyword + length digits) (c :: s)))%nat
      as Hlen.
    { rewrite Hs at 1. by rewrite !length_app, Nat.add_assoc. }
    cbn [length] in Hlen.
    assert (0 < length page_keyword)%nat as Hk by (cbn; lia).
    rewrite IH by lia.
    rewrite Hs at 1. by f_equal.
  - rewrite rebuild_cons_head by apply re_split_from_nonempty.
    f_equal. rewrite IH by lia. done.
Qed.

(** The pieces after the first come in pairs, and every page number is a
    run of decimal digits that is not empty. *)
Lemma re_split_from_sections {interp : Interpreter} bol skip s :
  Nat.Even (length (tail (re_split_from bol skip s)))
  ∧ Forall (λ num, num ≠ [] ∧ forallb re_isdecimal num = true)
      (page_numbers (tail (re_split_from bol skip s))).
Proof.
  revert bol skip. induction s as [|c s IH]; intros bol skip.
  { split; [by exists 0%nat|constructor]. }
  cbn [re_split_from]. destruct skip as [|k]; [|apply IH].
  destruct (if bol then page_marker_at (c :: s) else None) as [digits|] eqn:Hm.
  - destruct bol; [|done]. apply page_marker_at_spec in Hm as (_ & Hne & Hd).
    set (R := re_split_from _ _ s). destruct (IH (Str.is_newline c)
      (length page_keyword + length digits - 1)%nat) as [He Hf]. fold R in He, Hf.
    pose proof (re_split_from_nonempty (Str.is_newline c)
                  (length page_keyword + length digits - 1)%nat s) as HR.
    fold R in HR. destruct R as [|text rest]; [done|]. cbn [tail] in *.
    split.
    + destruct He as [n Hn]. exists (S n). cbn [length]. lia.
    + cbn [page_numbers]. by constructor.
  - set (R := re_split_from _ 0 s). destruct (IH (Str.is_newline c) 0%nat) as [He Hf].
    fold R in He, Hf.
    pose proof (re_split_from_nonempty (Str.is_newline c) 0%nat s) as HR.
    fold R in HR. by destruct R.
Qed.

(** X1. [re.split] on the page marker loses nothing: the first piece
    followed, for each page, by the marker text, the digits captured and
    the text after them, is the content that was split. The pieces after
    the first come in pairs (a page number and a page text), and each page
    number is a non-empty run of decimal digits. *)
Theorem split_pages_round_trip {interp : Interpreter} (content : pystr) :
  rebuild (re_split_pages content) = content
  ∧ Nat.Even (length (tail (re_split_pages content)))
  ∧ Forall (λ num, num ≠ [] ∧ forallb re_isdecimal num = true)
      (page_numbers (tail (re_split_pages content))).
Proof.
  unfold re_split_pages. split; [|apply re_split_from_sections].
  rewrite re_split_from_rebuild by (simpl; lia). done.
Qed.

End SplitFacts.

Module UnitFacts.
Import Segmenter SegmenterSpec SplitSpec SplitFacts UnitSpec.

Lemma lstrip_elem x s : x ∈ Str.lstrip s → x ∈ s.
Proof.
  induction s as [|c s IH]; [done|]. cbn [Str.lstrip].
  destruct (Str.isspace c); [|done]. intros H. apply elem_of_cons. right. by apply IH.
Qed.

Lemma strip_elem x s : x ∈ Str.strip s → x ∈ s.
Proof.
  unfold Str.strip, Str.rstrip. intros H.
  apply list_elem_of_In, in_rev, list_elem_of_In, lstrip_elem in H.
  apply list_elem_of_In, in_rev, list_elem_of_In in H. by apply lstrip_elem.
Qed.

Lemma split_lines_nonempty s : Str.split_lines s ≠ [].
Proof.
  induction s as [|c s IH]; [done|]. cbn [Str.split_lines].
  destruct (Str.is_newline c); [done|]. unfold Str.cons_head.
  by destruct (Str.split_lines s).
Qed.

(** No piece of [split('\n')] holds a newline. *)
Lemma split_lines_no_newline s : Forall (λ l, Str.newline ∉ l) (Str.split_lines s).
Proof.
  induction s as [|c s IH]; [repeat constructor; by intros ?%elem_of_nil|].
  cbn [Str.split_lines]. destruct (Str.is_newline c) eqn:Hc.
  - constructor; [by intros ?%elem_of_nil|done].
  - pose proof (split_lines_nonempty s) as Hne.
    destruct (Str.split_lines s) as [|h t]; [done|]. cbn [Str.cons_head].
    apply Forall_cons in IH as [Hh Ht]. constructor; [|done].
    intros [Heq|Hin]%elem_of_cons; [|done].
    rewrite <- Heq in Hc. unfold Str.is_newline in Hc. by rewrite N.eqb_refl in Hc.
Qed.

Lemma split_lines_line l : Str.newline ∉ l → Str.split_lines l = [l].
Proof.
  induction l as [|c l IH]; [done|]. intros Hn. cbn [Str.split_lines].
  destruct (Str.is_newline c) eqn:Hc.
  { exfalso. apply Hn. apply N.eqb_eq in Hc. subst c. apply elem_of_cons. by left. }
  rewrite IH; [done|]. intros H. apply Hn. apply elem_of_cons. by right.
Qed.

Lemma split_lines_app_newline l r :
  Str.newline ∉ l →
  Str.split_lines (l ++ Str.newline :: r) = l :: Str.split_lines r.
Proof.
  induction l as [|c l IH]; intros Hn.
  { cbn [app Str.split_lines]. unfold Str.is_newline. by rewrite N.eqb_refl. }
  cbn [app Str.split_lines].
  destruct (Str.is_newline c) eqn:Hc.
  { exfalso. apply Hn. apply N.eqb_eq in Hc. subst c. apply elem_of_cons. by left. }
  rewrite IH; [done|]. intros H. apply Hn. apply elem_of_cons. by right.
Qed.

(** [split('\n')] undoes ['\n'.join] on lines without a newline. *)
Lemma split_join_lines ls :
  ls ≠ [] → Forall (λ l, Str.newline ∉ l) ls →
  Str.split_lines (Str.join_lines ls) = ls.
Proof.
  induction ls as [|l ls IH]; [done|]. intros _ [Hl Hls]%Forall_cons.
  destruct ls as [|l2 ls].
  { cbn [Str.join_lines]. by apply split_lines_line. }
  change (Str.join_lines (l :: l2 :: ls))
    with (l ++ Str.newline :: Str.join_lines (l2 :: ls)).
  rewrite split_lines_app_newline by done. f_equal. by apply IH.
Qed.

Lemma join_lines_nonempty ls :
  ls ≠ [] → Forall (λ l, l ≠ []) ls → Str.join_lines ls ≠ [].
Proof.
  destruct ls as [|l ls]; [done|]. intros _ [Hl _]%Forall_cons.
  destruct ls; [done|]. cbn [Str.join_lines]. by destruct l.
Qed.

(** The label captured by the article pattern is not empty and holds no
    closing parenthesis. *)
Lemma article_match_label line number :
  article_match line = Some number → number ≠ [] ∧ close_paren ∉ number.
Proof.
  unfold article_match.
  set (body := if Str.startswith (lit "**") line then drop 2 line else line).
  destruct (Str.startswith article_keyword body); [|done].
  destruct (span_app (λ c, negb (c =? close_paren)%N)
              (drop (length article_keyword) body)) as [_ Hall].
  destruct (Str.span _ _) as [label rest]. cbn [fst] in Hall.
  destruct label as [|l0 label]; [done|]. destruct rest as [|c rest]; [done|].
  destruct (c =? close_paren)%N; [|done]. intros [= <-]. split; [done|].
  intros Hin. rewrite forallb_forall in Hall.
  apply list_elem_of_In, Hall in Hin. by rewrite N.eqb_refl in Hin.
Qed.

Lemma sorted_snoc (l : list Z) (q : Z) :
  StronglySorted Z.lt l → Forall (λ x, x < q) l → StronglySorted Z.lt (l ++ [q]).
Proof.
  induction 1 as [|x l Hl IH Hx]; intros Hall; cbn [app].
  - by repeat constructor.
  - apply Forall_cons in Hall as [Hxq Hall]. constructor; [by apply IH|].
    apply Forall_app. split; [done|]. by repeat constructor.
Qed.

Lemma starts_at_snoc (seen : list pystr) (raw : pystr) (u : unit_dict) :
  starts_at seen u → starts_at (seen ++ [raw]) u.
Proof.
  intros (r & Hr & Hu). exists r. split; [|done]. by apply lookup_app_l_Some.
Qed.

Lemma starts_at_last (seen : list pystr) (raw : pystr) (u : unit_dict) :
  u_position_in_page u = Z.of_nat (length seen) →
  match u_article_type u with
  | general => Str.strip raw = u_content u
  | article => article_match (Str.strip raw) = Some (u_article_number u)
  end →
  starts_at (seen ++ [raw]) u.
Proof.
  intros Hpos Hu. exists raw. split; [|done].
  rewrite Hpos, Nat2Z.id. by apply list_lookup_middle.
Qed.

(** Appending a unit with the next id and a position past the bound. *)
Lemma units_snoc (l : list unit_dict) (first bound : Z) (u : unit_dict) :
  map u_id l = seqZ first (Z.of_nat (length l)) →
  StronglySorted Z.lt (map u_position_in_page l) →
  Forall (λ v, u_position_in_page v < bound) l →
  u_id u = first + Z.of_nat (length l) →
  bound ≤ u_position_in_page u →
  map u_id (l ++ [u]) = seqZ first (Z.of_nat (length (l ++ [u])))
  ∧ StronglySorted Z.lt (map u_position_in_page (l ++ [u])).
Proof.
  intros Hids Hs Hb Hid Hq. split.
  - rewrite map_app, length_app, Hids. cbn [map length].
    replace (length l + 1)%nat with (S (length l)) by lia.
    by rewrite seqZ_S, Hid.
  - rewrite map_app. cbn [map]. apply sorted_snoc; [done|].
    apply Forall_forall. intros x Hx.
    apply list_elem_of_In, in_map_iff in Hx as (v & <- & Hv).
    rewrite Forall_forall in Hb. apply list_elem_of_In in Hv.
    specialize (Hb v Hv). lia.
Qed.

Section PageInvariant.
Context (name : pystr) (n : Z) (d1 : doc_state).

Lemma page_inv_start : page_inv name n d1 [] 0 d1 page_init [] [].
Proof.
  split; cbn; try done; try constructor; try constructor.
  - by rewrite app_nil_r.
  - lia.
Qed.

Lemma page_units_snoc seen raw gs arts :
  page_units name n seen gs arts → page_units name n (seen ++ [raw]) gs arts.
Proof.
  intros []. split; try done.
  eapply Forall_impl; [exact pu_starts0|]. simpl. intros u [? ?].
  split; [done|]. by apply starts_at_snoc.
Qed.

(** A line that changes nothing but, perhaps, the carried headings. *)
Lemma page_inv_skip seen raw idx d d' p gs arts :
  page_inv name n d1 seen idx d p gs arts →
  articles d' = articles d → article_id d' = article_id d →
  pages_content d' = pages_content d →
  page_inv name n d1 (seen ++ [raw]) (idx + 1) d' p gs arts.
Proof.
  intros [] Ha Hi Hp. split; try done; try congruence.
  - rewrite length_app. cbn [length]. lia.
  - by apply page_units_snoc.
  - eapply Forall_impl; [exact pi_bound0|]. simpl. intros u ?.
    destruct (in_article p); lia.
  - intros Hin. destruct (pi_open0 Hin) as (? & ? & ? & r & ? & ?).
    split; [lia|]. split; [done|]. split; [done|]. exists r.
    split; [by apply lookup_app_l_Some|done].
Qed.

(** An article marker when no article is open, or one without body. *)
Lemma page_inv_open seen raw idx d p gs arts number :
  page_inv name n d1 seen idx d p gs arts →
  in_article p = false ∨ current_article_content p = [] →
  article_match (Str.strip raw) = Some number →
  page_inv name n d1 (seen ++ [raw]) (idx + 1) d (open_article number idx)
    gs arts.
Proof.
  intros [] Hcase Hm. destruct (article_match_label _ _ Hm) as [Hne Hp].
  split; cbn [open_article in_article position_in_page
    current_article_content current_article_number current_article_title];
    try done.
  - rewrite length_app. cbn [length]. lia.
  - by apply page_units_snoc.
  - eapply Forall_impl; [exact pi_bound0|]. simpl. intros u ?.
    destruct (in_article p) eqn:Hin; [|lia].
    destruct (pi_open0 eq_refl) as (? & _). lia.
  - intros _. split; [lia|]. split; [done|]. split; [done|]. exists raw.
    split; [|done]. rewrite pi_idx0, Nat2Z.id. by apply list_lookup_middle.
Qed.

(** Closing an article with a body. *)
Lemma page_inv_close seen idx d p gs arts l ls :
  page_inv name n d1 seen idx d p gs arts →
  in_article p = true → current_article_content p = l :: ls →
  ∃ u, articles (close_article name n d p) = articles d1 ++ gs ++ arts ++ [u]
    ∧ article_id (close_article name n d p)
      = article_id d1 + Z.of_nat (length (gs ++ arts ++ [u]))
    ∧ map u_id (gs ++ arts ++ [u])
      = seqZ (article_id d1 + 1) (Z.of_nat (length (gs ++ arts ++ [u])))
    ∧ pages_content (close_article name n d p) = pages_content d1
    ∧ page_units name n seen gs (arts ++ [u])
    ∧ Forall (λ v, u_position_in_page v < idx) (gs ++ arts ++ [u]).
Proof.
  intros [] Hin Hbody. unfold close_article. rewrite Hin, Hbody.
  destruct (pi_open0 Hin) as (Hpos & Hnum & Hparen & r & Hr & Hm).
  rewrite Hin in pi_bound0. destruct pi_units0.
  set (u := {| u_id := article_id d + 1; u_document_name := name;
               u_page_number := n; u_chapter := current_chapter d;
               u_section := current_section d;
               u_article_number := current_article_number p;
               u_title := current_article_title p;
               u_content := Str.join_lines (l :: ls);
               u_article_type := article;
               u_position_in_page := position_in_page p |}).
  exists u.
  destruct (units_snoc (gs ++ arts) (article_id d1 + 1) (position_in_page p) u)
    as (Hids & Hsorted);
    [exact pi_ids0|exact pu_sorted0|exact pi_bound0|
     subst u; cbn [u_id]; lia|subst u; cbn [u_position_in_page]; lia|].
  rewrite <- !app_assoc in Hids, Hsorted.
  rewrite Hbody in pi_body0.
  cbn [emit articles article_id pages_content]. fold u.
  split; [by rewrite pi_articles0, <- !app_assoc|].
  split; [rewrite !length_app in *; cbn [length]; lia|].
  split; [exact Hids|]. split; [done|]. split.
  - split; [done| |exact Hsorted|].
    + apply Forall_app. split; [done|]. constructor; [|done].
      split; [|done]. unfold unit_shape. subst u.
      cbn [u_document_name u_title u_content u_article_type
           u_article_number].
      split; [done|]. split; [done|].
      split; [|split; [done|split; [done|]]].
      * apply join_lines_nonempty; [done|].
        eapply Forall_impl; [exact pi_body0|]. by intros ? [? _].
      * rewrite split_join_lines; [done|done|].
        eapply Forall_impl; [exact pi_body0|]. by intros ? (_ & ? & _).
    + rewrite app_assoc. apply Forall_app. split; [done|].
      constructor; [|done]. subst u. cbn [u_position_in_page]. split; [lia|].
      exists r. by split.
  - rewrite app_assoc. apply Forall_app. split.
    + eapply Forall_impl; [exact pi_bound0|]. simpl. intros ? ?. lia.
    + constructor; [|done]. subst u. cbn [u_position_in_page]. lia.
Qed.

(** An article marker that closes an article with a body. *)
Lemma page_inv_close_open seen raw idx d p gs arts number l ls :
  page_inv name n d1 seen idx d p gs arts →
  in_article p = true → current_article_content p = l :: ls →
  article_match (Str.strip raw) = Some number →
  ∃ u, page_inv name n d1 (seen ++ [raw]) (idx + 1) (close_article name n d p)
         (open_article number idx) gs (arts ++ [u]).
Proof.
  intros Hinv Hin Hbody Hm.
  destruct (page_inv_close _ _ _ _ _ _ _ _ Hinv Hin Hbody)
    as (u & Ha & Hc & Hi & Hp & Hu & Hb).
  destruct (article_match_label _ _ Hm) as [Hne Hparen].
  destruct Hinv. exists u.
  split; cbn [open_article in_article position_in_page
    current_article_content current_article_number current_article_title];
    try done.
  - rewrite length_app. cbn [length]. lia.
  - by apply page_units_snoc.
  - intros _. split; [lia|]. split; [done|]. split; [done|]. exists raw.
    split; [|done]. rewrite pi_idx0, Nat2Z.id. by apply list_lookup_middle.
Qed.

(** A line of text while an article is open. *)
Lemma page_inv_append seen raw idx d p gs arts line :
  page_inv name n d1 seen idx d p gs arts →
  in_article p = true → text_line line →
  page_inv name n d1 (seen ++ [raw]) (idx + 1) d (append_line line p) gs arts.
Proof.
  intros [] Hin Hline. split; cbn [append_line in_article position_in_page
    current_article_content current_article_number current_article_title];
    try done.
  - rewrite length_app. cbn [length]. lia.
  - by apply page_units_snoc.
  - intros ?. congruence.
  - rewrite Hin in pi_bound0 |- *. done.
  - intros H. destruct (pi_open0 H) as (? & ? & ? & r & ? & ?).
    split; [lia|]. split; [done|]. split; [done|]. exists r.
    split; [by apply lookup_app_l_Some|done].
  - apply Forall_app. split; [done|]. constructor; [done|constructor].
Qed.

(** A long line of text while no article is open. *)
Lemma page_inv_general seen raw idx d p gs arts :
  page_inv name n d1 seen idx d p gs arts →
  in_article p = false → text_line (Str.strip raw) →
  10 < Str.len (Str.strip raw) →
  ∃ u, page_inv name n d1 (seen ++ [raw]) (idx + 1)
         (emit name n [] [] (Str.strip raw) general idx d) p (gs ++ [u]) arts.
Proof.
  intros [] Hin Hline Hlen. destruct (pi_closed0 Hin) as [-> Hbody].
  rewrite Hin in pi_bound0. destruct pi_units0. rewrite app_nil_r in *.
  set (u := {| u_id := article_id d + 1; u_document_name := name;
               u_page_number := n; u_chapter := current_chapter d;
               u_section := current_section d;
               u_article_number := []; u_title := [];
               u_content := Str.strip raw; u_article_type := general;
               u_position_in_page := idx |}).
  exists u.
  destruct (units_snoc gs (article_id d1 + 1) idx u) as (Hids & Hsorted);
    [exact pi_ids0|exact pu_sorted0|exact pi_bound0|
     subst u; cbn [u_id]; lia|subst u; cbn [u_position_in_page]; lia|].
  split; rewrite ?app_nil_r; cbn [emit articles article_id pages_content];
    fold u.
  - rewrite length_app. cbn [length]. lia.
  - by rewrite pi_articles0, <- app_assoc.
  - rewrite length_app in *. cbn [length] in *. lia.
  - exact Hids.
  - done.
  - split; rewrite ?app_nil_r; [| done |exact Hsorted|].
    + apply Forall_app. split; [done|]. constructor; [|done].
      split; [|done]. unfold unit_shape. subst u.
      cbn [u_document_name u_title u_content u_article_type
           u_article_number].
      by destruct Hline.
    + apply Forall_app. split.
      * eapply Forall_impl; [exact pu_starts0|]. simpl. intros v [? ?].
        split; [done|]. by apply starts_at_snoc.
      * constructor; [|done]. subst u. cbn [u_position_in_page].
        split; [lia|]. by apply starts_at_last.
  - done.
  - rewrite Hin. apply Forall_app. split.
    + eapply Forall_impl; [exact pi_bound0|]. simpl. intros ? ?. lia.
    + constructor; [|done]. subst u. cbn [u_position_in_page]. lia.
  - intros ?. congruence.
  - done.
  - done.
Qed.

(** One iteration of the loop over the lines keeps the invariant. *)
Lemma page_inv_scan_line seen raw idx d p gs arts :
  page_inv name n d1 seen idx d p gs arts → Str.newline ∉ raw →
  ∃ gs' arts',
    page_inv name n d1 (seen ++ [raw]) (idx + 1)
      (scan_line name n idx raw (d, p)).1 (scan_line name n idx raw (d, p)).2
      gs' arts'.
Proof.
  intros Hinv Hraw. unfold scan_line.
  destruct (Str.strip raw) as [|c line] eqn:Hs.
  { exists gs, arts. by eapply page_inv_skip; [exact Hinv|..]. }
  destruct (Str.startswith chapter_keyword (c :: line)) eqn:Hch.
  { exists gs, arts. by eapply page_inv_skip; [exact Hinv|..]. }
  destruct (Str.startswith section_keyword (c :: line)) eqn:Hse.
  { exists gs, arts. by eapply page_inv_skip; [exact Hinv|..]. }
  assert (Hnl : Str.newline ∉ c :: line).
  { rewrite <- Hs. intros H. by apply Hraw, strip_elem. }
  destruct (article_match (c :: line)) as [number|] eqn:Hm.
  - rewrite <- Hs in Hm. cbn [fst snd].
    destruct (in_article p) eqn:Hin.
    + destruct (current_article_content p) as [|l ls] eqn:Hbody.
      * exists gs, arts. unfold close_article. rewrite Hin, Hbody.
        eapply page_inv_open; [exact Hinv|by right|done].
      * destruct (page_inv_close_open _ raw _ _ _ _ _ number _ _ Hinv Hin Hbody Hm)
          as (u & Hu).
        by exists gs, (arts ++ [u]).
    + exists gs, arts. unfold close_article. rewrite Hin.
      eapply page_inv_open; [exact Hinv|by left|done].
  - assert (Ht : text_line (c :: line)) by done.
    destruct (in_article p) eqn:Hin.
    + exists gs, arts. by apply page_inv_append.
    + destruct (10 <? Str.len (c :: line)) eqn:Hlen.
      * rewrite <- Hs in Ht |- *. apply Z.ltb_lt in Hlen. rewrite <- Hs in Hlen.
        destruct (page_inv_general _ raw _ _ _ _ _ Hinv Hin Ht Hlen) as (u & Hu).
        by exists (gs ++ [u]), arts.
      * exists gs, arts. by eapply page_inv_skip; [exact Hinv|..].
Qed.

(** The loop over the lines keeps it. *)
Lemma page_inv_scan_lines lines seen idx d p gs arts :
  page_inv name n d1 seen idx d p gs arts →
  Forall (λ raw, Str.newline ∉ raw) lines →
  ∃ gs' arts',
    page_inv name n d1 (seen ++ lines) (idx + Z.of_nat (length lines))
      (scan_lines name n idx lines (d, p)).1
      (scan_lines name n idx lines (d, p)).2 gs' arts'.
Proof.
  revert seen idx d p gs arts.
  induction lines as [|raw lines IH]; intros seen idx d p gs arts Hinv Hall.
  { exists gs, arts. cbn [scan_lines length fst snd].
    by rewrite app_nil_r, Z.add_0_r. }
  apply Forall_cons in Hall as [Hraw Hall]. cbn [scan_lines].
  destruct (page_inv_scan_line _ raw _ _ _ _ _ Hinv Hraw) as (gs1 & arts1 & H1).
  destruct (scan_line name n idx raw (d, p)) as [d' p']. cbn [fst snd] in H1.
  destruct (IH _ _ _ _ _ _ H1 Hall) as (gs2 & arts2 & H2).
  exists gs2, arts2. rewrite <- app_assoc in H2. cbn [app] in H2.
  replace (idx + Z.of_nat (length (raw :: lines)))
    with (idx + 1 + Z.of_nat (length lines)) by (cbn [length]; lia).
  done.
Qed.

End PageInvariant.

(** What one page adds to the state of the document. *)
Lemma scan_page_spec name n text d :
  ∃ us,
    articles (scan_page name n text d) = articles d ++ us
    ∧ article_id (scan_page name n text d)
      = article_id d + Z.of_nat (length us)
    ∧ map u_id us = seqZ (article_id d + 1) (Z.of_nat (length us))
    ∧ pages_content (scan_page name n text d)
      = pages_content d ++ [page_of name n text]
    ∧ page_cut name (page_of name n text) us.
Proof.
  unfold scan_page.
  set (d1 := add_page _ d).
  destruct (page_inv_scan_lines name n d1 (Str.split_lines (Str.strip text))
              [] 0 d1 page_init [] [] (page_inv_start name n d1)
              (split_lines_no_newline _)) as (gs & arts & Hinv).
  destruct (scan_lines name n 0 _ (d1, page_init)) as [d2 p2].
  cbn [fst snd app] in Hinv.
  destruct (in_article p2) eqn:Hin;
    [destruct (current_article_content p2) as [|l ls] eqn:Hbody|].
  - exists (gs ++ arts). unfold close_article. rewrite Hin, Hbody.
    destruct Hinv. repeat split; try done. by exists gs, arts.
  - destruct (page_inv_close _ _ _ _ _ _ _ _ _ _ _ Hinv Hin Hbody)
      as (u & Ha & Hc & Hi & Hp & Hu & _).
    exists (gs ++ arts ++ [u]). repeat split; try done.
    exists gs, (arts ++ [u]). by rewrite app_assoc.
  - exists (gs ++ arts). unfold close_article. rewrite Hin.
    destruct Hinv. repeat split; try done. by exists gs, arts.
Qed.

Section Document.
Context {interp : Interpreter}.

(** The loop over the pages, when [int] reads every page number. *)
Lemma page_loop_spec name sections ns d :
  Nat.Even (length sections) → numbers_read sections ns →
  ∃ d' groups,
    page_loop name sections d = Ok d'
    ∧ articles d' = articles d ++ concat groups
    ∧ article_id d' = article_id d + Z.of_nat (length (concat groups))
    ∧ map u_id (concat groups)
      = seqZ (article_id d + 1) (Z.of_nat (length (concat groups)))
    ∧ pages_content d'
      = pages_content d ++ zip_with (page_of name) ns (page_texts sections)
    ∧ Forall2 (page_cut name)
        (zip_with (page_of name) ns (page_texts sections)) groups.
Proof.
  revert ns d. induction sections as [|num|num text rest IH] using SegmenterFacts.pairs_ind;
    intros ns d Heven Hread.
  - exists d, []. unfold numbers_read in Hread. cbn in Hread.
    apply Forall2_nil_inv_l in Hread as ->.
    cbn. rewrite !app_nil_r. repeat split; try done. lia.
  - destruct Heven as [k Hk]. cbn in Hk. lia.
  - unfold numbers_read in Hread. cbn [page_numbers] in Hread.
    apply Forall2_cons_inv_l in Hread as (n & ns' & Hn & Hread & ->).
    cbn [page_loop]. rewrite Hn. cbn [mbind result_bind].
    destruct (scan_page_spec name n text d) as (us & Ha & Hc & Hi & Hp & Hg).
    destruct (IH ns' (scan_page name n text d)) as (d' & groups & Hl & Ha' & Hc' & Hi' & Hp' & Hg').
    { destruct Heven as [k Hk]. cbn [length] in Hk. exists (k - 1)%nat. lia. }
    { done. }
    exists d', (us :: groups). cbn [concat page_texts zip_with].
    split; [done|]. split; [by rewrite Ha', Ha, <- app_assoc|].
    split; [rewrite Hc', Hc, length_app; lia|].
    split.
    { rewrite map_app, length_app, Nat2Z.inj_add, Hi, Hi', Hc.
      rewrite seqZ_app by lia. f_equal. f_equal. lia. }
    split; [by rewrite Hp', Hp, <- app_assoc|].
    by constructor.
Qed.

(** A loop that returns has read every page number. *)
Lemma page_loop_ok_numbers name sections d d' :
  page_loop name sections d = Ok d' →
  Nat.Even (length sections) ∧ ∃ ns, numbers_read sections ns.
Proof.
  revert d. induction sections as [|num|num text rest IH] using SegmenterFacts.pairs_ind;
    intros d Hl.
  - split; [by exists 0%nat|]. exists []. apply Forall2_nil_2.
  - cbn [page_loop] in Hl. by destruct (int_str num).
  - cbn [page_loop] in Hl. destruct (int_str num) as [n|e] eqn:Hn; [|done].
    cbn [mbind result_bind] in Hl.
    destruct (IH _ Hl) as ([k Hk] & ns & Hns). split.
    + exists (S k). cbn [length]. lia.
    + exists (n :: ns). unfold numbers_read. cbn [page_numbers].
      by constructor.
Qed.

(** A loop that raises was stopped by [int]. *)
Lemma page_loop_raise name sections d e :
  Nat.Even (length sections) → page_loop name sections d = Raise e →
  ∃ num, num ∈ page_numbers sections ∧ int_str num = Raise e.
Proof.
  revert d. induction sections as [|num|num text rest IH] using SegmenterFacts.pairs_ind;
    intros d Heven Hl.
  - done.
  - destruct Heven as [k Hk]. cbn in Hk. lia.
  - cbn [page_loop] in Hl. cbn [page_numbers].
    destruct (int_str num) as [n|e'] eqn:Hn.
    + cbn [mbind result_bind] in Hl.
      assert (Hrest : Nat.Even (length rest)).
      { destruct Heven as [k Hk]. cbn [length] in Hk. exists (k - 1)%nat. lia. }
      destruct (IH _ Hrest Hl) as (num' & Hin & Hnum').
      exists num'. split; [|done]. apply elem_of_cons. by right.
    + cbn [mbind result_bind] in Hl. exists num.
      split; [apply elem_of_cons; by left|congruence].
Qed.

End Document.

End UnitFacts.

Module ParseFacts.
Import Segmenter SegmenterSpec SplitSpec SplitFacts UnitSpec UnitFacts.

Lemma no_marker_one_part {interp : Interpreter} bol s :
  has_marker_from bol s = false → re_split_from bol 0 s = [s].
Proof.
  revert bol. induction s as [|c s IH]; intros bol Hno; [done|].
  cbn [has_marker_from] in Hno. apply orb_false_iff in Hno as [Hhere Hrest].
  cbn [re_split_from]. rewrite (IH _ Hrest).
  destruct bol; [|done]. cbn [andb] in Hhere.
  by destruct (page_marker_at (c :: s)).
Qed.

(** The whole of what is known of a parse that returns. *)
Lemma parse_content_spec {interp : Interpreter} content name pages units :
  parse_content content name = Ok (pages, units) →
  ∃ ns groups,
    numbers_read (tail (re_split_pages content)) ns
    ∧ pages = zip_with (page_of name) ns
                (page_texts (tail (re_split_pages content)))
    ∧ units = concat groups
    ∧ map u_id units = seqZ 1 (Z.of_nat (length units))
    ∧ Forall2 (page_cut name) pages groups.
Proof.
  unfold parse_content. intros Hparse.
  destruct (page_loop name _ doc_init) as [d|e] eqn:Hloop; [|done].
  cbn [mbind result_bind mret result_ret] in Hparse.
  injection Hparse as <- <-.
  destruct (page_loop_ok_numbers _ _ _ _ Hloop) as (Heven & ns & Hns).
  destruct (page_loop_spec name _ ns doc_init Heven Hns)
    as (d' & groups & Hl & Ha & _ & Hi & Hp & Hg).
  rewrite Hloop in Hl. injection Hl as <-.
  exists ns, groups. cbn [doc_init articles pages_content article_id app] in *.
  rewrite Ha, Hp. by repeat split.
Qed.

Lemma page_cut_shape name pc us :
  page_cut name pc us → Forall (unit_shape name) us.
Proof.
  intros (gs & arts & -> & []). apply Forall_app. split.
  - eapply Forall_impl; [exact pu_general0|]. by intros ? [? _].
  - eapply Forall_impl; [exact pu_article0|]. by intros ? [? _].
Qed.

Lemma page_cut_group name pc us : page_cut name pc us → page_group pc us.
Proof.
  intros (gs & arts & -> & []). exists gs, arts. split; [done|].
  split; [|split; [|split; [|done]]].
  - eapply Forall_impl; [exact pu_general0|]. by intros ? (_ & _ & ?).
  - eapply Forall_impl; [exact pu_article0|]. by intros ? (_ & _ & ?).
  - apply Forall_app. split.
    + eapply Forall_impl; [exact pu_general0|]. by intros ? (_ & ? & _).
    + eapply Forall_impl; [exact pu_article0|]. by intros ? (_ & ? & _).
Qed.

(** X2. When [int] reads the number of every page marker the parser
    returns, with one page for each marker, in the order of the text: the
    page carries the number read, the document name and the stripped text
    between its marker and the next one. *)
Theorem parse_returns_a_page_per_marker {interp : Interpreter}
    (content name : pystr) (ns : list Z) :
  numbers_read (tail (re_split_pages content)) ns →
  ∃ units,
    parse_content content name
    = Ok (zip_with (page_of name) ns
            (page_texts (tail (re_split_pages content))), units).
Proof.
  intros Hns.
  destruct (re_split_from_sections true 0 content) as [Heven _].
  destruct (page_loop_spec name _ ns doc_init Heven Hns)
    as (d' & groups & Hl & _ & _ & _ & Hp & _).
  exists (articles d'). unfold parse_content.
  fold (re_split_pages content) in Hl. rewrite Hl.
  cbn [mbind result_bind mret result_ret]. by rewrite Hp.
Qed.

Lemma parse_returns_a_page_per_marker_witness :
  ∃ units,
    parse_content (interp := Basic.interpreter) sample (lit "law")
    = Ok ([page_of (lit "law") 1
             (lit "hello world, this is long" ++ [Str.newline]
              ++ article_one_marker ++ [Str.newline] ++ article_one_body);
           page_of (lit "law") 7 (lit "another text entirely here")], units).
Proof.
  destruct (parse_returns_a_page_per_marker (interp := Basic.interpreter)
              sample (lit "law") [1; 7]) as (units & Hparse).
  { unfold numbers_read. by vm_compute; repeat constructor. }
  exists units. rewrite Hparse. by vm_compute.
Defined.

(** X3. The parser raises only what [int] raised on the number of a page
    marker: the list that [re.split] returns always pairs a number with a
    text, so that [page_sections[i + 1]] is never out of range. *)
Theorem parse_fails_only_in_int {interp : Interpreter}
    (content name : pystr) (e : exn) :
  parse_content content name = Raise e →
  ∃ num, num ∈ page_numbers (tail (re_split_pages content))
         ∧ int_str num = Raise e.
Proof.
  unfold parse_content. intros Hparse.
  destruct (page_loop name _ doc_init) as [d|e'] eqn:Hloop; [done|].
  cbn [mbind result_bind] in Hparse. injection Hparse as ->.
  destruct (re_split_from_sections true 0 content) as [Heven _].
  by apply (page_loop_raise name _ doc_init e Heven).
Qed.

Lemma parse_fails_only_in_int_witness :
  ∃ num, num ∈ page_numbers
                 (tail (re_split_pages (interp := Limited.interpreter)
                          Limited.long_marker))
         ∧ Limited.int num = Raise ValueError.
Proof.
  apply (parse_fails_only_in_int (interp := Limited.interpreter)
           Limited.long_marker (lit "law") ValueError).
  by vm_compute.
Defined.

(** X4. The units of a document are numbered 1, 2, 3, ... in the order
    in which they are returned. *)
Theorem unit_ids_count_from_one {interp : Interpreter}
    (content name : pystr) (pages : list PageContent)
    (units : list unit_dict) :
  parse_content content name = Ok (pages, units) →
  map u_id units = seqZ 1 (Z.of_nat (length units)).
Proof.
  intros Hparse.
  by destruct (parse_content_spec _ _ _ _ Hparse) as (? & ? & _ & _ & _ & ? & _).
Qed.

Lemma unit_ids_count_from_one_witness :
  parse_content (interp := Basic.interpreter) sample (lit "law")
  = Ok sample_parsed
  ∧ map u_id sample_parsed.2 = [1; 2; 3].
Proof.
  split; [by vm_compute|].
  rewrite (unit_ids_count_from_one (interp := Basic.interpreter)
             sample (lit "law") sample_parsed.1 sample_parsed.2);
    by vm_compute.
Defined.

(** X5. Every unit has the document name it was parsed under, an empty
    title and a content that is not empty.  A general unit has no number
    and is one line of more than 10 characters; an article has a number
    that is not empty and holds no closing parenthesis; and no line of a
    content is blank, a chapter or section heading, or an article
    marker. *)
Theorem units_have_shape {interp : Interpreter}
    (content name : pystr) (pages : list PageContent)
    (units : list unit_dict) :
  parse_content content name = Ok (pages, units) →
  Forall (unit_shape name) units.
Proof.
  intros Hparse.
  destruct (parse_content_spec _ _ _ _ Hparse)
    as (ns & groups & _ & _ & -> & _ & Hg).
  clear Hparse. induction Hg as [|pc us pages' groups' Hcut _ IH];
    [constructor|].
  cbn [concat]. apply Forall_app. split; [|done].
  by apply (page_cut_shape name pc).
Qed.

Lemma units_have_shape_witness :
  parse_content (interp := Basic.interpreter) sample (lit "law")
  = Ok sample_parsed
  ∧ Forall (unit_shape (lit "law")) sample_parsed.2.
Proof.
  split; [by vm_compute|].
  apply (units_have_shape (interp := Basic.interpreter) sample (lit "law")
           sample_parsed.1).
  by vm_compute.
Defined.

(** X6. The units come page by page, in the order of the pages.  Those of
    one page carry its number; the general ones come before the articles;
    their positions increase strictly, and the position of a unit is the
    index, among the lines of the page, of the line it starts at: the text
    of a general unit, the marker of an article. *)
Theorem units_grouped_by_page {interp : Interpreter}
    (content name : pystr) (pages : list PageContent)
    (units : list unit_dict) :
  parse_content content name = Ok (pages, units) →
  ∃ groups, units = concat groups ∧ Forall2 page_group pages groups.
Proof.
  intros Hparse.
  destruct (parse_content_spec _ _ _ _ Hparse)
    as (ns & groups & _ & _ & -> & _ & Hg).
  exists groups. split; [done|].
  eapply Forall2_impl; [exact Hg|]. intros pc us. apply page_cut_group.
Qed.

Lemma units_grouped_by_page_witness :
  parse_content (interp := Basic.interpreter) sample (lit "law")
  = Ok sample_parsed
  ∧ ∃ groups, sample_parsed.2 = concat groups
              ∧ Forall2 page_group sample_parsed.1 groups.
Proof.
  split; [by vm_compute|].
  apply (units_grouped_by_page (interp := Basic.interpreter) sample
           (lit "law")).
  by vm_compute.
Defined.

(** X7. A text in which no line begins with a page marker gives no page
    and no unit, whatever else it holds. *)
Theorem no_page_marker_gives_nothing {interp : Interpreter}
    (content name : pystr) :
  has_page_marker content = false →
  parse_content content name = Ok ([], []).
Proof.
  intros Hno. unfold parse_content, re_split_pages.
  by rewrite (no_marker_one_part true content Hno).
Qed.

Lemma no_page_marker_gives_nothing_witness :
  parse_content (interp := Basic.interpreter)
    (scenario_a_text ++ [Str.newline] ++ lit "see ## Page 3") (lit "law")
  = Ok ([], []).
Proof.
  apply (no_page_marker_gives_nothing (interp := Basic.interpreter)).
  by vm_compute.
Defined.

Lemma close_article_same name n d ld p lp :
  same_doc d ld → same_page p lp →
  same_doc (close_article name n d p) (Legacy.close_article name n ld lp).
Proof.
  intros (Hc & Hs & Hi & Ha) (Hbody & Hnum & Htitle & Hin).
  unfold close_article, Legacy.close_article. rewrite Hin, Hbody.
  destruct (in_article p); [|done].
  destruct (current_article_content p) as [|l ls]; [done|].
  unfold same_doc. cbn [emit Legacy.emit Legacy.current_chapter
    Legacy.current_section Legacy.article_id Legacy.articles current_chapter
    current_section article_id articles].
  rewrite Hc, Hs, Hi, Ha, Hnum, Htitle, map_app. done.
Qed.

Lemma scan_line_same name n idx raw d ld p lp :
  same_doc d ld → same_page p lp →
  same_doc (scan_line name n idx raw (d, p)).1
    (Legacy.scan_line name n raw (ld, lp)).1
  ∧ same_page (scan_line name n idx raw (d, p)).2
      (Legacy.scan_line name n raw (ld, lp)).2.
Proof.
  intros Hd Hp. unfold scan_line, Legacy.scan_line.
  destruct (Str.strip raw) as [|c line]; [done|].
  destruct (Str.startswith chapter_keyword (c :: line)).
  { split; [|done]. destruct Hd as (? & ? & ? & ?). by repeat split. }
  destruct (Str.startswith section_keyword (c :: line)).
  { split; [|done]. destruct Hd as (? & ? & ? & ?). by repeat split. }
  destruct (article_match (c :: line)) as [number|].
  { split; [by apply close_article_same|done]. }
  pose proof Hp as (Hbody & Hnum & Htitle & Hin). rewrite Hin.
  destruct (in_article p) eqn:Hopen.
  { split; [done|]. unfold same_page. cbn. by rewrite Hbody. }
  destruct (10 <? Str.len (c :: line)); [|done].
  split; [|done]. destruct Hd as (Hc & Hs & Hi & Ha).
  unfold same_doc. cbn [emit Legacy.emit Legacy.current_chapter
    Legacy.current_section Legacy.article_id Legacy.articles current_chapter
    current_section article_id articles fst].
  rewrite Hc, Hs, Hi, Ha, map_app. done.
Qed.

Lemma scan_lines_same name n lines idx d ld p lp :
  same_doc d ld → same_page p lp →
  same_doc (scan_lines name n idx lines (d, p)).1
    (foldl (λ st raw, Legacy.scan_line name n raw st) (ld, lp) lines).1
  ∧ same_page (scan_lines name n idx lines (d, p)).2
      (foldl (λ st raw, Legacy.scan_line name n raw st) (ld, lp) lines).2.
Proof.
  revert idx d ld p lp.
  induction lines as [|raw lines IH]; intros idx d ld p lp Hd Hp; [done|].
  cbn [scan_lines foldl].
  destruct (scan_line_same name n idx raw d ld p lp Hd Hp) as [Hd' Hp'].
  destruct (scan_line name n idx raw (d, p)) as [d' p'].
  destruct (Legacy.scan_line name n raw (ld, lp)) as [ld' lp'].
  by apply IH.
Qed.

Lemma scan_page_same name n text d ld :
  same_doc d ld →
  same_doc (scan_page name n text d) (Legacy.scan_page name n text ld).
Proof.
  intros Hd. unfold scan_page, Legacy.scan_page.
  set (d1 := add_page _ d).
  assert (Hd1 : same_doc d1 ld).
  { destruct Hd as (? & ? & ? & ?). by repeat split. }
  assert (Hp1 : same_page page_init Legacy.page_init) by done.
  destruct (scan_lines_same name n (Str.split_lines (Str.strip text)) 0
              d1 ld page_init Legacy.page_init Hd1 Hp1) as [Hd' Hp'].
  destruct (scan_lines name n 0 _ _) as [d2 p2].
  destruct (foldl _ _ _) as [ld2 lp2].
  by apply close_article_same.
Qed.

Lemma page_loop_same {interp : Interpreter} name sections d ld :
  same_doc d ld →
  match page_loop name sections d, Legacy.page_loop name sections ld with
  | Ok d', Ok ld' => same_doc d' ld'
  | Raise e, Raise e' => e = e'
  | _, _ => False
  end.
Proof.
  revert d ld.
  induction sections as [|num|num text rest IH] using SegmenterFacts.pairs_ind;
    intros d ld Hd.
  - done.
  - cbn [page_loop Legacy.page_loop]. by destruct (int_str num).
  - cbn [page_loop Legacy.page_loop]. destruct (int_str num) as [n|e]; [|done].
    cbn [mbind result_bind]. by apply IH, scan_page_same.
Qed.

(** X8. The two segmenters cut a file into the same units: what
    [parse_markdown_document] returns is what
    [parse_markdown_document_enhanced] returns, without the pages and
    without the position of each unit; and when one raises, the other
    raises the same exception. *)
Theorem legacy_parser_cuts_the_same_units {interp : Interpreter}
    (fs : filesystem) (file_path document_name : pystr) :
  Legacy.parse_markdown_document fs file_path document_name
  = (r ← parse_markdown_document_enhanced fs file_path document_name;
     mret (map to_legacy r.2)).
Proof.
  unfold Legacy.parse_markdown_document, parse_markdown_document_enhanced.
  destruct (read_text fs file_path) as [content|e]; [|done].
  cbn [mbind result_bind]. unfold parse_content.
  pose proof (page_loop_same document_name (tail (re_split_pages content))
                doc_init Legacy.doc_init) as Hsame.
  destruct (page_loop _ _ doc_init) as [d|e];
    destruct (Legacy.page_loop _ _ Legacy.doc_init) as [ld|e'];
    cbn [mbind result_bind mret result_ret snd].
  - destruct Hsame as (_ & _ & _ & Ha); [by repeat split|]. by rewrite Ha.
  - by destruct Hsame.
  - by destruct Hsame.
  - by rewrite Hsame.
Qed.

End ParseFacts.

(** ** Lookups, statistics and the state of the tables *)

Module LookupFacts.
Import DbSpec DbFacts QuerySpec QueryFacts StoreSpec.

(** *** The counts of [get_statistics] *)

Lemma group_count_lookup kinds k :
  group_count kinds !! k
  = if decide (k ∈ kinds)
    then Some (Z.of_nat (length (filter (λ k', k' = k) kinds)))
    else None.
Proof.
  unfold group_count.
  set (f := λ k0 : article_type,
              (k0, Z.of_nat (length (filter (λ k', k' = k0) kinds)))).
  assert (Hfst : (map f (remove_dups kinds)).*1 = remove_dups kinds).
  { rewrite <- list_fmap_compose. apply list_fmap_id. }
  destruct (decide (k ∈ kinds)) as [Hin|Hnin].
  - apply elem_of_list_to_map.
    + rewrite Hfst. apply NoDup_remove_dups.
    + apply (list_elem_of_fmap_2 f). by apply elem_of_remove_dups.
  - apply not_elem_of_list_to_map. rewrite Hfst.
    by rewrite elem_of_remove_dups.
Qed.

Lemma kinds_split (kinds : list article_type) :
  length kinds
  = (length (filter (λ k', k' = article) kinds)
     + length (filter (λ k', k' = general) kinds))%nat.
Proof.
  induction kinds as [|k kinds IH]; [done|].
  rewrite !filter_cons. destruct k.
  - rewrite decide_True, decide_False by done. cbn [length]. lia.
  - rewrite decide_False, decide_True by done. cbn [length]. lia.
Qed.

Lemma group_count_total kinds :
  default 0 (group_count kinds !! article)
  + default 0 (group_count kinds !! general)
  = Z.of_nat (length kinds).
Proof.
  rewrite !group_count_lookup, (kinds_split kinds).
  assert (∀ k, k ∉ kinds → length (filter (λ k', k' = k) kinds) = 0%nat) as H0.
  { intros k Hk. rewrite (filter_none (λ k', k' = k)); [done|].
    apply Forall_forall. intros x Hx ->. done. }
  destruct (decide (article ∈ kinds)), (decide (general ∈ kinds));
    unfold default; cbn [from_option]; unfold id;
    rewrite ?(H0 article), ?(H0 general) by done; lia.
Qed.

Lemma group_count_positive kinds k v :
  group_count kinds !! k = Some v → 0 < v.
Proof.
  rewrite group_count_lookup. destruct (decide (k ∈ kinds)) as [Hin|]; [|done].
  intros [= <-].
  assert (k ∈ filter (λ k', k' = k) kinds) as Hf
    by by apply list_elem_of_filter.
  destruct (filter (λ k', k' = k) kinds); [by apply elem_of_nil in Hf|].
  cbn [length]. lia.
Qed.

(** X9. In the dictionary of [get_statistics], of either engine, the
    counts by type add up to [articles_count], and no type is listed with
    a count of zero. *)
Theorem statistics_by_type_add_up (c : connection)
    (lc : connection_of Legacy.tables) :
  let stats := get_statistics c in
  let legacy := LegacyLookup.get_statistics lc in
  default 0 (articles_by_type stats !! article)
  + default 0 (articles_by_type stats !! general) = articles_count stats
  ∧ (∀ k v, articles_by_type stats !! k = Some v → 0 < v)
  ∧ default 0 (LegacyLookup.articles_by_type legacy !! article)
    + default 0 (LegacyLookup.articles_by_type legacy !! general)
    = LegacyLookup.articles_count legacy
  ∧ (∀ k v, LegacyLookup.articles_by_type legacy !! k = Some v → 0 < v).
Proof.
  cbn [get_statistics LegacyLookup.get_statistics articles_by_type
       articles_count LegacyLookup.articles_by_type
       LegacyLookup.articles_count].
  rewrite !group_count_total, !length_map.
  repeat split; try done; intros k v; apply group_count_positive.
Qed.

(** *** Highlighting without a backslash *)

Lemma split_ws_from_elem cur s word c :
  word ∈ Str.split_ws_from cur s → c ∈ word → c ∈ cur ∨ c ∈ s.
Proof.
  revert cur. induction s as [|c0 s IH]; intros cur Hw Hc.
  - cbn [Str.split_ws_from] in Hw. destruct cur as [|c1 cur].
    { by apply elem_of_nil in Hw. }
    apply list_elem_of_singleton in Hw. subst word. left.
    by apply list_elem_of_In, in_rev, list_elem_of_In in Hc.
  - cbn [Str.split_ws_from] in Hw. destruct (Str.isspace c0).
    + destruct cur as [|c1 cur].
      * destruct (IH [] Hw Hc) as [H|H]; [by apply elem_of_nil in H|].
        right. apply elem_of_cons. by right.
      * apply elem_of_cons in Hw as [->|Hw].
        { left. by apply list_elem_of_In, in_rev, list_elem_of_In in Hc. }
        destruct (IH [] Hw Hc) as [H|H]; [by apply elem_of_nil in H|].
        right. apply elem_of_cons. by right.
    + destruct (IH (c0 :: cur) Hw Hc) as [H|H].
      * apply elem_of_cons in H as [->|H]; [|by left].
        right. apply elem_of_cons. by left.
      * right. apply elem_of_cons. by right.
Qed.

Lemma split_elem s word c : word ∈ Str.split s → c ∈ word → c ∈ s.
Proof.
  intros Hw Hc. destruct (split_ws_from_elem [] s word c Hw Hc) as [H|H];
    [by apply elem_of_nil in H|done].
Qed.

Lemma no_backslash_template {interp : Interpreter} (template : pystr) :
  Re.backslash ∉ template →
  Re.compile_template template = Ok (λ _, template).
Proof.
  intros Hno. unfold Re.compile_template.
  destruct (existsb _ template) eqn:He; [|done].
  apply existsb_exists in He as (c & Hin & Hc). apply N.eqb_eq in Hc.
  subst c. exfalso. by apply Hno, list_elem_of_In.
Qed.


Lemma split_no_backslash query :
  Re.backslash ∉ query → Forall (λ w, Re.backslash ∉ w) (Str.split query).
Proof.
  intros Hq. apply Forall_forall. intros w Hw Hin.
  by apply Hq, (split_elem query w).
Qed.

Lemma mark_no_backslash :
  (Re.backslash ∉ mark_before) ∧ (Re.backslash ∉ mark_after).
Proof. split; apply (bool_decide_unpack _); by vm_compute. Qed.







(** *** Words that do not occur *)

Lemma sub_from_no_match {interp : Interpreter} word repl text :
  occurs word text = false → Re.sub_from word repl 0 text = text.
Proof.
  induction text as [|ch text IH]; intros Hno; [done|].
  cbn [occurs] in Hno. apply orb_false_iff in Hno as [Hhere Hrest].
  cbn [Re.sub_from]. rewrite Hhere. f_equal. by apply IH.
Qed.

(** X12. Highlighting changes nothing when nothing matches: for a query
    without a backslash none of whose words of more than two characters
    occurs in the text, [_highlight_matches] returns the text as it is. *)
Theorem highlight_without_match_is_identity {interp : Interpreter}
    (text query : pystr) :
  Re.backslash ∉ query →
  (∀ word, word ∈ Str.split query → 2 < Str.len word →
           occurs word text = false) →
  _highlight_matches text query = Ok text.
Proof.
  intros Hq Hno. unfold _highlight_matches.
  pose proof (split_no_backslash query Hq) as Hwords.
  destruct mark_no_backslash as [Hb Ha].
  induction (Str.split query) as [|word words IH]; [done|].
  apply Forall_cons in Hwords as [Hw Hwords].
  cbn [Re.highlight_words]. unfold Re.highlight_word.
  destruct (2 <? Str.len word) eqn:Hlen.
  - rewrite no_backslash_template
      by (rewrite !elem_of_app; by intros [?|[?|?]]).
    cbn [mbind result_bind mret result_ret].
    rewrite sub_from_no_match.
    + apply IH; [|done]. intros w Hin. apply Hno, elem_of_cons. by right.
    + apply Hno; [apply elem_of_cons; by left|by apply Z.ltb_lt].
  - cbn [mbind result_bind mret result_ret].
    apply IH; [|done]. intros w Hin. apply Hno, elem_of_cons. by right.
Qed.

Lemma highlight_without_match_is_identity_witness :
  _highlight_matches (interp := Basic.interpreter)
    (lit "hello world, this is long") (lit "is law xyz")
  = Ok (lit "hello world, this is long").
Proof.
  apply (highlight_without_match_is_identity (interp := Basic.interpreter)).
  - apply (bool_decide_unpack _). by vm_compute.
  - intros word Hin Hlen. apply list_elem_of_In in Hin. vm_compute in Hin.
    destruct Hin as [<-|[<-|[<-|[]]]]; [by vm_compute in Hlen| |];
      by vm_compute.
Defined.

(** *** The order and the number of the rows *)

Lemma bind_key_sublist {A B} (key : B → Z) (ka : A → Z) (f : A → list B)
    (l : list A) :
  (∀ a, (length (f a) ≤ 1)%nat) → (∀ a b, b ∈ f a → key b = ka a) →
  map key (l ≫= f) `sublist_of` map ka l.
Proof.
  intros Hlen Hkey. induction l as [|a l IH]; [done|].
  rewrite bind_cons, map_app. cbn [map].
  specialize (Hlen a). pose proof (Hkey a) as Ha.
  destruct (f a) as [|b [|b' rest]]; cbn [map app].
  - by apply sublist_cons.
  - rewrite (Ha b) by (apply elem_of_cons; by left). by apply sublist_skip.
  - cbn [length] in Hlen. lia.
Qed.

Lemma document_of_article t a :
  consistent t →
  (length (filter (λ d, d_id d = a_document_id a) (t_documents t)
           ≫= λ d, [(a, d)]) ≤ 1)%nat.
Proof.
  intros Hc.
  pose proof (filter_key_unique d_id (a_document_id a) _
                (cons_doc_nodup _ Hc)) as Hd.
  destruct (filter _ (t_documents t)) as [|d [|d' l]];
    [cbn; lia|cbn; lia|cbn [length] in Hd; lia].
Qed.

Lemma joined_ids_sublist t rowids :
  consistent t →
  map (λ row, a_id row.1) (joined t rowids) `sublist_of` rowids.
Proof.
  intros Hc. rewrite <- (map_id rowids) at 2. unfold joined.
  apply bind_key_sublist.
  - intros rowid.
    pose proof (filter_key_unique a_id rowid _ (cons_art_nodup _ Hc)) as Ha.
    destruct (filter _ (t_articles t)) as [|a [|a' l]];
      [cbn; lia| |cbn [length] in Ha; lia].
    rewrite bind_cons. cbn [mbind list_bind]. rewrite app_nil_r.
    by apply document_of_article.
  - intros rowid [a d] Hin.
    apply list_elem_of_bind in Hin as (a' & Hin & Ha).
    apply list_elem_of_bind in Hin as (d' & Hin & Hd).
    apply list_elem_of_singleton in Hin. injection Hin as -> ->.
    by apply list_elem_of_filter in Ha as [Hid _].
Qed.

Lemma sql_limit_sublist {A} limit (l : list A) : sql_limit limit l `sublist_of` l.
Proof. unfold sql_limit. destruct (limit <? 0); [done|apply sublist_take]. Qed.

Lemma sql_limit_length {A} limit (l : list A) :
  0 ≤ limit → Z.of_nat (length (sql_limit limit l)) ≤ limit.
Proof.
  intros Hl. unfold sql_limit. destruct (limit <? 0) eqn:Hneg; [lia|].
  rewrite length_take. lia.
Qed.

Lemma highlight_rows_ids {interp : Interpreter} query sel rows :
  highlight_rows query sel = Ok rows →
  map r_id rows = map (λ row, a_id row.1) sel.
Proof.
  revert rows. induction sel as [|[a d] sel IH]; intros rows Hrows.
  { by injection Hrows as <-. }
  cbn [highlight_rows] in Hrows. unfold mbind, result_bind in Hrows.
  destruct (_highlight_matches (a_content a) query) as [h|]; [|done].
  destruct (highlight_rows query sel) as [rows'|]; [|done].
  injection Hrows as <-. cbn [map]. by rewrite (IH rows' eq_refl).
Qed.

(** X13. The rows of a search follow the rank order of the full-text
    engine: their ids are ids the engine listed, in the order in which it
    listed them, none more often than it did; and with a limit that is not
    negative there are at most that many rows. *)
Theorem search_rows_in_rank_order {interp : Interpreter} {engine : Fts5}
    (c : connection) (query : pystr) (limit : Z) (rows : list search_row) :
  consistent (working c) →
  search_enhanced c query limit = Ok rows →
  ∃ rowids,
    fts5_match (t_articles_fts (working c)) query = Ok rowids
    ∧ map r_id rows `sublist_of` rowids
    ∧ (0 ≤ limit → Z.of_nat (length rows) ≤ limit).
Proof.
  intros Hc Hs. unfold search_enhanced in Hs.
  rewrite select_matches_joined in Hs.
  destruct (bind_int limit) as [limit'|] eqn:Hbind; [|done].
  apply bind_int_ok in Hbind as [-> _]. cbn [mbind result_bind] in Hs.
  destruct (fts5_match _ query) as [rowids|e]; [|done].
  cbn [mbind result_bind mret result_ret] in Hs.
  pose proof (highlight_rows_ids _ _ _ Hs) as Hids.
  exists rowids. split; [done|]. split.
  - rewrite Hids. etrans; [|by apply joined_ids_sublist].
    apply (fmap_sublist (λ row : article_row * document_row, a_id row.1)),
      sql_limit_sublist.
  - intros Hl. rewrite <- (length_map r_id), Hids, length_map.
    by apply sql_limit_length.
Qed.

Lemma search_rows_in_rank_order_witness :
  ∃ rowids,
    fts5_match (Fts5 := Substring.engine)
      (t_articles_fts (working Example.c3)) (lit "text") = Ok rowids
    ∧ [2] `sublist_of` rowids
    ∧ (0 ≤ 10 → Z.of_nat 1 ≤ 10).
Proof.
  apply (search_rows_in_rank_order (interp := Basic.interpreter)
           (engine := Substring.engine) Example.c3 (lit "text") 10
           (match Example.search Example.c3 (lit "text") with
            | Ok rows => rows
            | Raise _ => []
            end)).
  - apply consistent_index, consistent_index, consistent_index,
      consistent_empty.
  - by vm_compute.
Defined.

(** *** [get_sample_articles] *)

#[local] Instance id_desc_trans : Transitive id_desc.
Proof. unfold id_desc. intros x y z ? ?. lia. Qed.

#[local] Instance id_desc_total : Total id_desc.
Proof. unfold id_desc. intros x y. lia. Qed.

Lemma articles_with_document_ids t :
  consistent t →
  map (λ row, a_id row.1) (articles_with_document t)
  `sublist_of` map a_id (t_articles t).
Proof.
  intros Hc. unfold articles_with_document. apply bind_key_sublist.
  - intros a. by apply document_of_article.
  - intros a [a' d] Hin.
    apply list_elem_of_bind in Hin as (d' & Hin & Hd).
    apply list_elem_of_singleton in Hin. by injection Hin as -> ->.
Qed.

Lemma articles_with_document_elem t a d :
  (a, d) ∈ articles_with_document t ↔
  a ∈ t_articles t ∧ d ∈ t_documents t ∧ d_id d = a_document_id a.
Proof.
  unfold articles_with_document. rewrite list_elem_of_bind. split.
  - intros (a' & Hin & Ha).
    apply list_elem_of_bind in Hin as (d' & Hin & Hd).
    apply list_elem_of_singleton in Hin. injection Hin as -> ->.
    by apply list_elem_of_filter in Hd as [? ?].
  - intros (Ha & Hd & Hid). exists a. split; [|done].
    apply list_elem_of_bind. exists d.
    split; [by apply list_elem_of_singleton|by apply list_elem_of_filter].
Qed.

Lemma sorted_strict {A} (key : A → Z) (l : list A) :
  StronglySorted (λ x y, key y ≤ key x) l → NoDup (map key l) →
  StronglySorted (λ x y, key y < key x) l.
Proof.
  induction 1 as [|x l Hl IH Hx]; cbn [map]; [constructor|].
  intros [Hnin Hnd]%NoDup_cons. constructor; [by apply IH|].
  apply Forall_forall. intros y Hy.
  rewrite Forall_forall in Hx. specialize (Hx y Hy).
  assert (key y ≠ key x); [|lia].
  intros Heq. apply Hnin. rewrite <- Heq.
  apply list_elem_of_In, in_map. by apply list_elem_of_In.
Qed.

Lemma sorted_take {A} (R : relation A) (n : nat) (l : list A) :
  StronglySorted R l → StronglySorted R (take n l).
Proof.
  intros Hl. revert n. induction Hl as [|x l Hl IH Hx]; intros [|n];
    cbn [take]; try constructor; [apply IH|].
  apply Forall_forall. intros y Hy. rewrite Forall_forall in Hx.
  apply Hx. by apply (subseteq_take n l).
Qed.

Lemma sorted_limit {A} (R : relation A) (limit : Z) (l : list A) :
  StronglySorted R l → StronglySorted R (sql_limit limit l).
Proof.
  intros Hl. unfold sql_limit. destruct (limit <? 0); [done|].
  by apply sorted_take.
Qed.

(** X14. [get_sample_articles] lists the newest units first. With a
    limit that fits the 64 bits of an INTEGER it returns, and the ids of
    its rows go strictly down; when the limit is not negative there are at
    most that many rows; and every row is that of an article whose
    document is still in the table of the documents. A limit that does
    not fit raises [OverflowError]. *)
Theorem sample_lists_newest_first (c : connection) (limit : Z) :
  consistent (working c) →
  (fits_int64 limit = true →
     ∃ rows,
       get_sample_articles c limit = Ok rows
       ∧ StronglySorted (λ x y, y < x) (map s_id rows)
       ∧ (0 ≤ limit → Z.of_nat (length rows) ≤ limit)
       ∧ ∀ r, r ∈ rows →
           ∃ a d, a ∈ t_articles (working c) ∧ d ∈ t_documents (working c)
                  ∧ d_id d = a_document_id a ∧ r = sample_row_of (a, d))
  ∧ (fits_int64 limit = false →
       get_sample_articles c limit = Raise OverflowError).
Proof.
  intros Hc. unfold get_sample_articles, bind_int.
  split; intros ->; cbn [mbind result_bind mret result_ret]; [|done].
  set (all := articles_with_document (working c)).
  set (sorted := merge_sort id_desc all).
  assert (Hperm : sorted ≡ₚ all) by apply merge_sort_Permutation.
  eexists. split; [done|]. split; [|split].
  - apply (StronglySorted_fmap s_id (λ x y, s_id y < s_id x)); [done|].
    apply (StronglySorted_fmap sample_row_of
             (λ x y : article_row * document_row, a_id y.1 < a_id x.1));
      [done|].
    apply sorted_limit, (sorted_strict (λ row, a_id row.1)).
    + apply (StronglySorted_merge_sort id_desc).
    + eapply NoDup_Permutation_proper.
      { apply (fmap_Permutation (λ row : article_row * document_row,
                                   a_id row.1)), Hperm. }
      apply (sublist_NoDup _ _ (cons_art_nodup _ Hc)),
        (articles_with_document_ids _ Hc).
  - intros Hl. rewrite length_map. by apply sql_limit_length.
  - intros r Hr. apply list_elem_of_In, in_map_iff in Hr as ([a d] & <- & Hin).
    apply list_elem_of_In, sql_limit_elem in Hin. rewrite Hperm in Hin.
    apply articles_with_document_elem in Hin as (? & ? & ?).
    by exists a, d.
Qed.

Lemma sample_lists_newest_first_witness :
  ∃ rows,
    get_sample_articles c_two 10 = Ok rows
    ∧ StronglySorted (λ x y, y < x) (map s_id rows)
    ∧ (0 ≤ 10 → Z.of_nat (length rows) ≤ 10)
    ∧ ∀ r, r ∈ rows →
        ∃ a d, a ∈ t_articles (working c_two) ∧ d ∈ t_documents (working c_two)
               ∧ d_id d = a_document_id a ∧ r = sample_row_of (a, d).
Proof.
  destruct (sample_lists_newest_first c_two 10) as [Hw _].
  - apply consistent_index, consistent_index, consistent_empty.
  - apply Hw. reflexivity.
Defined.

End LookupFacts.

Module StoreFacts.
Import Segmenter SegmenterSpec SplitSpec UnitSpec UnitFacts ParseFacts.
Import DbSpec DbFacts QuerySpec QueryFacts StoreSpec LookupFacts.

(** *** What the statements keep *)

Lemma store_inv_empty : store_inv Sql.empty.
Proof. split; cbn; try by constructor. apply consistent_empty. Qed.

Lemma page_of_article_pages t t' a p :
  t_pages t `prefix_of` t_pages t' →
  page_of_article t a p → page_of_article t' a p.
Proof.
  intros [k Hk] (Hin & ? & ? & ?). split; [|done].
  rewrite Hk. apply elem_of_app. by left.
Qed.

Lemma store_inv_documents ds seq t :
  store_inv t → consistent (Sql.set_documents ds seq t) →
  NoDup (map d_name ds) → store_inv (Sql.set_documents ds seq t).
Proof. intros [] Hc Hn. by split. Qed.

Lemma names_insert_or_replace name (new : document_row) ds :
  d_name new = name → NoDup (map d_name ds) →
  NoDup (map d_name (filter (λ d, d_name d ≠ name) ds ++ [new])).
Proof.
  intros Hnew Hnd. rewrite map_app. apply NoDup_app. split; [|split].
  - apply (sublist_NoDup _ _ Hnd), (fmap_sublist d_name), sublist_filter.
  - intros x Hin Hx. cbn in Hx. apply list_elem_of_singleton in Hx. subst x.
    apply list_elem_of_In, in_map_iff in Hin as (d & Hd & Hin).
    apply list_elem_of_In, list_elem_of_filter in Hin as [Hne _]. congruence.
  - apply NoDup_singleton.
Qed.

Lemma store_inv_insert_or_replace name title path n t :
  store_inv t →
  store_inv (Sql.insert_or_replace_document name title path n t).2.
Proof.
  intros Hinv.
  pose proof (insert_or_replace_fresh name title path n t (si_consistent _ Hinv))
    as Hf.
  rewrite insert_or_replace_snd in Hf. destruct Hf as (_ & Hc & _ & _).
  apply store_inv_documents; [done|exact Hc|].
  by apply names_insert_or_replace, si_names.
Qed.

Lemma names_update_pages_count n id (ds : list document_row) :
  map d_name (map (λ d, if decide (d_id d = id)
                        then {| d_id := d_id d; d_name := d_name d;
                                d_title := d_title d;
                                d_file_path := d_file_path d;
                                d_pages_count := n |}
                        else d) ds) = map d_name ds.
Proof.
  rewrite map_map. apply map_ext. intros d. by destruct (decide _).
Qed.

Lemma store_inv_update_pages_count n id t :
  store_inv t → store_inv (Sql.update_pages_count n id t).
Proof.
  intros Hinv. apply store_inv_documents; [done| |].
  - apply consistent_update_pages_count, si_consistent, Hinv.
  - rewrite names_update_pages_count. apply si_names, Hinv.
Qed.

Lemma store_inv_insert_page id n content t :
  store_inv t → id ≤ seq_documents t →
  store_inv (Sql.insert_page id n content t).2.
Proof.
  intros Hinv Hid.
  pose proof (consistent_insert_page id n content t (si_consistent _ Hinv) Hid)
    as Hc.
  unfold Sql.insert_page in *.
  destruct (negb (fits_int64 n)); [done|].
  destruct (decide (Exists _ (t_pages t))) as [Htaken|Hfree]; [done|].
  destruct Hinv. cbn [snd] in *. split; cbn; try done.
  - eapply Forall_impl; [exact si_links0|]. cbn. intros a (p & Hp).
    exists p. eapply page_of_article_pages; [|exact Hp]. cbn.
    by apply prefix_app_r.
  - apply Forall_app. split.
    + eapply Forall_impl; [exact si_page_ids0|]. cbn. intros ? ?. lia.
    + repeat constructor. cbn. lia.
  - rewrite map_app. apply NoDup_app. split; [done|]. split.
    + intros x Hin Hx. cbn in Hx. apply list_elem_of_singleton in Hx. subst x.
      apply list_elem_of_In, in_map_iff in Hin as (p & Hp & Hin).
      rewrite Forall_forall in si_page_ids0. apply list_elem_of_In in Hin.
      specialize (si_page_ids0 p Hin). lia.
    + apply NoDup_singleton.
  - rewrite map_app. apply NoDup_app. split; [done|]. split.
    + intros x Hin Hx. cbn in Hx. apply list_elem_of_singleton in Hx. subst x.
      apply list_elem_of_In, in_map_iff in Hin as (p & Hp & Hin).
      apply Hfree, Exists_exists. exists p.
      split; [by apply list_elem_of_In|].
      unfold page_key in Hp. by injection Hp as -> ->.
    + apply NoDup_singleton.
Qed.

Lemma insert_page_seq_documents id n content t :
  seq_documents (Sql.insert_page id n content t).2 = seq_documents t.
Proof.
  unfold Sql.insert_page. destruct (negb _); [done|]. by destruct (decide _).
Qed.

Lemma store_inv_insert_pages id pages ids t :
  store_inv t → id ≤ seq_documents t →
  store_inv (insert_pages_t id pages ids t).2.
Proof.
  revert ids t. induction pages as [|page pages IH]; intros ids t Hinv Hid;
    [done|].
  cbn [insert_pages_t].
  pose proof (store_inv_insert_page id (pc_page_number page) (pc_content page)
                t Hinv Hid) as H1.
  pose proof (insert_page_seq_documents id (pc_page_number page)
                (pc_content page) t) as Hs.
  destruct (Sql.insert_page _ _ _ t) as [[pid|e] t1]; cbn [snd] in *; [|done].
  apply IH; [done|lia].
Qed.

Lemma store_inv_insert_article id pid u t p :
  store_inv t → id ≤ seq_documents t →
  p ∈ t_pages t → pid = Some (p_id p) → p_document_id p = id →
  p_page_number p = u_page_number u →
  store_inv (Sql.insert_article id pid u t).
Proof.
  intros Hinv Hid Hp Hpid Hdoc Hnum.
  pose proof (consistent_insert_article id pid u t (si_consistent _ Hinv) Hid)
    as Hc.
  pose proof (cons_fts _ (si_consistent _ Hinv)) as Hnext.
  destruct Hinv. unfold Sql.insert_article in *. split; cbn; try done.
  - unfold Sql.fts_insert. apply Forall2_app; [done|].
    constructor; [|constructor]. split; [done|]. by eexists.
  - apply Forall_app. split; [done|]. constructor; [|done].
    exists p. by split.
Qed.

Lemma insert_articles_t_pages id ids units t :
  t_pages (insert_articles_t id ids units t) = t_pages t
  ∧ seq_documents (insert_articles_t id ids units t) = seq_documents t.
Proof. by rewrite insert_articles_t_spec. Qed.

Lemma store_inv_insert_articles id ids units t :
  store_inv t → id ≤ seq_documents t →
  Forall (λ u, ∃ p, p ∈ t_pages t ∧ ids !! u_page_number u = Some (p_id p)
                    ∧ p_document_id p = id
                    ∧ p_page_number p = u_page_number u) units →
  store_inv (insert_articles_t id ids units t).
Proof.
  intros Hinv Hid Hunits. revert t Hinv Hid Hunits.
  induction units as [|u units IH]; intros t Hinv Hid Hunits; [done|].
  apply Forall_cons in Hunits as [(p & Hp & Hpid & Hdoc & Hnum) Hunits].
  unfold insert_articles_t. cbn [foldl]. apply IH.
  - by apply (store_inv_insert_article id _ u t p).
  - done.
  - done.
Qed.

(** The page number of every unit is that of a page. *)
Lemma unit_pages {interp : Interpreter} fs file_path name pages units :
  parse_markdown_document_enhanced fs file_path name = Ok (pages, units) →
  Forall (λ u, ∃ page, page ∈ pages ∧ pc_page_number page = u_page_number u)
    units.
Proof.
  unfold parse_markdown_document_enhanced.
  destruct (read_text fs file_path) as [content|e]; [|done].
  cbn [mbind result_bind]. intros Hparse.
  destruct (parse_content_spec _ _ _ _ Hparse)
    as (ns & groups & _ & _ & -> & _ & Hg).
  clear Hparse. induction Hg as [|pc us pages' groups' Hcut _ IH];
    [constructor|].
  cbn [concat]. apply Forall_app. split.
  - destruct Hcut as (gs & arts & -> & []). apply Forall_app. split.
    + eapply Forall_impl; [exact pu_general0|]. cbn. intros u (_ & Hn & _).
      exists pc. split; [apply elem_of_cons; by left|done].
    + eapply Forall_impl; [exact pu_article0|]. cbn. intros u (_ & Hn & _).
      exists pc. split; [apply elem_of_cons; by left|done].
  - eapply Forall_impl; [exact IH|]. cbn. intros u (page & Hin & Hn).
    exists page. split; [apply elem_of_cons; by right|done].
Qed.

(** The ids the loop over the pages remembers are those of the rows it
    made. *)
Lemma insert_pages_t_ids id pages ids t ids' t' :
  insert_pages_t id pages ids t = (Ok ids', t') →
  t_pages t `prefix_of` t_pages t'
  ∧ Forall (λ page, ∃ p, p ∈ t_pages t'
                         ∧ ids' !! pc_page_number page = Some (p_id p)
                         ∧ p_document_id p = id
                         ∧ p_page_number p = pc_page_number page) pages
  ∧ ∀ n, n ∉ map pc_page_number pages → ids' !! n = ids !! n.
Proof.
  revert ids t. induction pages as [|page pages IH]; intros ids t Hins.
  { injection Hins as <- <-. split; [done|]. split; [constructor|done]. }
  cbn [insert_pages_t] in Hins. unfold Sql.insert_page in Hins.
  destruct (negb (fits_int64 (pc_page_number page))); [done|].
  destruct (decide (Exists _ (t_pages t))) as [Htaken|Hfree]; [done|].
  destruct (IH _ _ Hins) as (Hpre & Hall & Hother). cbn in Hpre.
  assert (Hpre' : t_pages t `prefix_of` t_pages t').
  { etrans; [|exact Hpre]. by apply prefix_app_r. }
  split; [done|]. split.
  - constructor; [|done].
    destruct (decide (pc_page_number page ∈ map pc_page_number pages))
      as [Hin|Hnin].
    + apply list_elem_of_In, in_map_iff in Hin as (q & Hq & Hin).
      rewrite Forall_forall in Hall. apply list_elem_of_In in Hin.
      destruct (Hall q Hin) as (p & Hp & Hid & Hdoc & Hnum).
      exists p. rewrite <- Hq. done.
    + eexists. split; [|split; [|split]].
      * destruct Hpre as [k ->]. apply elem_of_app. left.
        apply elem_of_app. right. by apply list_elem_of_singleton.
      * rewrite (Hother _ Hnin). cbn. by rewrite lookup_insert_eq.
      * done.
      * done.
  - intros n Hn. cbn [map] in Hn. apply not_elem_of_cons in Hn as [Hne Hn].
    rewrite (Hother n Hn). by rewrite lookup_insert_ne.
Qed.

(** A call keeps what the statements keep, whether it returns or raises. *)
Lemma store_inv_index {interp : Interpreter} {engine : Fts5}
    fs file_path document_name title c :
  store_inv (working c) →
  store_inv (working (index_document_enhanced fs file_path document_name
                        title c).2).
Proof.
  intros Hinv. pose proof (si_consistent _ Hinv) as Hc.
  rewrite index_unfold by done. unfold index_outcome.
  destruct (negb _); [done|].
  pose proof (store_inv_insert_or_replace document_name title file_path 0 _ Hinv)
    as H1.
  set (t1 := (Sql.insert_or_replace_document _ _ _ _ _).2) in *.
  set (id := seq_documents (working c) + 1).
  assert (seq_documents t1 = id) as Hseq by done.
  destruct (parse_markdown_document_enhanced _ _ _) as [[pages units]|e]
    eqn:Hparse; [|done].
  pose proof (store_inv_insert_pages id pages ∅ t1 H1) as H2.
  destruct (insert_pages_t id pages ∅ t1) as [[ids|e] t2] eqn:Hpages;
    cbn [snd working] in *; [|apply H2; lia].
  destruct (insert_pages_t_ids _ _ _ _ _ _ Hpages) as (_ & Hids & _).
  assert (seq_documents t2 = id) as Hseq2.
  { destruct (insert_pages_t_spec id pages ∅ t1)
      as [(? & ? & _ & Heq)|(? & ? & _ & _ & Heq)];
      rewrite Hpages in Heq; by injection Heq as _ ->. }
  apply store_inv_update_pages_count, store_inv_insert_articles.
  - apply H2. lia.
  - lia.
  - pose proof (unit_pages _ _ _ _ _ Hparse) as Hunits.
    eapply Forall_impl; [exact Hunits|]. cbn. intros u (page & Hin & Hn).
    rewrite Forall_forall in Hids.
    destruct (Hids page Hin) as (p & Hp & Hid & Hdoc & Hnum).
    exists p. rewrite <- Hn. done.
Qed.

Lemma reachable_store_inv {interp : Interpreter} {engine : Fts5} c :
  reachable c → store_inv (working c).
Proof.
  induction 1 as [|fs file_path document_name title c _ IH].
  - apply store_inv_empty.
  - by apply store_inv_index.
Qed.

(** X15. Whatever calls of [index_document_enhanced] came before, and
    whether they returned or raised, the full-text table holds one row for
    each row of the articles, in the same order and under the id of the
    article, with the columns of the article. *)
Theorem full_text_rows_follow_articles {interp : Interpreter} {engine : Fts5}
    (c : connection) :
  reachable c →
  Forall2 indexed_as (t_articles_fts (working c)) (t_articles (working c)).
Proof. intros Hr. apply si_fts, reachable_store_inv, Hr. Qed.

Lemma full_text_rows_follow_articles_witness :
  Forall2 indexed_as (t_articles_fts (working Example.c3))
    (t_articles (working Example.c3)).
Proof.
  apply (full_text_rows_follow_articles (interp := Basic.interpreter)
           (engine := Substring.engine)).
  apply (reachable_index Example.fs (lit "b.md") (lit "other") []).
  apply (reachable_index Example.fs (lit "bad.md") (lit "law") []).
  apply (reachable_index Example.fs (lit "a.md") (lit "law") []).
  apply reachable_connect.
Defined.

(** X16. In every state the engine can reach, each article refers to a
    page: its [page_id] is not NULL, it is the id of exactly one row of
    the pages, and that row is the page of the same document with the page
    number of the article. *)
Theorem articles_refer_to_their_page {interp : Interpreter} {engine : Fts5}
    (c : connection) (a : article_row) :
  reachable c → a ∈ t_articles (working c) →
  ∃ p, page_of_article (working c) a p
       ∧ ∀ p', p' ∈ t_pages (working c) → a_page_id a = Some (p_id p') →
               p' = p.
Proof.
  intros Hr Ha. pose proof (reachable_store_inv c Hr) as Hinv.
  pose proof (si_links _ Hinv) as Hlinks. rewrite Forall_forall in Hlinks.
  destruct (Hlinks a Ha) as (p & Hp). exists p. split; [done|].
  intros p' Hp' Hid. destruct Hp as (Hin & Hpid & _).
  apply (nodup_key_inj p_id (t_pages (working c)));
    [apply si_page_nodup, Hinv|done|done|congruence].
Qed.

Lemma articles_refer_to_their_page_witness :
  ∃ p, page_of_article (working Example.c3)
         {| a_id := 2; a_document_id := 3; a_page_id := Some 2;
            a_page_number := 7; a_chapter := []; a_section := [];
            a_article_number := []; a_title := [];
            a_content := lit "another text entirely here";
            a_article_type := general; a_position_in_page := 0 |} p
       ∧ ∀ p', p' ∈ t_pages (working Example.c3) → Some 2 = Some (p_id p') →
               p' = p.
Proof.
  apply (articles_refer_to_their_page (interp := Basic.interpreter)
           (engine := Substring.engine)).
  - apply (reachable_index Example.fs (lit "b.md") (lit "other") []).
    apply (reachable_index Example.fs (lit "bad.md") (lit "law") []).
    apply (reachable_index Example.fs (lit "a.md") (lit "law") []).
    apply reachable_connect.
  - apply list_elem_of_In. vm_compute. right. by left.
Defined.

(** *** A call that returns *)

Lemma index_ok_tables {interp : Interpreter} {engine : Fts5}
    fs file_path document_name title c n c' :
  consistent (working c) →
  index_document_enhanced fs file_path document_name title c = (Ok n, c') →
  let t := working c in
  let id := seq_documents t + 1 in
  ∃ pages units ids,
    parse_markdown_document_enhanced fs file_path document_name
    = Ok (pages, units)
    ∧ n = Z.of_nat (length units)
    ∧ NoDup (map pc_page_number pages)
    ∧ t_documents (working c')
      = filter (λ d, d_name d ≠ document_name) (t_documents t)
        ++ [document_row_of id document_name title file_path pages]
    ∧ t_pages (working c') = t_pages t ++ page_rows id (seq_pages t) pages
    ∧ t_articles (working c')
      = t_articles t ++ article_rows id ids (seq_articles t) units
    ∧ committed c' = working c'.
Proof.
  intros Hc Hidx. cbv zeta. rewrite index_unfold in Hidx by done.
  unfold index_outcome in Hidx.
  destruct (negb _); [done|].
  destruct (parse_markdown_document_enhanced _ _ _) as [[pages units]|e]; [|done].
  set (id := seq_documents (working c) + 1) in *.
  set (t1 := snd _) in *.
  destruct (insert_pages_t_spec id pages ∅ t1)
    as [(ids & fts & Hok & Hins)|(k & fts & Hbad & Hk & Hins)];
    rewrite Hins in Hidx; [|done].
  injection Hidx as <- <-. exists pages, units, ids.
  cbn [working committed]. rewrite insert_articles_t_spec.
  cbn [Sql.update_pages_count Sql.set_documents Sql.set_articles Sql.set_pages
       t_documents seq_documents t_articles seq_articles t_articles_fts
       t_pages seq_pages].
  split; [done|]. split; [done|]. split; [by destruct Hok as [[? _] _]|].
  split; [|done].
  subst t1. cbn [Sql.insert_or_replace_document snd Sql.set_documents
                 t_documents].
  rewrite map_app. cbn [map d_id]. rewrite decide_True by done.
  f_equal. rewrite <- (map_id (filter _ _)) at 2. apply map_ext_in.
  intros d Hd. apply list_elem_of_In, list_elem_of_filter in Hd as [_ Hd].
  pose proof (cons_doc_ids _ Hc) as Hids. rewrite Forall_forall in Hids.
  specialize (Hids d Hd). rewrite decide_False; [done|]. unfold id. lia.
Qed.

(** The page numbers of a file whose call returned were all bound. *)
Lemma index_ok_bindable {interp : Interpreter} {engine : Fts5}
    fs file_path document_name title c n c' pages units :
  consistent (working c) →
  index_document_enhanced fs file_path document_name title c = (Ok n, c') →
  parse_markdown_document_enhanced fs file_path document_name
  = Ok (pages, units) →
  bindable pages.
Proof.
  intros Hc Hidx Hparse. rewrite index_unfold in Hidx by done.
  unfold index_outcome in Hidx.
  destruct (negb _); [done|]. rewrite Hparse in Hidx.
  set (id := seq_documents (working c) + 1) in *.
  set (t1 := snd _) in *.
  destruct (insert_pages_t_spec id pages ∅ t1)
    as [(ids & fts & Hok & Hins)|(k & fts & Hbad & Hk & Hins)];
    rewrite Hins in Hidx; [|done].
  by destruct Hok.
Qed.

Lemma bind_nil {A B} (f : A → list B) (l : list A) :
  Forall (λ x, f x = []) l → l ≫= f = [].
Proof.
  induction 1 as [|x l Hx _ IH]; [done|]. by rewrite bind_cons, Hx, IH.
Qed.

Lemma bind_ext_in {A B} (f g : A → list B) (l : list A) :
  (∀ x, x ∈ l → f x = g x) → l ≫= f = l ≫= g.
Proof.
  induction l as [|x l IH]; intros Hfg; [done|].
  rewrite !bind_cons, Hfg by (apply elem_of_cons; by left).
  f_equal. apply IH. intros y Hy. apply Hfg, elem_of_cons. by right.
Qed.

Lemma page_rows_document id seq pages p :
  p ∈ page_rows id seq pages → p_document_id p = id.
Proof.
  revert seq. induction pages as [|q pages IH]; intros seq Hp.
  { by apply elem_of_nil in Hp. }
  cbn [page_rows] in Hp. apply elem_of_cons in Hp as [->|Hp]; [done|].
  by apply (IH (seq + 1)).
Qed.

(** The documents a page or an article of an old version can be joined
    to do not have the name that was indexed. *)
Lemma old_documents_renamed (name title file_path : pystr) pages t (k : Z) :
  consistent t → k ≤ seq_documents t →
  Forall (λ d, d_name d ≠ name ∧ d ∈ t_documents t)
    (filter (λ d, d_id d = k)
       (filter (λ d, d_name d ≠ name) (t_documents t)
        ++ [document_row_of (seq_documents t + 1) name title file_path pages])).
Proof.
  intros Hc Hk. apply Forall_forall. intros d [Hid Hd]%list_elem_of_filter.
  apply elem_of_app in Hd as [[? ?]%list_elem_of_filter|Hd]; [done|].
  apply list_elem_of_singleton in Hd. subst d. cbn in Hid. lia.
Qed.

(** The document that was indexed is the one row under the new id. *)
Lemma new_document_only (name title file_path : pystr) pages t :
  consistent t →
  filter (λ d, d_id d = seq_documents t + 1)
    (filter (λ d, d_name d ≠ name) (t_documents t)
     ++ [document_row_of (seq_documents t + 1) name title file_path pages])
  = [document_row_of (seq_documents t + 1) name title file_path pages].
Proof.
  intros Hc. rewrite filter_app.
  rewrite (filter_none (λ d, d_id d = seq_documents t + 1)
             (filter _ (t_documents t))).
  - cbn [app]. by rewrite filter_cons_True.
  - apply Forall_forall. intros d [_ Hin]%list_elem_of_filter.
    pose proof (cons_doc_ids _ Hc) as Hd. rewrite Forall_forall in Hd.
    specialize (Hd d Hin). lia.
Qed.

Lemma page_rows_select (id seq n : Z) (name title : pystr) pages :
  NoDup (map pc_page_number pages) →
  (∀ page, page ∈ pages → pc_page_number page = n →
     ∃ pid, page_rows id seq pages
            ≫= (λ p, if decide (name = name ∧ p_page_number p = n)
                     then [{| pd_id := p_id p;
                              pd_page_number := p_page_number p;
                              pd_content := p_content p;
                              pd_document_name := name;
                              pd_document_title := title |}]
                     else [])
            = [page_dict_of pid name title page])
  ∧ (n ∉ map pc_page_number pages →
     page_rows id seq pages
     ≫= (λ p, if decide (name = name ∧ p_page_number p = n)
              then [{| pd_id := p_id p; pd_page_number := p_page_number p;
                       pd_content := p_content p; pd_document_name := name;
                       pd_document_title := title |}]
              else [])
     = []).
Proof.
  revert seq. induction pages as [|q pages IH]; intros seq Hnd.
  { split; [by intros ? ?%elem_of_nil|done]. }
  cbn [map] in Hnd. apply NoDup_cons in Hnd as [Hq Hnd].
  cbn [page_rows]. rewrite bind_cons. cbn [page_row_of p_page_number].
  destruct (IH (seq + 1) Hnd) as [IH1 IH2]. split.
  - intros page [->|Hin]%elem_of_cons Hn.
    + rewrite decide_True by done. rewrite IH2 by (by rewrite <- Hn).
      exists (seq + 1). unfold page_dict_of. cbn. by rewrite Hn.
    + rewrite decide_False.
      * cbn [app]. by apply IH1.
      * intros [_ Heq]. apply Hq. rewrite Heq, <- Hn.
        apply list_elem_of_In, in_map. by apply list_elem_of_In.
  - intros Hn. cbn [map] in Hn. apply not_elem_of_cons in Hn as [Hne Hn].
    rewrite decide_False by (intros [_ ?]; congruence).
    cbn [app]. by apply IH2.
Qed.

(** X17. After a call that returns, [get_page_content] serves the pages
    of the file under the name that was indexed, and no other: for each
    page the parser made it returns the stripped text of that page with
    the name and the title given to the call (the number of such a page
    was bound by the INSERT, so it is bound again); for a page number the
    file does not have it returns [None] when the number fits a signed
    64-bit integer, also when an earlier version of the document had a
    page with that number, and raises [OverflowError] when the number
    does not fit. *)
Theorem indexed_pages_are_served {interp : Interpreter} {engine : Fts5}
    (fs : filesystem) (file_path document_name title : pystr)
    (c c' : connection) (n : Z) (pages : list PageContent)
    (units : list unit_dict) :
  consistent (working c) →
  index_document_enhanced fs file_path document_name title c = (Ok n, c') →
  parse_markdown_document_enhanced fs file_path document_name
  = Ok (pages, units) →
  (∀ page, page ∈ pages →
     fits_int64 (pc_page_number page) = true
     ∧ ∃ pid, get_page_content c' document_name (pc_page_number page)
              = Ok (Some (page_dict_of pid document_name title page)))
  ∧ (∀ k, k ∉ map pc_page_number pages →
          get_page_content c' document_name k
          = if fits_int64 k then Ok None else Raise OverflowError).
Proof.
  intros Hc Hidx Hparse.
  pose proof (index_ok_bindable _ _ _ _ _ _ _ _ _ Hc Hidx Hparse) as Hbind.
  destruct (index_ok_tables _ _ _ _ _ _ _ Hc Hidx)
    as (pages' & units' & ids & Hparse' & _ & Hnd & Hdocs & Hpages & _ & _).
  rewrite Hparse in Hparse'. injection Hparse' as <- <-.
  assert (Hsel : ∀ k,
    select_page (working c') document_name k
    = page_rows (seq_documents (working c) + 1) (seq_pages (working c)) pages
      ≫= (λ p, if decide (document_name = document_name ∧ p_page_number p = k)
               then [{| pd_id := p_id p; pd_page_number := p_page_number p;
                        pd_content := p_content p;
                        pd_document_name := document_name;
                        pd_document_title := title |}]
               else [])).
  { intros k. unfold select_page. rewrite Hpages, Hdocs, bind_app.
    rewrite bind_nil.
    - cbn [app]. apply bind_ext_in. intros p Hp.
      rewrite (page_rows_document _ _ _ _ Hp),
        (new_document_only document_name title file_path pages _ Hc).
      rewrite bind_cons. cbn [mbind list_bind document_row_of d_name d_title].
      by rewrite app_nil_r.
    - apply Forall_forall. intros p Hp. apply bind_nil.
      pose proof (cons_page_docs _ Hc) as Hpd. rewrite Forall_forall in Hpd.
      eapply Forall_impl;
        [apply (old_documents_renamed document_name title file_path pages
                  (working c) (p_document_id p) Hc (Hpd p Hp))|].
      cbn. intros d [Hne _]. rewrite decide_False; [done|]. by intros [? _]. }
  unfold get_page_content, bind_int. split.
  - intros page Hin.
    unfold bindable in Hbind. rewrite Forall_forall in Hbind.
    pose proof (Hbind page Hin) as Hfits. split; [done|].
    destruct (page_rows_select (seq_documents (working c) + 1)
                (seq_pages (working c)) (pc_page_number page) document_name
                title pages Hnd) as [H1 _].
    destruct (H1 page Hin eq_refl) as [pid Hpid].
    exists pid. rewrite Hfits. cbn [mbind result_bind mret result_ret].
    by rewrite Hsel, Hpid.
  - intros k Hk. destruct (fits_int64 k); [|done].
    destruct (page_rows_select (seq_documents (working c) + 1)
                (seq_pages (working c)) k document_name
                title pages Hnd) as [_ H2].
    cbn [mbind result_bind mret result_ret].
    by rewrite Hsel, (H2 Hk).
Qed.

Lemma indexed_pages_are_served_witness :
  (∀ page, page ∈ second_parsed.1 →
     fits_int64 (pc_page_number page) = true
     ∧ ∃ pid, get_page_content Example.c2 (lit "law") (pc_page_number page)
              = Ok (Some (page_dict_of pid (lit "law") [] page)))
  ∧ (∀ k, k ∉ map pc_page_number second_parsed.1 →
          get_page_content Example.c2 (lit "law") k
          = if fits_int64 k then Ok None else Raise OverflowError).
Proof.
  apply (indexed_pages_are_served (interp := Basic.interpreter)
           (engine := Substring.engine) Example.fs (lit "b.md") (lit "law") []
           Example.c1 Example.c2 1 second_parsed.1 second_parsed.2).
  - apply consistent_index, consistent_empty.
  - by vm_compute.
  - by vm_compute.
Defined.

(** *** The route of an article *)

Lemma filter_unique {A} (key : A → Z) (l : list A) (x : A) :
  NoDup (map key l) → x ∈ l → filter (λ y, key y = key x) l = [x].
Proof.
  induction l as [|y l IH]; intros Hnd Hx; [by apply elem_of_nil in Hx|].
  cbn [map] in Hnd. apply NoDup_cons in Hnd as [Hy Hnd].
  rewrite filter_cons. apply elem_of_cons in Hx as [->|Hx].
  - rewrite decide_True by done. f_equal.
    apply (filter_none (λ z, key z = key y)), Forall_forall.
    intros z Hz Heq. apply Hy. rewrite <- Heq.
    apply list_elem_of_In, in_map. by apply list_elem_of_In.
  - rewrite decide_False; [by apply IH|].
    intros Heq. apply Hy. rewrite Heq.
    apply list_elem_of_In, in_map. by apply list_elem_of_In.
Qed.

Lemma articles_with_document_nodup t :
  consistent t →
  NoDup (map (λ row, a_id row.1) (articles_with_document t)).
Proof.
  intros Hc.
  apply (sublist_NoDup _ _ (cons_art_nodup _ Hc)),
    (articles_with_document_ids _ Hc).
Qed.

Lemma get_article_found c a d :
  consistent (working c) →
  a ∈ t_articles (working c) → d ∈ t_documents (working c) →
  d_id d = a_document_id a →
  Web.get_article c (a_id a) = Web.Respond (Web.article_dict_of (a, d)).
Proof.
  intros Hc Ha Hd Hid. unfold Web.get_article.
  rewrite (filter_unique (λ row, a_id row.1) _ (a, d)); [done| |].
  - by apply articles_with_document_nodup.
  - by apply articles_with_document_elem.
Qed.

Lemma get_article_missing c k :
  (∀ a d, a ∈ t_articles (working c) → d ∈ t_documents (working c) →
          d_id d = a_document_id a → a_id a ≠ k) →
  Web.get_article c k = Web.HTTPException 404.
Proof.
  intros Hno. unfold Web.get_article.
  rewrite (filter_none (λ row, a_id row.1 = k)); [done|].
  apply Forall_forall. intros [a d] Hin%articles_with_document_elem.
  destruct Hin as (Ha & Hd & Hid). by apply (Hno a d).
Qed.

Lemma index_consistent {interp : Interpreter} {engine : Fts5}
    fs file_path document_name title c n c' :
  consistent (working c) →
  index_document_enhanced fs file_path document_name title c = (Ok n, c') →
  consistent (working c').
Proof.
  intros Hc Hidx.
  pose proof (consistent_index fs file_path document_name title c Hc) as Hc'.
  by rewrite Hidx in Hc'.
Qed.

(** X18. After a call that returns, the route of an article answers for
    each unit of the file under the id the unit was stored with, the ids
    going on from the counter of the articles in the order of the units:
    it gives the page number, the headings, the number, the content and
    the type of the unit, with the name and the title given to the call. *)
Theorem indexed_units_are_served_by_id {interp : Interpreter} {engine : Fts5}
    (fs : filesystem) (file_path document_name title : pystr)
    (c c' : connection) (n : Z) (pages : list PageContent)
    (units : list unit_dict) (k : nat) (u : unit_dict) :
  consistent (working c) →
  index_document_enhanced fs file_path document_name title c = (Ok n, c') →
  parse_markdown_document_enhanced fs file_path document_name
  = Ok (pages, units) →
  units !! k = Some u →
  Web.get_article c' (seq_articles (working c) + Z.of_nat k + 1)
  = Web.Respond
      (article_dict_of_unit (seq_articles (working c) + Z.of_nat k + 1)
         document_name title u).
Proof.
  intros Hc Hidx Hparse Hu.
  destruct (index_ok_tables _ _ _ _ _ _ _ Hc Hidx)
    as (pages' & units' & ids & Hparse' & _ & _ & Hdocs & _ & Harts & _).
  rewrite Hparse in Hparse'. injection Hparse' as <- <-.
  pose proof (index_consistent _ _ _ _ _ _ _ Hc Hidx) as Hc'.
  set (id := seq_documents (working c) + 1) in *.
  set (a := article_row_of id ids (seq_articles (working c) + Z.of_nat k) u).
  set (d := document_row_of id document_name title file_path pages).
  assert (Ha : a ∈ t_articles (working c')).
  { rewrite Harts. apply elem_of_app. right. apply article_rows_elem.
    by exists k, u. }
  assert (Hd : d ∈ t_documents (working c')).
  { rewrite Hdocs. apply elem_of_app. right. by apply list_elem_of_singleton. }
  pose proof (get_article_found c' a d Hc' Ha Hd eq_refl) as Hget.
  cbn [a article_row_of a_id] in Hget.
  by rewrite Hget.
Qed.

Lemma indexed_units_are_served_by_id_witness :
  Web.get_article Example.c2 2
  = Web.Respond (article_dict_of_unit 2 (lit "law") [] second_unit).
Proof.
  apply (indexed_units_are_served_by_id (interp := Basic.interpreter)
           (engine := Substring.engine) Example.fs (lit "b.md") (lit "law") []
           Example.c1 Example.c2 1 second_parsed.1 second_parsed.2 0
           second_unit).
  - apply consistent_index, consistent_empty.
  - by vm_compute.
  - by vm_compute.
  - by vm_compute.
Defined.

(** X19. When a document is indexed again under its name, the ids of the
    units of the version it replaces lead nowhere: the route of an
    article answers 404 for each of them, although their rows are still in
    the table of the articles. *)
Theorem replaced_articles_are_not_found {interp : Interpreter} {engine : Fts5}
    (fs : filesystem) (file_path document_name title : pystr)
    (c c' : connection) (n : Z) (a : article_row) (d : document_row) :
  consistent (working c) →
  index_document_enhanced fs file_path document_name title c = (Ok n, c') →
  a ∈ t_articles (working c) → d ∈ t_documents (working c) →
  d_id d = a_document_id a → d_name d = document_name →
  Web.get_article c' (a_id a) = Web.HTTPException 404
  ∧ a ∈ t_articles (working c').
Proof.
  intros Hc Hidx Ha Hd Hid Hname.
  destruct (index_ok_tables _ _ _ _ _ _ _ Hc Hidx)
    as (pages & units & ids & _ & _ & _ & Hdocs & _ & Harts & _).
  pose proof (index_consistent _ _ _ _ _ _ _ Hc Hidx) as Hc'.
  assert (Ha' : a ∈ t_articles (working c')).
  { rewrite Harts. apply elem_of_app. by left. }
  split; [|done]. apply get_article_missing.
  intros a' d' Ha2 Hd' Hid' Heq.
  assert (a' = a) as ->.
  { by apply (nodup_key_inj a_id (t_articles (working c')));
      [apply cons_art_nodup| | |]. }
  pose proof (cons_doc_ids _ Hc) as Hids. rewrite Forall_forall in Hids.
  rewrite Hdocs in Hd'.
  apply elem_of_app in Hd' as [[Hne Hd']%list_elem_of_filter|Hd'].
  - assert (d' = d) as ->.
    { apply (nodup_key_inj d_id (t_documents (working c)));
        [by apply cons_doc_nodup|done|done|congruence]. }
    done.
  - apply list_elem_of_singleton in Hd'. subst d'. cbn in Hid'.
    specialize (Hids d Hd). lia.
Qed.

Lemma replaced_articles_are_not_found_witness :
  Web.get_article Example.c2 1 = Web.HTTPException 404
  ∧ first_article ∈ t_articles (working Example.c2).
Proof.
  apply (replaced_articles_are_not_found (interp := Basic.interpreter)
           (engine := Substring.engine) Example.fs (lit "b.md") (lit "law") []
           Example.c1 Example.c2 1 first_article first_document).
  - apply consistent_index, consistent_empty.
  - by vm_compute.
  - apply list_elem_of_In. vm_compute. by left.
  - apply list_elem_of_In. vm_compute. by left.
  - done.
  - done.
Defined.

(** X20. Indexing a document leaves the articles of the documents with
    another name as they were: the route of an article answers for them
    what it answered before the call. *)
Theorem other_documents_are_served_as_before
    {interp : Interpreter} {engine : Fts5}
    (fs : filesystem) (file_path document_name title : pystr)
    (c c' : connection) (n : Z) (a : article_row) (d : document_row) :
  consistent (working c) →
  index_document_enhanced fs file_path document_name title c = (Ok n, c') →
  a ∈ t_articles (working c) → d ∈ t_documents (working c) →
  d_id d = a_document_id a → d_name d ≠ document_name →
  Web.get_article c' (a_id a) = Web.get_article c (a_id a)
  ∧ Web.get_article c (a_id a) = Web.Respond (Web.article_dict_of (a, d)).
Proof.
  intros Hc Hidx Ha Hd Hid Hname.
  destruct (index_ok_tables _ _ _ _ _ _ _ Hc Hidx)
    as (pages & units & ids & _ & _ & _ & Hdocs & _ & Harts & _).
  pose proof (index_consistent _ _ _ _ _ _ _ Hc Hidx) as Hc'.
  rewrite (get_article_found c a d Hc Ha Hd Hid).
  split; [|done]. apply get_article_found; [done| | |done].
  - rewrite Harts. apply elem_of_app. by left.
  - rewrite Hdocs. apply elem_of_app. left. by apply list_elem_of_filter.
Qed.

Lemma other_documents_are_served_as_before_witness :
  Web.get_article c_two 1 = Web.get_article Example.c1 1
  ∧ Web.get_article Example.c1 1
    = Web.Respond (Web.article_dict_of (first_article, first_document)).
Proof.
  apply (other_documents_are_served_as_before (interp := Basic.interpreter)
           (engine := Substring.engine) Example.fs (lit "b.md") (lit "other")
           [] Example.c1 c_two 1 first_article first_document).
  - apply consistent_index, consistent_empty.
  - by vm_compute.
  - apply list_elem_of_In. vm_compute. by left.
  - apply list_elem_of_In. vm_compute. by left.
  - done.
  - by vm_compute.
Defined.

Lemma article_rows_length id ids seq units :
  length (article_rows id ids seq units) = length units.
Proof.
  revert seq. induction units as [|u units IH]; intros seq; [done|].
  cbn [article_rows length]. by rewrite IH.
Qed.

Lemma page_rows_length id seq pages :
  length (page_rows id seq pages) = length pages.
Proof.
  revert seq. induction pages as [|q pages IH]; intros seq; [done|].
  cbn [page_rows length]. by rewrite IH.
Qed.

(** X21. No call removes a row of the pages or of the articles: a call
    that returns adds the pages and the units of the file to what the
    tables held, so that [get_statistics] counts the units and the pages
    of every version that was ever indexed, while the documents grow by
    one at most. *)
Theorem statistics_count_every_version {interp : Interpreter} {engine : Fts5}
    (fs : filesystem) (file_path document_name title : pystr)
    (c c' : connection) (n : Z) (pages : list PageContent)
    (units : list unit_dict) :
  consistent (working c) →
  index_document_enhanced fs file_path document_name title c = (Ok n, c') →
  parse_markdown_document_enhanced fs file_path document_name
  = Ok (pages, units) →
  articles_count (get_statistics c') = articles_count (get_statistics c) + n
  ∧ pages_count (get_statistics c')
    = pages_count (get_statistics c) + Z.of_nat (length pages)
  ∧ documents_count (get_statistics c')
    ≤ documents_count (get_statistics c) + 1.
Proof.
  intros Hc Hidx Hparse.
  destruct (index_ok_tables _ _ _ _ _ _ _ Hc Hidx)
    as (pages' & units' & ids & Hparse' & -> & _ & Hdocs & Hpages & Harts & _).
  rewrite Hparse in Hparse'. injection Hparse' as <- <-.
  cbn [get_statistics articles_count pages_count documents_count].
  rewrite Hdocs, Hpages, Harts, !length_app. cbn [length].
  rewrite article_rows_length, page_rows_length.
  pose proof (length_filter (λ d, d_name d ≠ document_name)
                (t_documents (working c))).
  lia.
Qed.

Lemma statistics_count_every_version_witness :
  articles_count (get_statistics Example.c2)
  = articles_count (get_statistics Example.c1) + 1
  ∧ pages_count (get_statistics Example.c2)
    = pages_count (get_statistics Example.c1)
      + Z.of_nat (length second_parsed.1)
  ∧ documents_count (get_statistics Example.c2)
    ≤ documents_count (get_statistics Example.c1) + 1.
Proof.
  apply (statistics_count_every_version (interp := Basic.interpreter)
           (engine := Substring.engine) Example.fs (lit "b.md") (lit "law") []
           Example.c1 Example.c2 1 second_parsed.1 second_parsed.2).
  - apply consistent_index, consistent_empty.
  - by vm_compute.
  - by vm_compute.
Defined.

(** *** One page for a name and a number *)

Lemma bind_at_most_one {A B} (f : A → list B) (l : list A) :
  (∀ a, (length (f a) ≤ 1)%nat) →
  (∀ i j a a', l !! i = Some a → l !! j = Some a' →
               f a ≠ [] → f a' ≠ [] → i = j) →
  (length (l ≫= f) ≤ 1)%nat.
Proof.
  intros Hlen. induction l as [|a l IH]; intros Huniq; [cbn; lia|].
  rewrite bind_cons, length_app.
  destruct (f a) as [|b rest] eqn:Hfa.
  - cbn [length]. apply IH. intros i j x y Hi Hj Hx Hy.
    by injection (Huniq (S i) (S j) x y Hi Hj Hx Hy).
  - rewrite (bind_nil f l).
    + specialize (Hlen a). rewrite Hfa in Hlen. cbn [length] in *. lia.
    + apply Forall_forall. intros x Hx.
      apply list_elem_of_lookup in Hx as [j Hj].
      destruct (f x) as [|b' rest'] eqn:Hfx; [done|].
      assert (0%nat = S j); [|done].
      apply (Huniq 0%nat (S j) a x); [done|done|by rewrite Hfa|by rewrite Hfx].
Qed.

Lemma nodup_inj {A K} (key : A → K) (l : list A) x y :
  NoDup (map key l) → x ∈ l → y ∈ l → key x = key y → x = y.
Proof.
  intros Hnd [i Hi]%list_elem_of_lookup [j Hj]%list_elem_of_lookup Heq.
  assert (i = j) as ->; [|congruence].
  apply (NoDup_lookup (map key l) i j (key x)); [done| |].
  - by rewrite list_lookup_fmap, Hi.
  - by rewrite list_lookup_fmap, Hj, Heq.
Qed.

(** X22. In every state the engine can reach, a document name and a page
    number name one page at most: the SELECT of [get_page_content] never
    has a second row for [fetchone] to leave out. *)
Theorem page_lookup_is_unambiguous {interp : Interpreter} {engine : Fts5}
    (c : connection) (document_name : pystr) (page_number : Z) :
  reachable c →
  (length (select_page (working c) document_name page_number) ≤ 1)%nat.
Proof.
  intros Hr. pose proof (reachable_store_inv c Hr) as Hinv.
  pose proof (si_consistent _ Hinv) as Hc.
  set (t := working c) in *. unfold select_page.
  set (g := λ p : page_row,
         filter (λ d, d_id d = p_document_id p) (t_documents t)
         ≫= λ d, if decide (d_name d = document_name
                            ∧ p_page_number p = page_number)
                 then [{| pd_id := p_id p; pd_page_number := p_page_number p;
                          pd_content := p_content p;
                          pd_document_name := d_name d;
                          pd_document_title := d_title d |}]
                 else []).
  assert (Hg : ∀ p, g p ≠ [] →
            ∃ d, d ∈ t_documents t ∧ d_id d = p_document_id p
                 ∧ d_name d = document_name ∧ p_page_number p = page_number).
  { intros p Hne. destruct (g p) as [|x rest] eqn:Hgp; [done|].
    assert (x ∈ g p) as Hx by (rewrite Hgp; apply elem_of_cons; by left).
    apply list_elem_of_bind in Hx as (d & Hx & Hd).
    apply list_elem_of_filter in Hd as [Hid Hd].
    destruct (decide _) as [[Hn Hk]|]; [|by apply elem_of_nil in Hx].
    by exists d. }
  apply (bind_at_most_one g).
  - intros p. unfold g.
    pose proof (filter_key_unique d_id (p_document_id p) _
                  (cons_doc_nodup _ Hc)) as Hd.
    destruct (filter _ (t_documents t)) as [|d [|d' l]];
      [cbn; lia| |cbn [length] in Hd; lia].
    rewrite bind_cons. cbn [mbind list_bind]. rewrite app_nil_r.
    destruct (decide _); cbn; lia.
  - intros i j p p' Hi Hj Hp Hp'.
    destruct (Hg p Hp) as (d & Hd & Hid & Hn & Hk).
    destruct (Hg p' Hp') as (d' & Hd' & Hid' & Hn' & Hk').
    assert (d = d') as <-.
    { apply (nodup_inj d_name (t_documents t)); [apply si_names, Hinv| | |];
        congruence. }
    apply (NoDup_lookup (map page_key (t_pages t)) i j (page_key p)).
    + apply si_page_keys, Hinv.
    + by rewrite list_lookup_fmap, Hi.
    + rewrite list_lookup_fmap, Hj. unfold page_key. cbn. congruence.
Qed.

Lemma page_lookup_is_unambiguous_witness :
  (length (select_page (working Example.c3) (lit "other") 7) ≤ 1)%nat.
Proof.
  apply (page_lookup_is_unambiguous (interp := Basic.interpreter)
           (engine := Substring.engine)).
  apply (reachable_index Example.fs (lit "b.md") (lit "other") []).
  apply (reachable_index Example.fs (lit "bad.md") (lit "law") []).
  apply (reachable_index Example.fs (lit "a.md") (lit "law") []).
  apply reachable_connect.
Defined.

(** *** The row of the document *)

Lemma foldl_max_bounds (n : Z) (ns : list Z) :
  n ≤ foldl Z.max n ns
  ∧ Forall (λ m, m ≤ foldl Z.max n ns) ns
  ∧ foldl Z.max n ns ∈ n :: ns.
Proof.
  revert n. induction ns as [|m ns IH]; intros n.
  { split; [cbn; lia|]. split; [constructor|]. apply elem_of_cons. by left. }
  cbn [foldl]. destruct (IH (Z.max n m)) as (H1 & H2 & H3).
  split; [lia|]. split.
  - constructor; [lia|done].
  - apply elem_of_cons in H3 as [H3|H3].
    + rewrite H3. destruct (Z.max_spec n m) as [[_ ->]|[_ ->]].
      * apply elem_of_cons. right. apply elem_of_cons. by left.
      * apply elem_of_cons. by left.
    + apply elem_of_cons. right. apply elem_of_cons. by right.
Qed.

Lemma max_page_bounds pages :
  Forall (λ page, pc_page_number page ≤ max_page pages) pages
  ∧ (pages ≠ [] → max_page pages ∈ map pc_page_number pages).
Proof.
  unfold max_page. destruct pages as [|q pages]; [by split|].
  cbn [map]. destruct (foldl_max_bounds (pc_page_number q)
                         (map pc_page_number pages)) as (H1 & H2 & H3).
  split; [|done]. constructor; [done|].
  apply Forall_forall. intros page Hin. rewrite Forall_forall in H2.
  apply H2, list_elem_of_In, in_map. by apply list_elem_of_In.
Qed.

(** X23. After a call that returns, the table of the documents has one row
    with the name that was indexed, and it is the last one: it carries the
    new id, the title and the path given to the call, and as [pages_count]
    the largest page number of the file, which no page number exceeds and
    which is 0 for a file without pages: not the number of the pages. *)
Theorem document_row_after_index {interp : Interpreter} {engine : Fts5}
    (fs : filesystem) (file_path document_name title : pystr)
    (c c' : connection) (n : Z) (pages : list PageContent)
    (units : list unit_dict) :
  consistent (working c) →
  index_document_enhanced fs file_path document_name title c = (Ok n, c') →
  parse_markdown_document_enhanced fs file_path document_name
  = Ok (pages, units) →
  ∃ d,
    last (t_documents (working c')) = Some d
    ∧ (∀ d', d' ∈ t_documents (working c') → d_name d' = document_name →
             d' = d)
    ∧ d_id d = seq_documents (working c) + 1
    ∧ d_name d = document_name ∧ d_title d = title
    ∧ d_file_path d = file_path
    ∧ Forall (λ page, pc_page_number page ≤ d_pages_count d) pages
    ∧ (pages = [] → d_pages_count d = 0)
    ∧ (pages ≠ [] → d_pages_count d ∈ map pc_page_number pages).
Proof.
  intros Hc Hidx Hparse.
  destruct (index_ok_tables _ _ _ _ _ _ _ Hc Hidx)
    as (pages' & units' & ids & Hparse' & _ & _ & Hdocs & _ & _ & _).
  rewrite Hparse in Hparse'. injection Hparse' as <- <-.
  destruct (max_page_bounds pages) as [Hmax Hin].
  eexists. rewrite Hdocs. split; [apply last_snoc|].
  split; [|by repeat split; try done; intros ->].
  intros d' Hd' Hname.
  apply elem_of_app in Hd' as [[Hne _]%list_elem_of_filter|Hd']; [done|].
  by apply list_elem_of_singleton in Hd'.
Qed.

Lemma document_row_after_index_witness :
  ∃ d,
    last (t_documents (working Example.c2)) = Some d
    ∧ (∀ d', d' ∈ t_documents (working Example.c2) → d_name d' = lit "law" →
             d' = d)
    ∧ d_id d = seq_documents (working Example.c1) + 1
    ∧ d_name d = lit "law" ∧ d_title d = []
    ∧ d_file_path d = lit "b.md"
    ∧ Forall (λ page, pc_page_number page ≤ d_pages_count d) second_parsed.1
    ∧ (second_parsed.1 = [] → d_pages_count d = 0)
    ∧ (second_parsed.1 ≠ [] →
       d_pages_count d ∈ map pc_page_number second_parsed.1).
Proof.
  apply (document_row_after_index (interp := Basic.interpreter)
           (engine := Substring.engine) Example.fs (lit "b.md") (lit "law") []
           Example.c1 Example.c2 1 second_parsed.1 second_parsed.2).
  - apply consistent_index, consistent_empty.
  - by vm_compute.
  - by vm_compute.
Defined.

(** *** The two engines side by side *)

Lemma index_ok_form {interp : Interpreter} {engine : Fts5}
    fs file_path document_name title c n c' :
  consistent (working c) →
  index_document_enhanced fs file_path document_name title c = (Ok n, c') →
  ∃ pages units ids ps seq fts,
    parse_markdown_document_enhanced fs file_path document_name
    = Ok (pages, units)
    ∧ n = Z.of_nat (length units)
    ∧ bindable pages
    ∧ working c'
      = Sql.update_pages_count (max_page pages)
          (seq_documents (working c) + 1)
          (insert_articles_t (seq_documents (working c) + 1) ids units
             (Sql.set_pages ps seq fts
                (Sql.insert_or_replace_document document_name title
                   file_path 0 (working c)).2)).
Proof.
  intros Hc Hidx. rewrite index_unfold in Hidx by done.
  unfold index_outcome in Hidx.
  destruct (negb _); [done|].
  destruct (parse_markdown_document_enhanced _ _ _) as [[pages units]|e]; [|done].
  set (id := seq_documents (working c) + 1) in *.
  set (t1 := snd _) in *.
  destruct (insert_pages_t_spec id pages ∅ t1)
    as [(ids & fts & Hok & Hins)|(k & fts & Hbad & Hk & Hins)];
    rewrite Hins in Hidx; [|done].
  injection Hidx as <- <-. destruct Hok as [_ Hbind].
  by exists pages, units, ids,
    (t_pages t1 ++ page_rows id (seq_pages t1) pages),
    (seq_pages t1 + Z.of_nat (length pages)), fts.
Qed.

Lemma legacy_parse_ok {interp : Interpreter} fs file_path name pages units :
  parse_markdown_document_enhanced fs file_path name = Ok (pages, units) →
  Legacy.parse_markdown_document fs file_path name
  = Ok (map to_legacy units).
Proof.
  unfold Legacy.parse_markdown_document, parse_markdown_document_enhanced.
  destruct (read_text fs file_path) as [content|e]; [|done].
  cbn [mbind result_bind]. unfold parse_content.
  pose proof (page_loop_same name (tail (re_split_pages content))
                doc_init Legacy.doc_init) as Hsame.
  destruct (page_loop _ _ doc_init) as [d|e]; [|done].
  destruct (Legacy.page_loop _ _ Legacy.doc_init) as [ld|e'];
    cbn [mbind result_bind mret result_ret snd]; [|by destruct Hsame].
  destruct Hsame as (_ & _ & _ & Ha); [by repeat split|].
  intros [= <- <-]. by rewrite Ha.
Qed.

Lemma legacy_insert_articles_foldl document_id articles
    (c : connection_of Legacy.tables) :
  Forall (λ la, fits_int64 (Legacy.la_page_number la) = true) articles →
  Legacy.insert_articles document_id articles c
  = (Ok (), {| committed := committed c;
               working := foldl (λ t la, Legacy.insert_article document_id la t)
                            (working c) articles |}).
Proof.
  intros Hfits. revert c.
  induction Hfits as [|la articles Hla _ IH]; intros c.
  - by destruct c.
  - cbn [Legacy.insert_articles foldl].
    unfold mbind, M_bind, exec_ok, exec, lift, bind_int. rewrite Hla.
    cbn [working committed]. by rewrite IH.
Qed.

Lemma same_document_name_of t lt id :
  same_store t lt →
  Legacy.document_name_of lt id = Sql.document_name_of t id.
Proof.
  intros [Hdocs _ _ _ _]. unfold Legacy.document_name_of, Sql.document_name_of.
  induction Hdocs as [|ld d lds ds (Hid & Hname & _) _ IH]; [done|].
  rewrite !filter_cons, Hid.
  destruct (decide (d_id d = id)); [by rewrite Hname|done].
Qed.

Lemma same_documents_filter (name : pystr) lds ds :
  Forall2 same_document lds ds →
  Forall2 same_document (filter (λ d, d_name d ≠ name) lds)
    (filter (λ d, d_name d ≠ name) ds).
Proof.
  induction 1 as [|ld d lds ds (Hid & Hname & Hrest) _ IH]; [constructor|].
  rewrite !filter_cons, Hname.
  destruct (decide (d_name d ≠ name)); [|done]. by constructor.
Qed.

Lemma same_store_insert_or_replace name title path n t lt :
  same_store t lt →
  same_store (Sql.insert_or_replace_document name title path n t).2
    (Legacy.insert_or_replace_document name title path n lt).2.
Proof.
  intros []. split; cbn; try done; [|congruence].
  apply Forall2_app; [by apply same_documents_filter|].
  constructor; [|constructor]. rewrite ss_seq_documents0. by repeat split.
Qed.

Lemma same_store_set_pages ps seq fts t lt :
  same_store t lt → same_store (Sql.set_pages ps seq fts t) lt.
Proof. intros []. by split. Qed.

Lemma legacy_next_rowid rows :
  Sql.next_rowid (map to_legacy_fts rows) = Sql.next_rowid rows.
Proof. unfold Sql.next_rowid. by rewrite map_map. Qed.

Lemma same_store_insert_article id pid u t lt :
  same_store t lt →
  same_store (Sql.insert_article id pid u t)
    (Legacy.insert_article id (to_legacy u) lt).
Proof.
  intros Hs. pose proof (same_document_name_of t lt id Hs) as Hname.
  destruct Hs. split; cbn; try done.
  - rewrite map_app, ss_articles0, ss_seq_articles0. done.
  - congruence.
  - unfold Sql.fts_insert. rewrite map_app, ss_fts0, legacy_next_rowid.
    cbn. unfold to_legacy_fts at 2. cbn. by rewrite Hname, ss_seq_articles0.
Qed.

Lemma same_store_insert_articles id ids units t lt :
  same_store t lt →
  same_store (insert_articles_t id ids units t)
    (foldl (λ lt la, Legacy.insert_article id la lt) lt (map to_legacy units)).
Proof.
  revert t lt. induction units as [|u units IH]; intros t lt Hs; [done|].
  unfold insert_articles_t. cbn [map foldl].
  by apply IH, same_store_insert_article.
Qed.

Lemma same_store_update_pages_count n ln id t lt :
  same_store t lt →
  same_store (Sql.update_pages_count n id t)
    (Legacy.update_pages_count ln id lt).
Proof.
  intros []. split; cbn; try done.
  apply Forall2_fmap. eapply Forall2_impl; [exact ss_documents0|].
  intros ld d (Hid & Hname & Htitle & Hpath). cbn. rewrite Hid.
  destruct (decide (d_id d = id)); by repeat split.
Qed.

Lemma legacy_delete_articles_fresh {engine : Fts5} id lt :
  Forall (λ a, Legacy.a_document_id a ≠ id) (Legacy.t_articles lt) →
  Legacy.delete_articles id lt = (Ok (), lt).
Proof.
  intros Hf. unfold Legacy.delete_articles.
  rewrite (filter_none (λ a, Legacy.a_document_id a = id)) by done.
  rewrite (filter_all (λ a, Legacy.a_document_id a ≠ id)) by done.
  by destruct lt.
Qed.

(** X24. The two engines store the same: when their tables hold the same
    documents and the same articles and [index_document_enhanced] returns
    for a file, [index_document] returns the same number for it, commits,
    and the tables hold the same documents and articles again, those of
    [LegalSearchEngine] without page ids and positions. *)
Theorem legacy_index_stores_the_same {interp : Interpreter} {engine : Fts5}
    (fs : filesystem) (file_path document_name title : pystr)
    (c c' : connection) (lc : connection_of Legacy.tables) (n : Z) :
  consistent (working c) → same_store (working c) (working lc) →
  index_document_enhanced fs file_path document_name title c = (Ok n, c') →
  ∃ lc',
    Legacy.index_document fs file_path document_name title lc = (Ok n, lc')
    ∧ same_store (working c') (working lc')
    ∧ committed lc' = working lc'.
Proof.
  intros Hc Hs Hidx.
  destruct (index_ok_form _ _ _ _ _ _ _ Hc Hidx)
    as (pages & units & ids & ps & seq & fts & Hparse & -> & Hbind & ->).
  pose proof (parse_ok_path_exists _ _ _ _ Hparse) as Hpath.
  pose proof (legacy_parse_ok _ _ _ _ _ Hparse) as Hlparse.
  unfold Legacy.index_document. rewrite Hpath. cbn [negb].
  unfold mbind at 1. unfold M_bind at 1, exec_ok at 1, exec at 1.
  rewrite (surjective_pairing (Legacy.insert_or_replace_document _ _ _ _ _)).
  set (lt1 := (Legacy.insert_or_replace_document document_name title
                 file_path 0 (working lc)).2).
  assert (Hs1 : same_store
                  (Sql.insert_or_replace_document document_name title
                     file_path 0 (working c)).2 lt1)
    by by apply same_store_insert_or_replace.
  cbn [fst Legacy.insert_or_replace_document].
  unfold mbind at 1. unfold M_bind at 1, exec at 1. cbn [working committed].
  rewrite legacy_delete_articles_fresh.
  2:{ cbn. rewrite (ss_articles _ _ Hs), (ss_seq_documents _ _ Hs).
      apply Forall_forall. intros la Hla.
      apply list_elem_of_In, in_map_iff in Hla as (a & <- & Ha).
      pose proof (cons_art_ids _ Hc) as Hids. rewrite Forall_forall in Hids.
      apply list_elem_of_In in Ha. destruct (Hids a Ha) as [_ Hle].
      cbn. lia. }
  unfold mbind at 1. unfold M_bind at 1, lift at 1. rewrite Hlparse.
  unfold mbind at 1. unfold M_bind at 1.
  rewrite legacy_insert_articles_foldl.
  2:{ apply Forall_fmap. eapply Forall_impl;
        [exact (unit_pages _ _ _ _ _ Hparse)|].
      cbn. intros u (page & Hin & <-).
      unfold bindable in Hbind. rewrite Forall_forall in Hbind.
      by apply Hbind. }
  cbn [working committed].
  unfold mbind, M_bind, exec_ok, exec, commit, mret, M_ret.
  cbn [working committed]. eexists. split; [by rewrite length_map|].
  cbn [working committed]. split; [|done].
  rewrite (ss_seq_documents _ _ Hs).
  apply same_store_update_pages_count, same_store_insert_articles,
    same_store_set_pages, Hs1.
Qed.

Lemma legacy_index_stores_the_same_witness :
  ∃ lc',
    Legacy.index_document (interp := Basic.interpreter)
      (engine := Substring.engine) Example.fs (lit "b.md") (lit "law") []
      legacy_c1 = (Ok 1, lc')
    ∧ same_store (working Example.c2) (working lc')
    ∧ committed lc' = working lc'.
Proof.
  apply (legacy_index_stores_the_same (interp := Basic.interpreter)
           (engine := Substring.engine) Example.fs (lit "b.md") (lit "law") []
           Example.c1 Example.c2 legacy_c1 1).
  - apply consistent_index, consistent_empty.
  - split; try by vm_compute. vm_compute.
    constructor; [by repeat split|constructor].
  - by vm_compute.
Defined.

End StoreFacts.
